(** * code-weaver: a four-language source-to-source translator

    Shallow embedding of the translator core (lexers, recursive-descent
    parsers, the C and Java emitters, and the orchestrator) together with
    the properties its specification states about them.

    Modelling conventions.
    - Source texts and every JavaScript string are [string]s of 8-bit
      characters (UTF-16 code units below 256).
    - A JavaScript object is a constructor application; an optional field
      ([x?: T], or a variable that may hold [undefined]) is an [option].
    - A parser object's mutable [tokens]/[pos] pair is threaded through a
      state monad; a thrown exception and an exhausted recursion budget
      are two further outcomes of a computation.
    - The emitters' [indent] counter is incremented and decremented in
      matched pairs around every nested body, so it is passed down as an
      argument. *)

From Stdlib Require Import String Ascii List ZArith Lia Bool Arith.
From Stdlib Require Import DecimalString.
Import ListNotations.

Open Scope string_scope.
Open Scope list_scope.

Set Warnings "-register-all,-abstract-large-number".

(* ================================================================== *)
(** * JavaScript string primitives used by the translator *)
(* ================================================================== *)

Module JS.

Definition ch (n : nat) : ascii := ascii_of_nat n.

Definition LF : ascii := ch 10.
Definition CR : ascii := ch 13.
Definition backslash : ascii := ch 92.
Definition dquote : ascii := ch 34.
Definition squote : ascii := ch 39.

Definition str1 (c : ascii) : string := String c EmptyString.

(** The regular-expression class [\s], restricted to code units < 256. *)
Definition isSpace (c : ascii) : bool :=
  let n := nat_of_ascii c in
  (Nat.leb 9 n && Nat.leb n 13) || Nat.eqb n 32 || Nat.eqb n 160.

(** [\d] *)
Definition isDigit (c : ascii) : bool :=
  let n := nat_of_ascii c in Nat.leb 48 n && Nat.leb n 57.

(** [[a-zA-Z_]] *)
Definition isWordStart (c : ascii) : bool :=
  let n := nat_of_ascii c in
  (Nat.leb 65 n && Nat.leb n 90) || (Nat.leb 97 n && Nat.leb n 122) || Nat.eqb n 95.

(** [[a-zA-Z0-9_]] *)
Definition isWordChar (c : ascii) : bool := isWordStart c || isDigit c.

(** The dot of a regular expression: anything but a line terminator. *)
Definition isLineTerminator (c : ascii) : bool :=
  Ascii.eqb c LF || Ascii.eqb c CR.

Fixpoint takeWhile (p : ascii -> bool) (s : string) : string :=
  match s with
  | String c r => if p c then String c (takeWhile p r) else EmptyString
  | EmptyString => EmptyString
  end.

Fixpoint dropWhile (p : ascii -> bool) (s : string) : string :=
  match s with
  | String c r => if p c then dropWhile p r else s
  | EmptyString => EmptyString
  end.

Fixpoint drop (n : nat) (s : string) : string :=
  match n, s with
  | S m, String _ r => drop m r
  | _, _ => s
  end.

Fixpoint rev_onto (s acc : string) : string :=
  match s with
  | String c r => rev_onto r (String c acc)
  | EmptyString => acc
  end.

Definition rev (s : string) : string := rev_onto s EmptyString.

Fixpoint removeLast (s : string) : string :=
  match s with
  | EmptyString => EmptyString
  | String _ EmptyString => EmptyString
  | String c r => String c (removeLast r)
  end.

(** [s.slice(1, -1)] and [s.slice(2, -1)] *)
Definition slice_1_m1 (s : string) : string := removeLast (drop 1 s).
Definition slice_2_m1 (s : string) : string := removeLast (drop 2 s).

(** [s.startsWith(p)] *)
Definition startsWith (s p : string) : bool := String.prefix p s.

(** [s.includes(p)] *)
Fixpoint includes (s p : string) : bool :=
  if String.prefix p s then true
  else match s with
       | String _ r => includes r p
       | EmptyString => false
       end.

(** [s.endsWith(p)] *)
Definition endsWith (s p : string) : bool := String.prefix (rev p) (rev s).

Definition trimStart (s : string) : string := dropWhile isSpace s.
Definition trimEnd (s : string) : string := rev (dropWhile isSpace (rev s)).
Definition trim (s : string) : string := trimEnd (trimStart s).

(** [s.replace(p, r)] with a string pattern: the first occurrence only. *)
Fixpoint replaceFirst (s p r : string) : string :=
  if String.prefix p s then r ++ drop (String.length p) s
  else match s with
       | String c t => String c (replaceFirst t p r)
       | EmptyString => EmptyString
       end.

(** [s.replace(/p/g, r)] for a literal, non-empty pattern [p]: one
    left-to-right pass over non-overlapping occurrences.  After a match
    the remaining [length p - 1] characters of the occurrence are
    skipped. *)
Fixpoint replaceAll_go (skip : nat) (s p r : string) : string :=
  match s with
  | EmptyString => EmptyString
  | String c t =>
      match skip with
      | S k => replaceAll_go k t p r
      | O =>
          if String.prefix p s
          then r ++ replaceAll_go (String.length p - 1) t p r
          else String c (replaceAll_go 0 t p r)
      end
  end.

Definition replaceAll (s p r : string) : string := replaceAll_go 0 s p r.

(** [l.join(sep)] *)
Definition join (sep : string) (l : list string) : string := String.concat sep l.

(** [s.repeat(n)] *)
Fixpoint repeat (s : string) (n : nat) : string :=
  match n with O => EmptyString | S m => s ++ repeat s m end.

(** [s.split(c)] for a one-character separator. *)
Fixpoint split_onto (sep : ascii) (s cur : string) : list string :=
  match s with
  | EmptyString => [rev cur]
  | String c r =>
      if Ascii.eqb c sep then rev cur :: split_onto sep r EmptyString
      else split_onto sep r (String c cur)
  end.

Definition split (sep : ascii) (s : string) : list string :=
  split_onto sep s EmptyString.

(** [l.includes(x)] on an array of strings *)
Definition mem (x : string) (l : list string) : bool :=
  existsb (String.eqb x) l.

Definition memc (x : ascii) (l : list ascii) : bool :=
  existsb (Ascii.eqb x) l.

(** ** Numbers

    A JavaScript number is an IEEE 754 double.  A finite double is kept
    as the decimal that [String(n)] prints for it, the shortest decimal
    that reads back as the same double: an integer [JsInt z], or an
    integer part with a fraction [JsDec ip frac] whose last digit is
    not zero.  Any other [JsInt] or [JsDec] stands for the double
    nearest to it, which [normal] puts in this form.  An integer of at
    most 2^53 in absolute value is its own form. *)
Inductive JsNumber : Type :=
| JsInt (z : Z)
| JsDec (ip : Z) (frac : string)
| JsInfinity.

Definition digitVal (c : ascii) : Z := Z.of_nat (nat_of_ascii c - 48).

Fixpoint digitsVal (s : string) (acc : Z) : Z :=
  match s with
  | String c r => digitsVal r (10 * acc + digitVal c)%Z
  | EmptyString => acc
  end.

Definition ZtoString (z : Z) : string := NilZero.string_of_int (Z.to_int z).

(** The rational [n / d] ([0 <= n], [0 < d]) rounded to the nearest
    double, ties to the even significand: [Some (m, e)] is the double
    [m * 2^e] with [2^52 <= m < 2^53], or with [e = -1074] and
    [m < 2^52] below the normal range; [None] is the overflow to
    Infinity. *)
Definition roundDouble (n d : Z) : option (Z * Z) :=
  (if n =? 0 then Some (0, -1074) else
   let quotientAt (e : Z) :=
     if 0 <=? e then n / (d * 2 ^ e) else (n * 2 ^ (- e)) / d in
   let e0 := Z.log2 n - Z.log2 d - 52 in
   let e1 := if 2 ^ 53 <=? quotientAt e0 then e0 + 1
             else if quotientAt e0 <? 2 ^ 52 then e0 - 1
             else e0 in
   let e := Z.max e1 (-1074) in
   let num := if 0 <=? e then n else n * 2 ^ (- e) in
   let den := if 0 <=? e then d * 2 ^ e else d in
   let q := num / den in
   let r := num mod den in
   let q := if (den <? 2 * r) || ((den =? 2 * r) && Z.odd q) then q + 1
            else q in
   let m := if q =? 2 ^ 53 then 2 ^ 52 else q in
   let e := if q =? 2 ^ 53 then e + 1 else e in
   if 971 <? e then None else Some (m, e))%Z.

(** [c * 10^p] as a fraction. *)
Definition decimalFraction (c p : Z) : Z * Z :=
  (if 0 <=? p then (c * 10 ^ p, 1) else (c, 10 ^ (- p)))%Z.

(** The largest [t] with [10^t <= n / d], for [0 < n]. *)
Definition floorLog10 (n d : Z) : Z :=
  (let reaches (t : Z) :=
     if 0 <=? t then 10 ^ t * d <=? n else d <=? n * 10 ^ (- t) in
   let t0 := ((Z.log2 n - Z.log2 d) * 30103) / 100000 in
   if reaches (t0 + 1) then t0 + 1
   else if reaches t0 then t0
   else t0 - 1)%Z.

(** ECMA-262, Number::toString, step 5: the decimal [c * 10^p] with the
    fewest digits [k] that rounds to the double [m * 2^e] (here
    [n / d]), the one closest to it when there are two. *)
Fixpoint shortestFrom (count : nat) (k : Z) (m e n d t : Z) : Z * Z :=
  match count with
  | O => ((n / d)%Z, 0%Z)
  | S count' =>
      (let p := t + 1 - k in
       let xn := if 0 <=? p then n else n * 10 ^ (- p) in
       let xd := if 0 <=? p then d * 10 ^ p else d in
       let lo := xn / xd in
       let hi := lo + 1 in
       let readsBack (c : Z) :=
         let '(cn, cd) := decimalFraction c p in
         match roundDouble cn cd with
         | Some (m', e') => (m' =? m) && (e' =? e)
         | None => false
         end in
       if readsBack lo && readsBack hi then
         if (2 * xn <? (2 * lo + 1) * xd)
            || ((2 * xn =? (2 * lo + 1) * xd) && Z.even lo)
         then (lo, p) else (hi, p)
       else if readsBack lo then (lo, p)
       else if readsBack hi then (hi, p)
       else shortestFrom count' (k + 1) m e n d t)%Z
  end.

Fixpoint stripZeros (s : string) : string :=
  match s with
  | String c r =>
      match stripZeros r with
      | EmptyString => if Ascii.eqb c (ch 48) then EmptyString else str1 c
      | t => String c t
      end
  | EmptyString => EmptyString
  end.

(** The digits of [z] in [width] places. *)
Definition padded (width : nat) (z : Z) : string :=
  let s := ZtoString z in
  repeat "0" (width - String.length s) ++ s.

(** The non-negative decimal [c * 10^p] as a number. *)
Definition ofDecimal (c p : Z) : JsNumber :=
  (if 0 <=? p then JsInt (c * 10 ^ p)
   else
     let w := 10 ^ (- p) in
     match stripZeros (padded (Z.to_nat (- p)) (c mod w)) with
     | EmptyString => JsInt (c / w)
     | frac => JsDec (c / w) frac
     end)%Z.

(** The number value of the rational [n / d] ([0 <= n], [0 < d]). *)
Definition numberValue (n d : Z) : JsNumber :=
  match roundDouble n d with
  | None => JsInfinity
  | Some (m, e) =>
      (if m =? 0 then JsInt 0
       else
         let vn := if 0 <=? e then m * 2 ^ e else m in
         let vd := if 0 <=? e then 1 else 2 ^ (- e) in
         let '(c, p) := shortestFrom 17 1 m e vn vd (floorLog10 vn vd) in
         ofDecimal c p)%Z
  end.

Definition negate (n : JsNumber) : JsNumber :=
  match n with
  | JsInt z => JsInt (- z)
  | JsDec ip frac => JsDec (- ip) frac
  | JsInfinity => JsInfinity
  end.

(** The form of the double a number stands for.  In [JsDec ip frac] a
    negative [ip] makes the number negative. *)
Definition normal (x : JsNumber) : JsNumber :=
  match x with
  | JsInt z =>
      (if Z.abs z <=? 2 ^ 53 then JsInt z
       else if z <? 0 then negate (numberValue (- z) 1)
       else numberValue z 1)%Z
  | JsDec ip frac =>
      (let w := 10 ^ Z.of_nat (String.length frac) in
       let n := Z.abs ip * w + digitsVal frac 0 in
       if ip <? 0 then negate (numberValue n w) else numberValue n w)%Z
  | JsInfinity => JsInfinity
  end.

(** [parseInt(s)] and [parseFloat(s)] on a text that starts with a
    digit, as the value of every NUMBER token does (digits, then
    possibly a point and digits, then possibly a suffix letter). *)
Definition parseInt (s : string) : JsNumber :=
  normal (JsInt (digitsVal (takeWhile isDigit s) 0)).

Definition parseFloat (s : string) : JsNumber :=
  let ip := digitsVal (takeWhile isDigit s) 0 in
  match dropWhile isDigit s with
  | String c r =>
      if Ascii.eqb c (ch 46) then normal (JsDec ip (takeWhile isDigit r))
      else normal (JsInt ip)
  | EmptyString => normal (JsInt ip)
  end.

Definition isZeroDigit (c : ascii) : bool := Ascii.eqb c (ch 48).

(** [d.ddd] followed by [e+x] or [e-x]: the digits [s] with the point
    after the first. *)
Definition exponential (s sign : string) (x : Z) : string :=
  match s with
  | String c EmptyString => str1 c ++ "e" ++ sign ++ ZtoString x
  | String c r => str1 c ++ "." ++ r ++ "e" ++ sign ++ ZtoString x
  | EmptyString => EmptyString
  end.

(** ECMA-262, Number::toString, steps 6 to 10, on a form. *)
Definition formatNumber (x : JsNumber) : string :=
  match x with
  | JsInt z =>
      let digits := ZtoString (Z.abs z) in
      let n := String.length digits in
      if Nat.leb n 21 then ZtoString z
      else (if (z <? 0)%Z then "-" else "")
           ++ exponential (stripZeros digits) "+" (Z.of_nat n - 1)
  | JsDec ip frac =>
      (if (ip <? 0)%Z then "-" else "")
      ++ (if (ip =? 0)%Z then
            let zeros := String.length (takeWhile isZeroDigit frac) in
            if Nat.leb zeros 5 then "0." ++ frac
            else exponential (dropWhile isZeroDigit frac) "-"
                             (Z.of_nat zeros + 1)
          else ZtoString (Z.abs ip) ++ "." ++ frac)
  | JsInfinity => "Infinity"
  end.

(** [String(n)] *)
Definition numberToString (n : JsNumber) : string := formatNumber (normal n).

(** [!!n] *)
Definition numberTruthy (n : JsNumber) : bool :=
  match normal n with
  | JsInt z => negb (Z.eqb z 0)
  | _ => true
  end.

End JS.

Import JS.

(* ================================================================== *)
(** * The intermediate representation (ir.ts) *)
(* ================================================================== *)

(** [DataType].  The front-ends find the type of a name by a property
    read on an object literal, [typeMap[type] || d]; for a name that is
    a property of [Object.prototype] the read finds the inherited value
    (a function or an object, which is not falsy), and that value is
    what the node carries.  [TProto key] is that value: it is equal to
    no type name, and no later lookup finds it. *)
Inductive DataType : Type :=
| TInt | TFloat | TDouble | TString | TBool | TVoid | TChar | TAuto
| TProto (key : string).

(** The property names of [Object.prototype]. *)
Definition inheritedKeys : list string :=
  ["constructor"; "hasOwnProperty"; "isPrototypeOf"; "propertyIsEnumerable";
   "toLocaleString"; "toString"; "valueOf"; "__proto__";
   "__defineGetter__"; "__defineSetter__"; "__lookupGetter__";
   "__lookupSetter__"].

(** [typeMap[type] || d] once [type] is none of the keys written in
    [typeMap]. *)
Definition inheritedOr (d : DataType) (type : string) : DataType :=
  if mem type inheritedKeys then TProto type else d.

(** [a === b] *)
Definition DataType_eqb (a b : DataType) : bool :=
  match a, b with
  | TInt, TInt | TFloat, TFloat | TDouble, TDouble | TString, TString
  | TBool, TBool | TVoid, TVoid | TChar, TChar | TAuto, TAuto => true
  | TProto j, TProto k => String.eqb j k
  | _, _ => false
  end.

(** [IRLiteral.value : string | number | boolean] *)
Inductive LitValue : Type :=
| VStr (s : string)
| VNum (n : JsNumber)
| VBool (b : bool).

(** The tagged-variant tree.  [IRVariable], [IRFunction], [IRClass] and
    [IRIf] are types of their own because other nodes hold fields of
    exactly these types.  The class fields [mainMethod] and
    [staticMethods] are the two properties the code reads through
    [(node as any)]; [isFString] is the extra property the scripting
    front-end puts on string literals. *)
Inductive IRNode : Type :=
| NVariable (v : IRVariable)
| NAssignment (target : string) (value : IRNode)
| NFunction (f : IRFunction)
| NClass (c : IRClass)
| NIf (i : IRIf)
| NFor (init condition update : option IRNode)
       (iterator : option string)
       (rangeStart rangeEnd rangeStep : option IRNode)
       (body : list IRNode)
| NWhile (condition : IRNode) (body : list IRNode)
| NSwitch (expression : IRNode) (cases : list (IRNode * list IRNode))
          (defaultBody : option (list IRNode))
| NBreak
| NReturn (value : option IRNode)
| NPrint (args : list IRNode) (newline : bool)
| NInput (prompt targetVar : option string) (targetType : option DataType)
| NCall (callee : string) (args : list IRNode) (isMethod : bool)
        (object : option string)
| NBinaryOp (operator : string) (left right : IRNode)
| NUnaryOp (operator : string) (operand : IRNode)
| NLiteral (value : LitValue) (dataType : DataType) (isFString : bool)
| NIdentifier (name : string)
| NComment (text : string) (isMultiline : bool)
with IRVariable : Type :=
| mkVariable (name : string) (dataType : DataType) (value : option IRNode)
with IRFunction : Type :=
| mkFunction (name : string) (params : list IRVariable)
             (returnType : DataType) (body : list IRNode)
with IRClass : Type :=
| mkClass (name : string) (members : list IRVariable)
          (methods : list IRFunction) (constructor : option IRFunction)
          (mainMethod : option IRFunction)
          (staticMethods : option (list IRFunction))
with IRIf : Type :=
| mkIf (condition : IRNode) (thenBranch : list IRNode)
       (elseBranch : option (list IRNode)) (elseIf : option IRIf).

Record IRProgram : Type := mkProgram {
  body : list IRNode;
  imports : list string
}.

Module IR.

Definition var_name (v : IRVariable) : string :=
  match v with mkVariable n _ _ => n end.
Definition var_dataType (v : IRVariable) : DataType :=
  match v with mkVariable _ t _ => t end.
Definition var_value (v : IRVariable) : option IRNode :=
  match v with mkVariable _ _ x => x end.

Definition fn_name (f : IRFunction) : string :=
  match f with mkFunction n _ _ _ => n end.
Definition fn_params (f : IRFunction) : list IRVariable :=
  match f with mkFunction _ p _ _ => p end.
Definition fn_returnType (f : IRFunction) : DataType :=
  match f with mkFunction _ _ t _ => t end.
Definition fn_body (f : IRFunction) : list IRNode :=
  match f with mkFunction _ _ _ b => b end.

Definition cls_name (c : IRClass) : string :=
  match c with mkClass n _ _ _ _ _ => n end.
Definition cls_members (c : IRClass) : list IRVariable :=
  match c with mkClass _ m _ _ _ _ => m end.
Definition cls_methods (c : IRClass) : list IRFunction :=
  match c with mkClass _ _ m _ _ _ => m end.
Definition cls_constructor (c : IRClass) : option IRFunction :=
  match c with mkClass _ _ _ k _ _ => k end.
Definition cls_mainMethod (c : IRClass) : option IRFunction :=
  match c with mkClass _ _ _ _ m _ => m end.
Definition cls_staticMethods (c : IRClass) : option (list IRFunction) :=
  match c with mkClass _ _ _ _ _ s => s end.

(** The type guards of ir.ts. *)
Definition isIRClass (n : IRNode) : bool :=
  match n with NClass _ => true | _ => false end.
Definition isIRFunction (n : IRNode) : bool :=
  match n with NFunction _ => true | _ => false end.

(** Literal shorthands used by every front-end. *)
Definition intLit (z : Z) : IRNode := NLiteral (VNum (JsInt z)) TInt false.
Definition strLit (s : string) : IRNode := NLiteral (VStr s) TString false.

End IR.
Import IR.

(* ================================================================== *)
(** * Computations: state, exceptions, recursion budget *)
(* ================================================================== *)

(** The exception the embedded code can raise is the [TypeError] of a
    property read on [null] or [undefined], with the engine's message
    text; [Error] stands for whatever else a component may throw. *)
Inductive Exn : Type :=
| TypeError (msg : string)
| Error (msg : string).

(** [`${e}`] *)
Definition exnToString (e : Exn) : string :=
  match e with
  | TypeError m => "TypeError: " ++ m
  | Error m => "Error: " ++ m
  end.

Inductive Outcome (A : Type) : Type :=
| Returned (a : A)
| Threw (e : Exn)
| OutOfFuel.
Arguments Returned {A} a.
Arguments Threw {A} e.
Arguments OutOfFuel {A}.

Definition M (S A : Type) : Type := S -> Outcome (A * S).

Definition ret {S A} (a : A) : M S A := fun s => Returned (a, s).

Definition bind {S A B} (m : M S A) (k : A -> M S B) : M S B :=
  fun s =>
    match m s with
    | Returned (a, s') => k a s'
    | Threw e => Threw e
    | OutOfFuel => OutOfFuel
    end.

Definition throw {S A} (e : Exn) : M S A := fun _ => Threw e.
Definition outOfFuel {S A} : M S A := fun _ => OutOfFuel.

Declare Scope monad_scope.
Delimit Scope monad_scope with monad.
Notation "x <- m ;; k" := (bind m (fun x => k))
  (at level 61, m at next level, right associativity) : monad_scope.
Notation "m ;; k" := (bind m (fun _ => k))
  (at level 61, right associativity) : monad_scope.
Notation "' pat <- m ;; k" := (bind m (fun x => match x with pat => k end))
  (at level 61, pat pattern, m at next level, right associativity) : monad_scope.
Open Scope monad_scope.

(** [if (c) { m }] *)
Definition when {S} (c : bool) (m : M S unit) : M S unit :=
  if c then m else ret tt.

(** A [while] loop.  The body receives the loop-carried variables and
    says whether the loop goes round again ([inl]) or is left ([inr],
    by a failed test, a [break] or a [return]).  [fuel] bounds the number
    of rounds. *)
Fixpoint loop {S A B} (fuel : nat) (body : A -> M S (A + B)) (a : A) : M S B :=
  match fuel with
  | O => outOfFuel
  | Datatypes.S n =>
      r <- body a ;;
      match r with
      | inl a' => loop n body a'
      | inr b => ret b
      end
  end.

(* ================================================================== *)
(** * Lexers *)
(* ================================================================== *)

Inductive TokenType : Type :=
| PREPROCESSOR | COMMENT | MULTILINE_COMMENT | STRING | CHAR | NUMBER
| KEYWORD | IDENTIFIER | OPERATOR | PUNCTUATION | NEWLINE.

Definition TokenType_eqb (a b : TokenType) : bool :=
  match a, b with
  | PREPROCESSOR, PREPROCESSOR | COMMENT, COMMENT
  | MULTILINE_COMMENT, MULTILINE_COMMENT | STRING, STRING | CHAR, CHAR
  | NUMBER, NUMBER | KEYWORD, KEYWORD | IDENTIFIER, IDENTIFIER
  | OPERATOR, OPERATOR | PUNCTUATION, PUNCTUATION | NEWLINE, NEWLINE => true
  | _, _ => false
  end.

(** [interface Token] of the three brace-language front-ends. *)
Record Token : Type := mkToken {
  ttype : TokenType;
  value : string
}.

Module Lexer.

(** [/^\d+\.?\d*[sfx]?/]: the numeral and what follows it. *)
Definition scanNumber (suffixes : list ascii) (s : string)
  : option (string * string) :=
  match s with
  | String c _ =>
      if isDigit c then
        let ip := takeWhile isDigit s in
        let r1 := dropWhile isDigit s in
        let '(dot, r2) :=
          match r1 with
          | String d r => if Ascii.eqb d (ch 46) then (str1 d, r) else (EmptyString, r1)
          | EmptyString => (EmptyString, r1)
          end in
        let fr := takeWhile isDigit r2 in
        let r3 := dropWhile isDigit r2 in
        let '(sfx, r4) :=
          match r3 with
          | String d r => if memc d suffixes then (str1 d, r) else (EmptyString, r3)
          | EmptyString => (EmptyString, r3)
          end in
        Some ((ip ++ dot ++ fr ++ sfx)%string, r4)
      else None
  | EmptyString => None
  end.

(** [/^[a-zA-Z_][a-zA-Z0-9_]*/] *)
Definition scanWord (s : string) : option (string * string) :=
  match s with
  | String c _ =>
      if isWordStart c
      then Some (takeWhile isWordChar s, dropWhile isWordChar s)
      else None
  | EmptyString => None
  end.

(** An alternation of literal operators, tried in the order written. *)
Fixpoint matchOp (ops : list string) (s : string) : option string :=
  match ops with
  | [] => None
  | op :: rest => if String.prefix op s then Some op else matchOp rest s
  end.

Definition notLF (c : ascii) : bool := negb (Ascii.eqb c LF).

(** Body of a [/* ... */] comment, entered after the opener:
    [while (i < code.length - 1 && code.slice(i, i + 2) !== '*/')
       comment += code[i++];  i += 2;]
    With fewer than two characters left the loop stops and [i += 2]
    steps over whatever remains. *)
Fixpoint scanBlockComment (s : string) : string * string :=
  match s with
  | String a ((String b r) as t) =>
      if Ascii.eqb a (ch 42) && Ascii.eqb b (ch 47) then (EmptyString, r)
      else let '(c, rest) := scanBlockComment t in (String a c, rest)
  | _ => (EmptyString, EmptyString)
  end.

(** Body of a string or char literal, entered after the opening quote
    [q]; returns the text appended to the token and the input after the
    closing quote.
    [while (i < code.length && code[i] !== q) {
       if (code[i] === '\\') str += code[i++];
       str += code[i++];            // C front-end
       if (i < code.length) str += code[i++];   // CPP and JV front-ends
     }]
    In the unguarded form a backslash that ends the input is followed by
    the read of [code[i]] past the end, and [str += undefined] appends
    the text [undefined]. *)
Fixpoint scanQuoted (guarded : bool) (q : ascii) (s : string)
  : string * string :=
  match s with
  | EmptyString => (EmptyString, EmptyString)
  | String c r =>
      if Ascii.eqb c q then (EmptyString, r)
      else if Ascii.eqb c backslash then
        match r with
        | EmptyString =>
            (if guarded then str1 c else String c "undefined", EmptyString)
        | String d r' =>
            let '(t, rest) := scanQuoted guarded q r' in
            (String c (String d t), rest)
        end
      else let '(t, rest) := scanQuoted guarded q r in (String c t, rest)
  end.

(** What differs between the three brace-language lexers. *)
Record Config : Type := mkConfig {
  preprocessor : bool;         (* is [#] a directive opener? *)
  guardedEscape : bool;        (* see [scanQuoted] *)
  numberSuffixes : list ascii;
  keywords : list string;
  operators : list string
}.

(** One round of the [while (i < code.length)] loop on the input that
    is left: the token pushed, if any, and the input after it. *)
Definition step (cfg : Config) (s : string) : option (option Token * string) :=
  match s with
  | EmptyString => None
  | String c r =>
      if isSpace c then Some (None, r)
      else if preprocessor cfg && Ascii.eqb c (ch 35) then
        Some (Some (mkToken PREPROCESSOR (takeWhile notLF s)), dropWhile notLF s)
      else if String.prefix "//" s then
        let t := drop 2 s in
        Some (Some (mkToken COMMENT (takeWhile notLF t)), dropWhile notLF t)
      else if String.prefix "/*" s then
        let '(cm, rest) := scanBlockComment (drop 2 s) in
        Some (Some (mkToken MULTILINE_COMMENT cm), rest)
      else if Ascii.eqb c dquote then
        let '(t, rest) := scanQuoted (guardedEscape cfg) dquote r in
        Some (Some (mkToken STRING (String dquote (t ++ str1 dquote))), rest)
      else if Ascii.eqb c squote then
        let '(t, rest) := scanQuoted (guardedEscape cfg) squote r in
        Some (Some (mkToken CHAR (String squote (t ++ str1 squote))), rest)
      else
        match scanNumber (numberSuffixes cfg) s with
        | Some (n, rest) => Some (Some (mkToken NUMBER n), rest)
        | None =>
            match scanWord s with
            | Some (w, rest) =>
                Some (Some (mkToken (if mem w (keywords cfg) then KEYWORD
                                     else IDENTIFIER) w), rest)
            | None =>
                match matchOp (operators cfg) s with
                | Some op =>
                    Some (Some (mkToken OPERATOR op), drop (String.length op) s)
                | None => Some (Some (mkToken PUNCTUATION (str1 c)), r)
                end
            end
        end
  end.

Fixpoint run (cfg : Config) (fuel : nat) (s : string) : option (list Token) :=
  match fuel with
  | O => None
  | S n =>
      match step cfg s with
      | None => Some []
      | Some (ot, rest) =>
          match run cfg n rest with
          | Some l => Some (match ot with Some t => t :: l | None => l end)
          | None => None
          end
      end
  end.

(** Every round consumes input, so [length code + 1] rounds are enough
    ([LexerFacts.run_total] below); the empty default is never taken. *)
Definition tokenize (cfg : Config) (code : string) : list Token :=
  match run cfg (S (String.length code)) code with
  | Some l => l
  | None => []
  end.

(** The operator table holds no empty text. *)
Definition wellFormed (cfg : Config) : Prop :=
  forall op, In op (operators cfg) -> op <> EmptyString.

(** The input starts with a character that no earlier rule of [step]
    takes: not white space, no comment or directive opener, no quote, no
    digit, no word character, no operator. *)
Definition unrecognized (cfg : Config) (c : ascii) (r : string) : Prop :=
  isSpace c = false
  /\ (preprocessor cfg && Ascii.eqb c (ch 35)) = false
  /\ String.prefix "//" (String c r) = false
  /\ String.prefix "/*" (String c r) = false
  /\ Ascii.eqb c dquote = false
  /\ Ascii.eqb c squote = false
  /\ isDigit c = false
  /\ isWordStart c = false
  /\ matchOp (operators cfg) (String c r) = None.

End Lexer.

(** [interface Token] of the scripting front-end: every token also
    carries its position and the indent of its line. *)
Record PyToken : Type := mkPyToken {
  py_type : TokenType;
  py_value : string;
  py_line : nat;
  py_column : nat;
  py_indent : nat
}.

Module PyLexer.

(** [((?:\\.|(?!\1)[^\\])*?)\1] after the opening quote [q]: the
    matched text up to and including the closing quote, and the input
    after it.  The two alternatives start with different characters and
    the closing quote can only be matched by [\1], so the lazy search is
    a left-to-right scan; it fails at the end of the line and at a
    backslash that is followed by nothing or by a line terminator. *)
Fixpoint scanQuoted (q : ascii) (s : string) : option (string * string) :=
  match s with
  | EmptyString => None
  | String c r =>
      if Ascii.eqb c q then Some (str1 c, r)
      else if Ascii.eqb c backslash then
        match r with
        | EmptyString => None
        | String d r' =>
            if isLineTerminator d then None
            else match scanQuoted q r' with
                 | Some (t, rest) => Some (String c (String d t), rest)
                 | None => None
                 end
        end
      else match scanQuoted q r with
           | Some (t, rest) => Some (String c t, rest)
           | None => None
           end
  end.

Definition isQuote (c : ascii) : bool :=
  Ascii.eqb c dquote || Ascii.eqb c squote.

(** The regular-string pattern: an opening quote of either kind, the
    lazy body of [scanQuoted], the same quote again. *)
Definition stringMatch (s : string) : option (string * string) :=
  match s with
  | String q r =>
      if isQuote q then
        match scanQuoted q r with
        | Some (t, rest) => Some (String q t, rest)
        | None => None
        end
      else None
  | EmptyString => None
  end.

(** The f-string pattern: the letter f, then a regular string. *)
Definition fStringMatch (s : string) : option (string * string) :=
  match s with
  | String f r =>
      if Ascii.eqb f (ch 102) then
        match stringMatch r with
        | Some (t, rest) => Some (String f t, rest)
        | None => None
        end
      else None
  | EmptyString => None
  end.

(** [[\s\S]*?qqq]: up to and including the first [qqq]. *)
Fixpoint scanTriple (q3 : string) (s : string) : option (string * string) :=
  if String.prefix q3 s then Some (q3, drop 3 s)
  else match s with
       | String c r =>
           match scanTriple q3 r with
           | Some (t, rest) => Some (String c t, rest)
           | None => None
           end
       | EmptyString => None
       end.

Definition tripleQuoted (q3 : string) (s : string) : option (string * string) :=
  let '(f, s') :=
    match s with
    | String c r => if Ascii.eqb c (ch 102) then (str1 c, r) else (EmptyString, s)
    | EmptyString => (EmptyString, s)
    end in
  if String.prefix q3 s' then
    match scanTriple q3 (drop 3 s') with
    | Some (t, rest) => Some ((f ++ q3 ++ t)%string, rest)
    | None => None
    end
  else None.

(** The triple-quoted pattern: an optional f, three double quotes (or,
    failing that, three single quotes), the shortest text up to the same
    three quotes.  A text that opens this way is already matched, as an
    empty string, by one of the two patterns tried before this one. *)
Definition tripleMatch (s : string) : option (string * string) :=
  let dq3 := String dquote (String dquote (str1 dquote)) in
  let sq3 := String squote (String squote (str1 squote)) in
  match tripleQuoted dq3 s with
  | Some m => Some m
  | None => tripleQuoted sq3 s
  end.

Definition keywords : list string :=
  ["def"; "class"; "if"; "elif"; "else"; "for"; "while"; "return";
   "print"; "input"; "in"; "range"; "True"; "False"; "None"; "and";
   "or"; "not"; "self"; "int"; "float"; "str"; "bool"].

(** [/^(==|!=|<=|>=|<<|>>|\+=|-=|\*=|\/=|->|::|[+\-*/%<>=!&|^~])/] *)
Definition operators : list string :=
  ["=="; "!="; "<="; ">="; "<<"; ">>"; "+="; "-="; "*="; "/="; "->"; "::";
   "+"; "-"; "*"; "/"; "%"; "<"; ">"; "="; "!"; "&"; "|"; "^"; "~"].

(** [/^[()[\]{},;:.]/] *)
Definition punctuation : list ascii :=
  [ch 40; ch 41; ch 91; ch 93; ch 123; ch 125; ch 44; ch 59; ch 58; ch 46].

(** What one round of the inner [while (col < line.length)] loop does
    with the rest of the line. *)
Inductive Step : Type :=
| Skip (n : nat)                          (* [col += n], no token *)
| Emit (t : TokenType) (v : string) (rest : string)
| CommentToEnd (v : string).              (* push the comment, [break] *)

Definition step (remaining : string) : option Step :=
  match remaining with
  | EmptyString => None
  | String c r =>
      if isSpace c then Some (Skip (String.length (takeWhile isSpace remaining)))
      else if Ascii.eqb c (ch 35) then Some (CommentToEnd remaining)
      else
        match fStringMatch remaining with
        | Some (v, rest) => Some (Emit STRING v rest)
        | None =>
        match stringMatch remaining with
        | Some (v, rest) => Some (Emit STRING v rest)
        | None =>
        match tripleMatch remaining with
        | Some (v, rest) => Some (Emit STRING v rest)
        | None =>
        match Lexer.scanNumber [] remaining with
        | Some (v, rest) => Some (Emit NUMBER v rest)
        | None =>
        match Lexer.scanWord remaining with
        | Some (v, rest) =>
            Some (Emit (if mem v keywords then KEYWORD else IDENTIFIER) v rest)
        | None =>
        match Lexer.matchOp operators remaining with
        | Some op => Some (Emit OPERATOR op (drop (String.length op) remaining))
        | None =>
            if memc c punctuation then Some (Emit PUNCTUATION (str1 c) r)
            else Some (Skip 1)
        end end end end end end
  end.

(** The inner loop over one line, from column [col]; returns the tokens
    of the line and the column reached. *)
Fixpoint lineLoop (fuel : nat) (lineNum lineIndent col : nat)
         (remaining : string) : option (list PyToken * nat) :=
  match fuel with
  | O => None
  | S n =>
      match step remaining with
      | None => Some ([], col)
      | Some (Skip k) => lineLoop n lineNum lineIndent (col + k) (drop k remaining)
      | Some (CommentToEnd v) =>
          Some ([mkPyToken COMMENT v lineNum col lineIndent], col)
      | Some (Emit t v rest) =>
          match lineLoop n lineNum lineIndent (col + String.length v) rest with
          | Some (l, col') =>
              Some (mkPyToken t v lineNum col lineIndent :: l, col')
          | None => None
          end
      end
  end.

(** The outer [for] over the lines; lines that trim to nothing are
    skipped, every other line ends with a NEWLINE token. *)
Fixpoint linesLoop (lineNum : nat) (lines : list string)
  : option (list PyToken) :=
  match lines with
  | [] => Some []
  | line :: rest =>
      let lineIndent := String.length (takeWhile isSpace line) in
      if Nat.eqb (String.length (trim line)) 0 then linesLoop (S lineNum) rest
      else
        match lineLoop (S (String.length line)) lineNum lineIndent lineIndent
                       (drop lineIndent line) with
        | Some (toks, col) =>
            match linesLoop (S lineNum) rest with
            | Some l =>
                Some (toks ++ mkPyToken NEWLINE (str1 LF) lineNum col lineIndent :: l)%list
            | None => None
            end
        | None => None
        end
  end.

(** The inner loop consumes input every round
    ([PyLexerFacts.linesLoop_total] below); the empty default is never
    taken. *)
Definition tokenize (code : string) : list PyToken :=
  match linesLoop 0 (split LF code) with
  | Some l => l
  | None => []
  end.

(** The rest of the line starts with a character that none of the
    rules before the punctuation test takes. *)
Definition unrecognized (c : ascii) (r : string) : Prop :=
  isSpace c = false
  /\ Ascii.eqb c (ch 35) = false
  /\ fStringMatch (String c r) = None
  /\ stringMatch (String c r) = None
  /\ tripleMatch (String c r) = None
  /\ Lexer.scanNumber [] (String c r) = None
  /\ Lexer.scanWord (String c r) = None
  /\ Lexer.matchOp operators (String c r) = None.

End PyLexer.

(* ================================================================== *)
(** * Token-buffer primitives of the brace-language parsers *)
(* ================================================================== *)

(** [peek], [advance], [match] and [consume] are the same four methods in
    CParser, CppParser and JavaParser. *)
Module Core.

Record PState : Type := mkPState {
  tokens : list Token;
  pos : nat
}.

Definition P (A : Type) : Type := M PState A.

Definition nullRead (prop : string) : Exn :=
  TypeError ("Cannot read properties of null (reading '" ++ prop ++ "')").

(** [this.tokens[this.pos + offset] || null] *)
Definition peekAt (offset : nat) : P (option Token) :=
  fun s => Returned (nth_error (tokens s) (pos s + offset), s).

Definition peek : P (option Token) := peekAt 0.

(** [this.tokens[this.pos++] || null]: [pos] moves on even at the end. *)
Definition advance : P (option Token) :=
  fun s => Returned (nth_error (tokens s) (pos s),
                     mkPState (tokens s) (S (pos s))).

(** [match(type, value?)] *)
Definition match_ (t : TokenType) (v : option string) : P bool :=
  tok <- peek ;;
  ret (match tok with
       | None => false
       | Some k =>
           TokenType_eqb (ttype k) t &&
           match v with
           | None => true
           | Some x => String.eqb (value k) x
           end
       end).

Definition matchT (t : TokenType) : P bool := match_ t None.
Definition matchV (t : TokenType) (v : string) : P bool := match_ t (Some v).

(** [consume(type, value?)] *)
Definition consume (t : TokenType) (v : option string) : P (option Token) :=
  b <- match_ t v ;;
  if b then advance else ret None.

Definition consumeT (t : TokenType) : P (option Token) := consume t None.
Definition consumeV (t : TokenType) (v : string) : P (option Token) :=
  consume t (Some v).

(** [this.pos < this.tokens.length] *)
Definition more : P bool :=
  fun s => Returned (Nat.ltb (pos s) (List.length (tokens s)), s).

(** [this.advance()!.value] *)
Definition advanceValue : P string :=
  tok <- advance ;;
  match tok with
  | Some k => ret (value k)
  | None => throw (nullRead "value")
  end.

(** [a || b] and [a && b] on tests that read the token buffer. *)
Definition orP (a b : P bool) : P bool :=
  x <- a ;; if x then ret true else b.
Definition andP (a b : P bool) : P bool :=
  x <- a ;; if x then b else ret false.
Definition notP (a : P bool) : P bool :=
  x <- a ;; ret (negb x).

(** [while (c) { m }] *)
Definition whileDo (fuel : nat) (c : P bool) (m : P unit) : P unit :=
  loop fuel (fun _ : unit =>
               b <- c ;;
               if b then m ;; ret (inl tt) else ret (inr tt)) tt.

(** [while (!this.match(')')) { args.push(parseExpression());
                                if (!this.consume(',')) break; }] *)
Definition parseArgs (fuel : nat) (parseExpression : P IRNode)
  : P (list IRNode) :=
  loop fuel (fun args : list IRNode =>
    stop <- matchV PUNCTUATION ")" ;;
    if stop then ret (inr args)
    else
      e <- parseExpression ;;
      comma <- consumeV PUNCTUATION "," ;;
      match comma with
      | Some _ => ret (inl (args ++ [e])%list)
      | None => ret (inr (args ++ [e])%list)
      end) [].

Definition litValueToString (v : LitValue) : string :=
  match v with
  | VStr s => s
  | VNum n => numberToString n
  | VBool true => "true"
  | VBool false => "false"
  end.

(** The classic-loop recognition that ends [parseFor] in the C, CPP and
    JV front-ends: the iterator and start come from a declaring [init],
    the end from a [<] or [<=] condition. *)
Definition rangeIterator (init : option IRNode) : option string :=
  match init with
  | Some (NVariable v) => Some (var_name v)
  | _ => None
  end.

Definition rangeStartOf (init : option IRNode) : option IRNode :=
  match init with
  | Some (NVariable v) => var_value v
  | _ => None
  end.

Definition rangeEndOf (condition : option IRNode) : option IRNode :=
  match condition with
  | Some (NBinaryOp op _ rhs) =>
      if String.eqb op "<" then Some rhs
      else if String.eqb op "<=" then Some (NBinaryOp "+" rhs (intLit 1))
      else None
  | _ => None
  end.

End Core.

(* ================================================================== *)
(** * The C front-end (parsers/c-parser.ts) *)
(* ================================================================== *)

Module CParser.
Import Core.

Definition config : Lexer.Config :=
  Lexer.mkConfig true false [ch 102; ch 70; ch 108; ch 76]
    ["int"; "float"; "double"; "char"; "void"; "if"; "else"; "for";
     "while"; "return"; "struct"; "typedef"; "const"; "static";
     "printf"; "scanf"; "sizeof"; "NULL"; "true"; "false"]
    ["=="; "!="; "<="; ">="; "&&"; "||"; "<<"; ">>"; "++"; "--"; "->";
     "+="; "-="; "*="; "/="].

Definition tokenize (code : string) : list Token := Lexer.tokenize config code.

(** The methods that are reached again from inside themselves, at the
    recursion depth that is left, and the budget of the loops. *)
Record Table : Type := mkTable {
  budget : nat;
  t_parseExpression : P IRNode;
  t_parseAssignment : P IRNode;
  t_parseUnary : P IRNode;
  t_parseStatement : P (option IRNode);
  t_parseBlock : P (list IRNode);
  t_parseIf : P IRIf
}.

(** [typeMap[type] || 'int'] *)
Definition mapCType (type : string) : DataType :=
  if String.eqb type "int" then TInt
  else if String.eqb type "float" then TFloat
  else if String.eqb type "double" then TDouble
  else if String.eqb type "char" then TChar
  else if String.eqb type "void" then TVoid
  else if String.eqb type "bool" then TBool
  else inheritedOr TInt type.

(** [isType(token: Token)]: the argument is dereferenced at once. *)
Definition isType (token : option Token) : P bool :=
  match token with
  | None => throw (nullRead "type")
  | Some k =>
      ret (TokenType_eqb (ttype k) KEYWORD &&
           mem (value k) ["int"; "float"; "double"; "char"; "void"; "const"; "static"])
  end.

Definition generateSimpleExpr (node : IRNode) : string :=
  match node with
  | NLiteral v _ _ => litValueToString v
  | NIdentifier n => n
  | _ => "0"
  end.

Definition parsePrimary (self : Table) : P IRNode :=
  b <- matchV PUNCTUATION "(" ;;
  if b then
    advance ;;
    expr <- t_parseExpression self ;;
    consumeV PUNCTUATION ")" ;;
    ret expr
  else
  b <- matchT NUMBER ;;
  if b then
    v <- advanceValue ;;
    ret (if includes v "." then NLiteral (VNum (parseFloat v)) TFloat false
         else NLiteral (VNum (parseInt v)) TInt false)
  else
  b <- matchT STRING ;;
  if b then
    v <- advanceValue ;;
    ret (NLiteral (VStr (slice_1_m1 v)) TString false)
  else
  b <- matchT CHAR ;;
  if b then
    v <- advanceValue ;;
    ret (NLiteral (VStr (slice_1_m1 v)) TChar false)
  else
  b <- matchV KEYWORD "true" ;;
  if b then advance ;; ret (NLiteral (VBool true) TBool false) else
  b <- matchV KEYWORD "false" ;;
  if b then advance ;; ret (NLiteral (VBool false) TBool false) else
  b <- matchV KEYWORD "NULL" ;;
  if b then advance ;; ret (NLiteral (VStr "null") TVoid false) else
  b <- matchT IDENTIFIER ;;
  if b then
    name <- advanceValue ;;
    call <- matchV PUNCTUATION "(" ;;
    if call then
      advance ;;
      args <- parseArgs (budget self) (t_parseExpression self) ;;
      consumeV PUNCTUATION ")" ;;
      ret (NCall name args false None)
    else
      arr <- matchV PUNCTUATION "[" ;;
      if arr then
        advance ;;
        index <- t_parseExpression self ;;
        consumeV PUNCTUATION "]" ;;
        ret (NIdentifier (name ++ "[" ++ generateSimpleExpr index ++ "]"))
      else ret (NIdentifier name)
  else ret (intLit 0).

Definition parsePostfix (self : Table) : P IRNode :=
  expr <- parsePrimary self ;;
  loop (budget self) (fun expr : IRNode =>
    inc <- matchV OPERATOR "++" ;;
    if inc then advance ;; ret (inl (NUnaryOp "++_post" expr))
    else
      dec <- matchV OPERATOR "--" ;;
      if dec then advance ;; ret (inl (NUnaryOp "--_post" expr))
      else ret (inr expr)) expr.

Definition parseUnary (self : Table) : P IRNode :=
  b <- orP (matchV PUNCTUATION "!")
           (orP (matchV PUNCTUATION "-") (matchV PUNCTUATION "+")) ;;
  if b then
    op <- advanceValue ;;
    operand <- t_parseUnary self ;;
    ret (NUnaryOp op operand)
  else
  b <- orP (matchV OPERATOR "++") (matchV OPERATOR "--") ;;
  if b then
    op <- advanceValue ;;
    operand <- parsePostfix self ;;
    ret (NUnaryOp op operand)
  else parsePostfix self.

(** [let left = next(); while (test) { op = advance()!.value;
     right = next(); left = binary_op(op, left, right) } return left] *)
Definition binaryLevel (self : Table) (test : P bool) (next : P IRNode)
  : P IRNode :=
  lhs <- next ;;
  loop (budget self) (fun lhs : IRNode =>
    b <- test ;;
    if b then
      op <- advanceValue ;;
      rhs <- next ;;
      ret (inl (NBinaryOp op lhs rhs))
    else ret (inr lhs)) lhs.

Definition parseMulDiv (self : Table) : P IRNode :=
  binaryLevel self
    (orP (matchV PUNCTUATION "*")
         (orP (matchV PUNCTUATION "/") (matchV PUNCTUATION "%")))
    (parseUnary self).

Definition parseAddSub (self : Table) : P IRNode :=
  binaryLevel self
    (orP (matchV PUNCTUATION "+") (matchV PUNCTUATION "-"))
    (parseMulDiv self).

Definition parseComparison (self : Table) : P IRNode :=
  binaryLevel self
    (orP (matchV OPERATOR "<") (orP (matchV OPERATOR ">")
     (orP (matchV OPERATOR "<=") (orP (matchV OPERATOR ">=")
     (orP (matchV PUNCTUATION "<") (matchV PUNCTUATION ">"))))))
    (parseAddSub self).

Definition parseEquality (self : Table) : P IRNode :=
  binaryLevel self
    (orP (matchV OPERATOR "==") (matchV OPERATOR "!="))
    (parseComparison self).

Definition parseAnd (self : Table) : P IRNode :=
  binaryLevel self (matchV OPERATOR "&&") (parseEquality self).

Definition parseOr (self : Table) : P IRNode :=
  binaryLevel self (matchV OPERATOR "||") (parseAnd self).

(** [for (const op of assignOps)
      if (match('OPERATOR', op) || (op === '=' && match('PUNCTUATION', '=')))] *)
Fixpoint findAssignOp (ops : list string) : P (option string) :=
  match ops with
  | [] => ret None
  | op :: rest =>
      b <- orP (matchV OPERATOR op)
               (if String.eqb op "=" then matchV PUNCTUATION "=" else ret false) ;;
      if b then ret (Some op) else findAssignOp rest
  end.

Definition parseAssignment (self : Table) : P IRNode :=
  lhs <- parseOr self ;;
  found <- findAssignOp ["="; "+="; "-="; "*="; "/="] ;;
  match found with
  | Some op =>
      advance ;;
      rhs <- t_parseAssignment self ;;
      ret (NBinaryOp op lhs rhs)
  | None => ret lhs
  end.

Definition parseExpression (self : Table) : P IRNode := parseAssignment self.

(** [parseVariableDecl(name?, dataType?)]: called with both arguments
    after the type and name have been read, and with none otherwise. *)
Definition parseVariableDecl (self : Table) (given : option (string * DataType))
  : P IRVariable :=
  '(name, dataType) <-
    match given with
    | Some nd => ret nd
    | None =>
        whileDo (budget self)
          (orP (matchV KEYWORD "const") (matchV KEYWORD "static"))
          (advance ;; ret tt) ;;
        typeToken <- advance ;;
        let dataType :=
          mapCType (match typeToken with
                    | Some k => if String.eqb (value k) "" then "int" else value k
                    | None => "int"
                    end) in
        star <- consumeV PUNCTUATION "*" ;;
        let dataType :=
          match star with
          | Some _ => if DataType_eqb dataType TChar then TString else dataType
          | None => dataType
          end in
        nameToken <- consumeT IDENTIFIER ;;
        ret (match nameToken with
             | Some k => if String.eqb (value k) "" then "unknown" else value k
             | None => "unknown"
             end, dataType)
    end ;;
  arr <- matchV PUNCTUATION "[" ;;
  dataType <-
    (if arr then
       advance ;;
       whileDo (budget self)
         (andP (notP (matchV PUNCTUATION "]")) more)
         (advance ;; ret tt) ;;
       consumeV PUNCTUATION "]" ;;
       ret (if DataType_eqb dataType TChar then TString else dataType)
     else ret dataType) ;;
  eq <- matchV PUNCTUATION "=" ;;
  value <-
    (if eq then advance ;; e <- parseExpression self ;; ret (Some e)
     else ret None) ;;
  consumeV PUNCTUATION ";" ;;
  ret (mkVariable name dataType value).

Definition parseScanf (self : Table) : P IRNode :=
  consumeV KEYWORD "scanf" ;;
  consumeV PUNCTUATION "(" ;;
  str <- matchT STRING ;;
  targetType <-
    (if str then
       formatStr <- advanceValue ;;
       ret (if includes formatStr "%d" || includes formatStr "%i" then TInt
            else if includes formatStr "%f" then TFloat
            else TString)
     else ret TString) ;;
  comma <- matchV PUNCTUATION "," ;;
  targetVar <-
    (if comma then
       advance ;;
       consumeV PUNCTUATION "&" ;;
       varToken <- consumeT IDENTIFIER ;;
       ret (match varToken with
            | Some k => Some (value k)
            | None => None
            end)
     else ret None) ;;
  consumeV PUNCTUATION ")" ;;
  consumeV PUNCTUATION ";" ;;
  ret (NInput None targetVar (Some targetType)).

(** ** printf *)

Record FormatPart : Type := mkPart {
  text : string;
  isFormat : bool
}.

Definition directives : list ascii :=
  [ch 100; ch 115; ch 102; ch 99; ch 105; ch 120; ch 88; ch 111; ch 117;
   ch 101; ch 69; ch 103; ch 71; ch 112].

Definition percent : ascii := ch 37.

Definition flushCurrent (current : string) : list FormatPart :=
  match current with
  | EmptyString => []
  | _ => [mkPart current false]
  end.

(** The scan of [parsePrintfFormat], on the format text from index [i]
    on, with the literal run [current] collected so far. *)
Fixpoint parsePrintfFormat_from (format current : string) : list FormatPart :=
  match format with
  | EmptyString => flushCurrent current
  | String c rest =>
      if Ascii.eqb c percent then
        match rest with
        | String nextChar rest' =>
            if memc nextChar directives then
              (flushCurrent current ++
               mkPart (String percent (str1 nextChar)) true ::
               parsePrintfFormat_from rest' EmptyString)%list
            else if Ascii.eqb nextChar percent then
              parsePrintfFormat_from rest' (current ++ str1 percent)
            else parsePrintfFormat_from rest (current ++ str1 c)
        | EmptyString => parsePrintfFormat_from rest (current ++ str1 c)
        end
      else parsePrintfFormat_from rest (current ++ str1 c)
  end.

Definition parsePrintfFormat (format : string) : list FormatPart :=
  parsePrintfFormat_from format EmptyString.

(** [currentString.replace(/\\n/g, '')]: the two characters backslash, n. *)
Definition cleanStr (currentString : string) : string :=
  replaceAll currentString "\n" "".

(** [if (currentString) { const cleanStr = ...; if (cleanStr) args.push(literal) }] *)
Definition pushLiteral (args : list IRNode) (currentString : string)
  : list IRNode :=
  match currentString with
  | EmptyString => args
  | _ =>
      match cleanStr currentString with
      | EmptyString => args
      | c => (args ++ [strLit c])%list
      end
  end.

(** The loop [for (const part of parts)] of [parsePrintf] with its three
    variables, and the push of the remaining literal after it. *)
Fixpoint convertParts (parts : list FormatPart) (formatArgs args : list IRNode)
         (argIndex : nat) (currentString : string) : list IRNode :=
  match parts with
  | [] => pushLiteral args currentString
  | part :: rest =>
      if isFormat part then
        let args := pushLiteral args currentString in
        match nth_error formatArgs argIndex with
        | Some a => convertParts rest formatArgs (args ++ [a])%list (S argIndex) EmptyString
        | None => convertParts rest formatArgs args argIndex EmptyString
        end
      else convertParts rest formatArgs args argIndex (currentString ++ text part)
  end.

Definition printfArgs (formatString : string) (formatArgs : list IRNode)
  : list IRNode :=
  convertParts (parsePrintfFormat formatString) formatArgs [] 0 EmptyString.

(** [while (this.match('PUNCTUATION', ',')) { this.advance();
             formatArgs.push(this.parseExpression()); }] *)
Definition argumentLoop (self : Table) (fuel : nat) (formatArgs : list IRNode)
  : P (list IRNode) :=
  loop fuel (fun formatArgs : list IRNode =>
    comma <- matchV PUNCTUATION "," ;;
    if comma then
      advance ;;
      e <- parseExpression self ;;
      ret (inl (formatArgs ++ [e])%list)
    else ret (inr formatArgs)) formatArgs.

Definition parsePrintf (self : Table) : P IRNode :=
  consumeV KEYWORD "printf" ;;
  consumeV PUNCTUATION "(" ;;
  str <- matchT STRING ;;
  '(args, hasNewline) <-
    (if str then
       formatStr <- advanceValue ;;
       let formatString := slice_1_m1 formatStr in
       formatArgs <- argumentLoop self (budget self) [] ;;
       ret (printfArgs formatString formatArgs, includes formatString "\n")
     else ret ([], false)) ;;
  consumeV PUNCTUATION ")" ;;
  consumeV PUNCTUATION ";" ;;
  ret (NPrint (match args with [] => [strLit ""] | _ => args end) hasNewline).

Definition parseReturn (self : Table) : P IRNode :=
  consumeV KEYWORD "return" ;;
  b <- matchV PUNCTUATION ";" ;;
  if b then advance ;; ret (NReturn None)
  else
    value <- parseExpression self ;;
    consumeV PUNCTUATION ";" ;;
    ret (NReturn (Some value)).

Definition parseWhile (self : Table) : P IRNode :=
  consumeV KEYWORD "while" ;;
  consumeV PUNCTUATION "(" ;;
  condition <- parseExpression self ;;
  consumeV PUNCTUATION ")" ;;
  body <- t_parseBlock self ;;
  ret (NWhile condition body).

(** The step of a classic loop, read off its update expression. *)
Definition rangeStepOf (update : option IRNode) : option IRNode :=
  match update with
  | Some (NUnaryOp op _) =>
      if String.eqb op "++" || String.eqb op "++_post" then Some (intLit 1)
      else if String.eqb op "--" || String.eqb op "--_post" then Some (intLit (-1))
      else None
  | Some (NBinaryOp op _ rhs) =>
      if String.eqb op "+=" then Some rhs
      else if String.eqb op "-=" then Some (NUnaryOp "-" rhs)
      else None
  | _ => None
  end.

(** The For node built at the end of [parseFor]. *)
Definition forNode (init condition update : option IRNode) (body : list IRNode)
  : IRNode :=
  NFor init condition update (rangeIterator init)
       (rangeStartOf init) (rangeEndOf condition) (rangeStepOf update) body.

Definition parseFor (self : Table) : P IRNode :=
  consumeV KEYWORD "for" ;;
  consumeV PUNCTUATION "(" ;;
  semi <- matchV PUNCTUATION ";" ;;
  init <-
    (if negb semi then
       tok <- peek ;;
       ty <- isType tok ;;
       if ty then v <- parseVariableDecl self None ;; ret (Some (NVariable v))
       else
         e <- parseExpression self ;;
         consumeV PUNCTUATION ";" ;;
         ret (Some e)
     else advance ;; ret None) ;;
  semi <- matchV PUNCTUATION ";" ;;
  condition <-
    (if negb semi then e <- parseExpression self ;; ret (Some e)
     else ret None) ;;
  consumeV PUNCTUATION ";" ;;
  close <- matchV PUNCTUATION ")" ;;
  update <-
    (if negb close then e <- parseExpression self ;; ret (Some e)
     else ret None) ;;
  consumeV PUNCTUATION ")" ;;
  body <- t_parseBlock self ;;
  ret (forNode init condition update body).

Definition parseIf (self : Table) : P IRIf :=
  consumeV KEYWORD "if" ;;
  consumeV PUNCTUATION "(" ;;
  condition <- parseExpression self ;;
  consumeV PUNCTUATION ")" ;;
  thenBranch <- t_parseBlock self ;;
  els <- matchV KEYWORD "else" ;;
  if els then
    advance ;;
    elif <- matchV KEYWORD "if" ;;
    if elif then
      elseIf <- t_parseIf self ;;
      ret (mkIf condition thenBranch None (Some elseIf))
    else
      elseBranch <- t_parseBlock self ;;
      ret (mkIf condition thenBranch (Some elseBranch) None)
  else ret (mkIf condition thenBranch None None).

Definition parseComment : P (option IRNode) :=
  c <- matchT COMMENT ;;
  if c then v <- advanceValue ;; ret (Some (NComment (trim v) false))
  else
    m <- matchT MULTILINE_COMMENT ;;
    if m then v <- advanceValue ;; ret (Some (NComment (trim v) true))
    else ret None.

Definition parseStatement (self : Table) : P (option IRNode) :=
  cm <- parseComment ;;
  match cm with
  | Some c => ret (Some c)
  | None =>
  b <- matchV KEYWORD "if" ;;
  if b then i <- parseIf self ;; ret (Some (NIf i)) else
  b <- matchV KEYWORD "for" ;;
  if b then n <- parseFor self ;; ret (Some n) else
  b <- matchV KEYWORD "while" ;;
  if b then n <- parseWhile self ;; ret (Some n) else
  b <- matchV KEYWORD "return" ;;
  if b then n <- parseReturn self ;; ret (Some n) else
  b <- matchV KEYWORD "printf" ;;
  if b then n <- parsePrintf self ;; ret (Some n) else
  b <- matchV KEYWORD "scanf" ;;
  if b then n <- parseScanf self ;; ret (Some n) else
  tok <- peek ;;
  ty <- isType tok ;;
  if ty then v <- parseVariableDecl self None ;; ret (Some (NVariable v))
  else
    expr <- parseExpression self ;;
    consumeV PUNCTUATION ";" ;;
    ret (Some expr)
  end.

Definition push (statements : list IRNode) (stmt : option IRNode)
  : list IRNode :=
  match stmt with
  | Some n => (statements ++ [n])%list
  | None => statements
  end.

Definition parseBlock (self : Table) : P (list IRNode) :=
  open <- consumeV PUNCTUATION "{" ;;
  match open with
  | None =>
      stmt <- t_parseStatement self ;;
      ret (push [] stmt)
  | Some _ =>
      statements <-
        loop (budget self) (fun statements : list IRNode =>
          go <- andP (notP (matchV PUNCTUATION "}")) more ;;
          if go then
            stmt <- t_parseStatement self ;;
            ret (inl (push statements stmt))
          else ret (inr statements)) [] ;;
      consumeV PUNCTUATION "}" ;;
      ret statements
  end.

Definition parseParams (self : Table) : P (list IRVariable) :=
  loop (budget self) (fun params : list IRVariable =>
    stop <- matchV PUNCTUATION ")" ;;
    if stop then ret (inr params)
    else
      typeToken <- advance ;;
      match typeToken with
      | None => ret (inr params)
      | Some tk =>
          let dataType := mapCType (value tk) in
          star <- consumeV PUNCTUATION "*" ;;
          let dataType :=
            match star with
            | Some _ => if DataType_eqb dataType TChar then TString else dataType
            | None => dataType
            end in
          nameToken <- consumeT IDENTIFIER ;;
          params <-
            match nameToken with
            | Some nk =>
                arr <- matchV PUNCTUATION "[" ;;
                dataType <-
                  (if arr then
                     whileDo (budget self)
                       (andP (notP (matchV PUNCTUATION "]")) more)
                       (advance ;; ret tt) ;;
                     consumeV PUNCTUATION "]" ;;
                     ret (if DataType_eqb dataType TChar then TString else dataType)
                   else ret dataType) ;;
                ret (params ++ [mkVariable (value nk) dataType None])%list
            | None => ret params
            end ;;
          comma <- consumeV PUNCTUATION "," ;;
          match comma with
          | Some _ => ret (inl params)
          | None => ret (inr params)
          end
      end) [].

Definition parseFunctionDef (self : Table) (name : string) (returnType : DataType)
  : P IRFunction :=
  consumeV PUNCTUATION "(" ;;
  params <- parseParams self ;;
  consumeV PUNCTUATION ")" ;;
  body <- parseBlock self ;;
  ret (mkFunction name params returnType body).

Definition parseFunctionOrVariable (self : Table) : P (option IRNode) :=
  whileDo (budget self)
    (orP (matchV KEYWORD "const") (matchV KEYWORD "static"))
    (advance ;; ret tt) ;;
  typeToken <- advance ;;
  match typeToken with
  | None => ret None
  | Some tk =>
      let dataType := mapCType (value tk) in
      star <- matchV PUNCTUATION "*" ;;
      when star (advance ;; ret tt) ;;
      nameToken <- consumeT IDENTIFIER ;;
      match nameToken with
      | None => ret None
      | Some nk =>
          call <- matchV PUNCTUATION "(" ;;
          if call then
            f <- parseFunctionDef self (value nk) dataType ;;
            ret (Some (NFunction f))
          else
            v <- parseVariableDecl self (Some (value nk, dataType)) ;;
            ret (Some (NVariable v))
      end
  end.

Definition parseTopLevel (self : Table) : P (option IRNode) :=
  cm <- parseComment ;;
  match cm with
  | Some c => ret (Some c)
  | None =>
      typeToken <- peek ;;
      match typeToken with
      | None => ret None
      | Some _ =>
          ty <- isType typeToken ;;
          if ty then parseFunctionOrVariable self
          else advance ;; ret None
      end
  end.

(** The methods at recursion depth [fuel]: a call that re-enters one of
    them goes one level down, and at depth 0 nothing is left. *)
Fixpoint table (fuel : nat) : Table :=
  match fuel with
  | O => mkTable 0 outOfFuel outOfFuel outOfFuel outOfFuel outOfFuel outOfFuel
  | S n =>
      let self := table n in
      mkTable n (parseExpression self) (parseAssignment self)
              (parseUnary self) (parseStatement self) (parseBlock self)
              (parseIf self)
  end.

Definition parseProgram (self : Table) : P IRProgram :=
  loop (budget self) (fun acc : list IRNode * list string =>
    let '(body, imports) := acc in
    go <- more ;;
    if go then
      pre <- matchT PREPROCESSOR ;;
      if pre then
        directive <- advanceValue ;;
        ret (inl (body, if includes directive "include"
                        then (imports ++ [directive])%list else imports))
      else
        node <- parseTopLevel self ;;
        ret (inl (push body node, imports))
    else ret (inr (mkProgram body imports))) ([], []).

(** [parse(code)]: no [try] around the body, so what a method throws
    leaves [parse]. *)
Definition parse (fuel : nat) (code : string) : Outcome IRProgram :=
  match parseProgram (table fuel) (mkPState (tokenize code) 0) with
  | Returned (p, _) => Returned p
  | Threw e => Threw e
  | OutOfFuel => OutOfFuel
  end.

End CParser.

(* ================================================================== *)
(** * The decomposition of a format text, as the specification words it *)
(* ================================================================== *)

(** These definitions follow the specification of [printf] (literal
    runs interleaved with the values), not the code; the theorem
    [PrintfFacts.printfArgs_interleave] compares them with
    [CParser.printfArgs]. *)
Module PrintfSpec.
Import CParser.

(** The literal runs of a format text, cut at its directives, a doubled
    percent sign read as one. *)
Fixpoint literalSegments_from (format current : string) : list string :=
  match format with
  | EmptyString => [current]
  | String c rest =>
      if Ascii.eqb c percent then
        match rest with
        | String nextChar rest' =>
            if memc nextChar directives then
              current :: literalSegments_from rest' EmptyString
            else if Ascii.eqb nextChar percent then
              literalSegments_from rest' (current ++ str1 percent)
            else literalSegments_from rest (current ++ str1 c)
        | EmptyString => literalSegments_from rest (current ++ str1 c)
        end
      else literalSegments_from rest (current ++ str1 c)
  end.

Definition literalSegments (format : string) : list string :=
  literalSegments_from format EmptyString.

(** A literal run as it is kept: with its backslash-n pairs taken out,
    and dropped when nothing is left. *)
Definition keptLiteral (segment : string) : list IRNode :=
  match cleanStr segment with
  | EmptyString => []
  | t => [strLit t]
  end.

(** value, run, value, run, ... for as long as runs are left; a
    directive with no value left contributes nothing. *)
Fixpoint alternate (segments : list string) (values : list IRNode)
  : list IRNode :=
  match segments with
  | [] => []
  | seg :: rest =>
      match values with
      | v :: vs => (v :: keptLiteral seg ++ alternate rest vs)%list
      | [] => (keptLiteral seg ++ alternate rest [])%list
      end
  end.

(** run, value, run, value, ..., run *)
Definition interleave (segments : list string) (values : list IRNode)
  : list IRNode :=
  match segments with
  | [] => []
  | first :: rest => (keptLiteral first ++ alternate rest values)%list
  end.

(** The value arguments of a call, read in order from the position
    after the format literal: as long as a comma comes next, the comma
    and then one expression. *)
Inductive valueArguments (self : Table)
  : Core.PState -> list IRNode -> Core.PState -> Prop :=
| valuesEnd s :
    Core.matchV PUNCTUATION "," s = Returned (false, s) ->
    valueArguments self s [] s
| valuesNext s e s1 values s2 :
    Core.matchV PUNCTUATION "," s = Returned (true, s) ->
    parseExpression self (Core.mkPState (Core.tokens s) (S (Core.pos s)))
    = Returned (e, s1) ->
    valueArguments self s1 values s2 ->
    valueArguments self s (e :: values) s2.

End PrintfSpec.

(* ================================================================== *)
(** * The CPP front-end (parsers/cpp-parser.ts) *)
(* ================================================================== *)

Module CppParser.
Import Core.

Definition config : Lexer.Config :=
  Lexer.mkConfig true true [ch 102; ch 70; ch 108; ch 76]
    ["int"; "float"; "double"; "char"; "void"; "bool"; "auto";
     "if"; "else"; "for"; "while"; "switch"; "case"; "default"; "break";
     "return"; "class"; "struct"; "public"; "private"; "protected";
     "const"; "static"; "virtual"; "new"; "delete"; "this"; "nullptr";
     "true"; "false"; "using"; "namespace"; "std"; "cout"; "cin"; "endl";
     "string"]
    ["<<"; ">>"; "=="; "!="; "<="; ">="; "&&"; "||"; "++"; "--"; "->";
     "::"; "->"; "+="; "-="; "*="; "/="].

Definition tokenize (code : string) : list Token := Lexer.tokenize config code.

Record Table : Type := mkTable {
  budget : nat;
  t_parseExpression : P IRNode;
  t_parseAssignment : P IRNode;
  t_parseUnary : P IRNode;
  t_parseStatement : P (option IRNode);
  t_parseBlock : P (list IRNode);
  t_parseIf : P IRIf
}.

(** [typeMap[type] || 'auto'] *)
Definition mapCppType (type : string) : DataType :=
  if String.eqb type "int" then TInt
  else if String.eqb type "float" then TFloat
  else if String.eqb type "double" then TDouble
  else if String.eqb type "char" then TChar
  else if String.eqb type "void" then TVoid
  else if String.eqb type "bool" then TBool
  else if String.eqb type "auto" then TAuto
  else if String.eqb type "string" then TString
  else inheritedOr TAuto type.

Definition typeKeywords : list string :=
  ["int"; "float"; "double"; "char"; "void"; "bool"; "auto"; "const";
   "static"; "string"; "unsigned"; "signed"; "long"; "short"].

(** [isType(token: Token | null)] *)
Definition isType (token : option Token) : bool :=
  match token with
  | None => false
  | Some k =>
      (TokenType_eqb (ttype k) KEYWORD && mem (value k) typeKeywords)
      || (TokenType_eqb (ttype k) IDENTIFIER && String.eqb (value k) "string")
      || (TokenType_eqb (ttype k) IDENTIFIER && String.eqb (value k) "std")
  end.

(** [token.value.replace(/[fFlL]/g, '')] *)
Fixpoint stripSuffixLetters (letters : list ascii) (s : string) : string :=
  match s with
  | EmptyString => EmptyString
  | String c r =>
      if memc c letters then stripSuffixLetters letters r
      else String c (stripSuffixLetters letters r)
  end.

Definition parsePrimary (self : Table) : P IRNode :=
  b <- matchV PUNCTUATION "(" ;;
  if b then
    advance ;;
    expr <- t_parseExpression self ;;
    consumeV PUNCTUATION ")" ;;
    ret expr
  else
  b <- matchT STRING ;;
  if b then
    v <- advanceValue ;;
    ret (NLiteral (VStr (slice_1_m1 v)) TString false)
  else
  b <- matchT CHAR ;;
  if b then
    v <- advanceValue ;;
    ret (NLiteral (VStr (slice_1_m1 v)) TChar false)
  else
  b <- matchT NUMBER ;;
  if b then
    v <- advanceValue ;;
    let value := stripSuffixLetters [ch 102; ch 70; ch 108; ch 76] v in
    ret (if includes value "." then NLiteral (VNum (parseFloat value)) TFloat false
         else NLiteral (VNum (parseInt value)) TInt false)
  else
  b <- matchV KEYWORD "true" ;;
  if b then advance ;; ret (NLiteral (VBool true) TBool false) else
  b <- matchV KEYWORD "false" ;;
  if b then advance ;; ret (NLiteral (VBool false) TBool false) else
  b <- matchV KEYWORD "nullptr" ;;
  if b then advance ;; ret (NLiteral (VStr "null") TVoid false) else
  b <- orP (matchT IDENTIFIER) (matchT KEYWORD) ;;
  if b then
    name <- advanceValue ;;
    call <- matchV PUNCTUATION "(" ;;
    if call then
      advance ;;
      args <- parseArgs (budget self) (t_parseExpression self) ;;
      consumeV PUNCTUATION ")" ;;
      ret (NCall name args false None)
    else ret (NIdentifier name)
  else
    advance ;;
    ret (strLit "").

Definition parsePostfix (self : Table) : P IRNode :=
  expr <- parsePrimary self ;;
  loop (budget self) (fun expr : IRNode =>
    b <- orP (matchV OPERATOR "++") (matchV OPERATOR "--") ;;
    if b then
      op <- advanceValue ;;
      ret (inl (NUnaryOp (op ++ "_post") expr))
    else ret (inr expr)) expr.

Definition parseUnary (self : Table) : P IRNode :=
  b <- orP (matchV PUNCTUATION "!") (orP (matchV PUNCTUATION "-")
       (orP (matchV OPERATOR "++") (matchV OPERATOR "--"))) ;;
  if b then
    op <- advanceValue ;;
    operand <- t_parseUnary self ;;
    ret (NUnaryOp op operand)
  else parsePostfix self.

(** [let left = next(); while (test) { op = advance()!.value;
     left = binary_op(op, left, next()) } return left] *)
Definition binaryLevel (self : Table) (test : P bool) (next : P IRNode)
  : P IRNode :=
  lhs <- next ;;
  loop (budget self) (fun lhs : IRNode =>
    b <- test ;;
    if b then
      op <- advanceValue ;;
      rhs <- next ;;
      ret (inl (NBinaryOp op lhs rhs))
    else ret (inr lhs)) lhs.

Definition parseMulDiv (self : Table) : P IRNode :=
  binaryLevel self
    (orP (matchV PUNCTUATION "*")
         (orP (matchV PUNCTUATION "/") (matchV PUNCTUATION "%")))
    (parseUnary self).

Definition parseAddSub (self : Table) : P IRNode :=
  binaryLevel self
    (orP (matchV PUNCTUATION "+") (matchV PUNCTUATION "-"))
    (parseMulDiv self).

Definition parseComparison (self : Table) : P IRNode :=
  binaryLevel self
    (orP (matchV OPERATOR "==") (orP (matchV OPERATOR "!=")
     (orP (matchV PUNCTUATION "<") (orP (matchV PUNCTUATION ">")
     (orP (matchV OPERATOR "<=") (matchV OPERATOR ">="))))))
    (parseAddSub self).

Definition parseLogicalAnd (self : Table) : P IRNode :=
  binaryLevel self (matchV OPERATOR "&&") (parseComparison self).

Definition parseLogicalOr (self : Table) : P IRNode :=
  binaryLevel self (matchV OPERATOR "||") (parseLogicalAnd self).

Definition isAssignOp : P bool :=
  orP (matchV PUNCTUATION "=") (orP (matchV OPERATOR "+=")
  (orP (matchV OPERATOR "-=") (orP (matchV OPERATOR "*=")
  (matchV OPERATOR "/=")))).

Definition parseAssignment (self : Table) : P IRNode :=
  lhs <- parseLogicalOr self ;;
  b <- isAssignOp ;;
  if b then
    op <- advanceValue ;;
    rhs <- t_parseAssignment self ;;
    ret (NBinaryOp op lhs rhs)
  else ret lhs.

Definition parseExpression (self : Table) : P IRNode := parseAssignment self.

(** The type that opens a declaration: one token, or [std :: T]. *)
Definition parseTypeAfter (typeToken : Token) : P DataType :=
  std <- (if String.eqb (value typeToken) "std" then matchV OPERATOR "::"
          else ret false) ;;
  if std then
    advance ;;
    subType <- advance ;;
    ret (mapCppType (match subType with Some k => value k | None => "" end))
  else ret (mapCppType (value typeToken)).

Definition optionalInit (self : Table) : P (option IRNode) :=
  eq <- matchV PUNCTUATION "=" ;;
  if eq then advance ;; e <- parseExpression self ;; ret (Some e)
  else ret None.

Definition parseLocalVariable (self : Table) : P IRVariable :=
  whileDo (budget self)
    (orP (matchV KEYWORD "const") (matchV KEYWORD "static"))
    (advance ;; ret tt) ;;
  typeToken <- advance ;;
  match typeToken with
  | None => ret (mkVariable "unknown" TInt None)
  | Some tk =>
      dataType <- parseTypeAfter tk ;;
      consumeV PUNCTUATION "*" ;;
      consumeV PUNCTUATION "&" ;;
      nameToken <- consumeT IDENTIFIER ;;
      match nameToken with
      | None => ret (mkVariable "unknown" dataType None)
      | Some nk =>
          v <- optionalInit self ;;
          consumeV PUNCTUATION ";" ;;
          ret (mkVariable (value nk) dataType v)
      end
  end.

Definition parseVariableDecl (self : Table) (name : string) (dataType : DataType)
  : P IRVariable :=
  v <- optionalInit self ;;
  consumeV PUNCTUATION ";" ;;
  ret (mkVariable name dataType v).

Definition parseMember (self : Table) (name : string) (dataType : DataType)
  : P IRVariable :=
  v <- optionalInit self ;;
  consumeV PUNCTUATION ";" ;;
  ret (mkVariable name dataType v).

Definition parseParams (self : Table) : P (list IRVariable) :=
  loop (budget self) (fun params : list IRVariable =>
    stop <- matchV PUNCTUATION ")" ;;
    if stop then ret (inr params)
    else
      typeToken <- advance ;;
      match typeToken with
      | None => ret (inr params)
      | Some tk =>
          dataType <- parseTypeAfter tk ;;
          consumeV PUNCTUATION "*" ;;
          consumeV PUNCTUATION "&" ;;
          nameToken <- consumeT IDENTIFIER ;;
          let params :=
            match nameToken with
            | Some nk => (params ++ [mkVariable (value nk) dataType None])%list
            | None => params
            end in
          comma <- consumeV PUNCTUATION "," ;;
          match comma with
          | Some _ => ret (inl params)
          | None => ret (inr params)
          end
      end) [].

Definition parseReturn (self : Table) : P IRNode :=
  consumeV KEYWORD "return" ;;
  b <- matchV PUNCTUATION ";" ;;
  if b then advance ;; ret (NReturn None)
  else
    e <- parseExpression self ;;
    consumeV PUNCTUATION ";" ;;
    ret (NReturn (Some e)).

Definition parseWhile (self : Table) : P IRNode :=
  consumeV KEYWORD "while" ;;
  consumeV PUNCTUATION "(" ;;
  condition <- parseExpression self ;;
  consumeV PUNCTUATION ")" ;;
  body <- t_parseBlock self ;;
  ret (NWhile condition body).

Definition rangeStepOf (update : option IRNode) : option IRNode :=
  match update with
  | Some (NUnaryOp op _) =>
      if String.eqb op "++" || String.eqb op "++_post" then Some (intLit 1)
      else None
  | Some (NBinaryOp op _ rhs) =>
      if String.eqb op "+=" then Some rhs else None
  | _ => None
  end.

Definition forNode (init condition update : option IRNode) (body : list IRNode)
  : IRNode :=
  NFor init condition update (rangeIterator init)
       (rangeStartOf init) (rangeEndOf condition) (rangeStepOf update) body.

Definition parseFor (self : Table) : P IRNode :=
  consumeV KEYWORD "for" ;;
  consumeV PUNCTUATION "(" ;;
  semi <- matchV PUNCTUATION ";" ;;
  init <-
    (if negb semi then
       tok <- peek ;;
       if isType tok then
         v <- parseLocalVariable self ;; ret (Some (NVariable v))
       else
         e <- parseExpression self ;;
         consumeV PUNCTUATION ";" ;;
         ret (Some e)
     else advance ;; ret None) ;;
  semi <- matchV PUNCTUATION ";" ;;
  condition <-
    (if negb semi then e <- parseExpression self ;; ret (Some e)
     else ret None) ;;
  consumeV PUNCTUATION ";" ;;
  close <- matchV PUNCTUATION ")" ;;
  update <-
    (if negb close then e <- parseExpression self ;; ret (Some e)
     else ret None) ;;
  consumeV PUNCTUATION ")" ;;
  body <- t_parseBlock self ;;
  ret (forNode init condition update body).

Definition parseIf (self : Table) : P IRIf :=
  consumeV KEYWORD "if" ;;
  consumeV PUNCTUATION "(" ;;
  condition <- parseExpression self ;;
  consumeV PUNCTUATION ")" ;;
  thenBranch <- t_parseBlock self ;;
  els <- matchV KEYWORD "else" ;;
  if els then
    advance ;;
    elif <- matchV KEYWORD "if" ;;
    if elif then
      elseIf <- t_parseIf self ;;
      ret (mkIf condition thenBranch None (Some elseIf))
    else
      elseBranch <- t_parseBlock self ;;
      ret (mkIf condition thenBranch (Some elseBranch) None)
  else ret (mkIf condition thenBranch None None).

(** [if (match('KEYWORD', 'std')) { advance(); consume('OPERATOR', '::') }] *)
Definition skipStd : P unit :=
  std <- matchV KEYWORD "std" ;;
  when std (advance ;; consumeV OPERATOR "::" ;; ret tt).

Definition parseCout (self : Table) : P IRNode :=
  skipStd ;;
  consumeV KEYWORD "cout" ;;
  '(args, newline) <-
    loop (budget self) (fun st : list IRNode * bool =>
      let '(args, newline) := st in
      shift <- matchV OPERATOR "<<" ;;
      if shift then
        advance ;;
        manip <- orP (matchV KEYWORD "endl") (matchV KEYWORD "std") ;;
        isEndl <-
          (if manip then skipStd ;; matchV KEYWORD "endl" else ret false) ;;
        if isEndl then advance ;; ret (inl (args, true))
        else
          e <- parseExpression self ;;
          ret (inl ((args ++ [e])%list, newline))
      else ret (inr (args, newline))) ([], false) ;;
  consumeV PUNCTUATION ";" ;;
  ret (NPrint args newline).

Definition parseCin : P IRNode :=
  skipStd ;;
  consumeV KEYWORD "cin" ;;
  consumeV OPERATOR ">>" ;;
  ident <- matchT IDENTIFIER ;;
  targetVar <- (if ident then v <- advanceValue ;; ret (Some v) else ret None) ;;
  consumeV PUNCTUATION ";" ;;
  ret (NInput None targetVar None).

Definition push (statements : list IRNode) (stmt : option IRNode)
  : list IRNode :=
  match stmt with
  | Some n => (statements ++ [n])%list
  | None => statements
  end.

(** The statements of one [case] or [default] arm: up to the next arm,
    the closing brace, or a [break], which is consumed and not kept. *)
Definition parseArm (self : Table) (stopAtDefault : bool) : P (list IRNode) :=
  loop (budget self) (fun body : list IRNode =>
    go <- andP (notP (matchV KEYWORD "case"))
            (andP (if stopAtDefault then notP (matchV KEYWORD "default")
                   else ret true)
            (andP (notP (matchV PUNCTUATION "}")) more)) ;;
    if go then
      brk <- matchV KEYWORD "break" ;;
      if brk then
        advance ;; consumeV PUNCTUATION ";" ;; ret (inr body)
      else
        stmt <- t_parseStatement self ;;
        ret (inl (push body stmt))
    else ret (inr body)) [].

Definition parseSwitch (self : Table) : P IRNode :=
  consumeV KEYWORD "switch" ;;
  consumeV PUNCTUATION "(" ;;
  expression <- parseExpression self ;;
  consumeV PUNCTUATION ")" ;;
  consumeV PUNCTUATION "{" ;;
  '(cases, defaultBody) <-
    loop (budget self)
      (fun st : list (IRNode * list IRNode) * option (list IRNode) =>
        let '(cases, defaultBody) := st in
        go <- andP (notP (matchV PUNCTUATION "}")) more ;;
        if go then
          isCase <- matchV KEYWORD "case" ;;
          if isCase then
            advance ;;
            v <- parseExpression self ;;
            consumeV PUNCTUATION ":" ;;
            body <- parseArm self true ;;
            ret (inl ((cases ++ [(v, body)])%list, defaultBody))
          else
            isDefault <- matchV KEYWORD "default" ;;
            if isDefault then
              advance ;;
              consumeV PUNCTUATION ":" ;;
              body <- parseArm self false ;;
              ret (inl (cases, Some body))
            else advance ;; ret (inl (cases, defaultBody))
        else ret (inr (cases, defaultBody))) ([], None) ;;
  consumeV PUNCTUATION "}" ;;
  ret (NSwitch expression cases defaultBody).

Definition parseComment : P (option IRNode) :=
  c <- matchT COMMENT ;;
  if c then v <- advanceValue ;; ret (Some (NComment (trim v) false))
  else
    m <- matchT MULTILINE_COMMENT ;;
    if m then v <- advanceValue ;; ret (Some (NComment (trim v) true))
    else ret None.

(** [next?.value === '::'] and the name two tokens ahead. *)
Definition valueAt (offset : nat) : P (option string) :=
  tok <- peekAt offset ;;
  ret (match tok with Some k => Some (value k) | None => None end).

Definition isSome_eq (o : option string) (s : string) : bool :=
  match o with Some x => String.eqb x s | None => false end.

Definition parseStatement (self : Table) : P (option IRNode) :=
  cm <- parseComment ;;
  match cm with
  | Some c => ret (Some c)
  | None =>
  b <- matchV KEYWORD "if" ;;
  if b then i <- parseIf self ;; ret (Some (NIf i)) else
  b <- matchV KEYWORD "for" ;;
  if b then n <- parseFor self ;; ret (Some n) else
  b <- matchV KEYWORD "while" ;;
  if b then n <- parseWhile self ;; ret (Some n) else
  b <- matchV KEYWORD "switch" ;;
  if b then n <- parseSwitch self ;; ret (Some n) else
  b <- matchV KEYWORD "break" ;;
  if b then advance ;; consumeV PUNCTUATION ";" ;; ret (Some NBreak) else
  b <- matchV KEYWORD "return" ;;
  if b then n <- parseReturn self ;; ret (Some n) else
  std <- matchV KEYWORD "std" ;;
  next <- valueAt 1 ;;
  third <- valueAt 2 ;;
  if std && isSome_eq next "::" && isSome_eq third "cout"
  then n <- parseCout self ;; ret (Some n) else
  if std && isSome_eq next "::" && isSome_eq third "cin"
  then n <- parseCin ;; ret (Some n) else
  b <- matchV KEYWORD "cout" ;;
  if b then n <- parseCout self ;; ret (Some n) else
  b <- matchV KEYWORD "cin" ;;
  if b then n <- parseCin ;; ret (Some n) else
  tok <- peek ;;
  if isType tok then v <- parseLocalVariable self ;; ret (Some (NVariable v))
  else
    expr <- parseExpression self ;;
    consumeV PUNCTUATION ";" ;;
    ret (Some expr)
  end.

Definition parseBlock (self : Table) : P (list IRNode) :=
  open <- consumeV PUNCTUATION "{" ;;
  match open with
  | None =>
      stmt <- t_parseStatement self ;;
      ret (push [] stmt)
  | Some _ =>
      statements <-
        loop (budget self) (fun statements : list IRNode =>
          go <- andP (notP (matchV PUNCTUATION "}")) more ;;
          if go then
            stmt <- t_parseStatement self ;;
            ret (inl (push statements stmt))
          else ret (inr statements)) [] ;;
      consumeV PUNCTUATION "}" ;;
      ret statements
  end.

Definition parseFunctionDef (self : Table) (name : string) (returnType : DataType)
  : P IRFunction :=
  consumeV PUNCTUATION "(" ;;
  params <- parseParams self ;;
  consumeV PUNCTUATION ")" ;;
  body <- parseBlock self ;;
  ret (mkFunction name params returnType body).

Definition parseFunctionOrVariable (self : Table) : P (option IRNode) :=
  whileDo (budget self)
    (orP (matchV KEYWORD "const") (matchV KEYWORD "static"))
    (advance ;; ret tt) ;;
  typeToken <- advance ;;
  match typeToken with
  | None => ret None
  | Some tk =>
      dataType <- parseTypeAfter tk ;;
      consumeV PUNCTUATION "*" ;;
      consumeV PUNCTUATION "&" ;;
      nameToken <- consumeT IDENTIFIER ;;
      match nameToken with
      | None => ret None
      | Some nk =>
          call <- matchV PUNCTUATION "(" ;;
          if call then
            f <- parseFunctionDef self (value nk) dataType ;;
            ret (Some (NFunction f))
          else
            v <- parseVariableDecl self (value nk) dataType ;;
            ret (Some (NVariable v))
      end
  end.

Definition parseMethod (self : Table) (name : string) (returnType : DataType)
  : P IRFunction :=
  consumeV PUNCTUATION "(" ;;
  params <- parseParams self ;;
  consumeV PUNCTUATION ")" ;;
  consumeV KEYWORD "const" ;;
  body <- parseBlock self ;;
  ret (mkFunction name params returnType body).

(** A class-body entry: a method ([inl]), a member ([inr]) or nothing. *)
Definition parseMemberOrMethod (self : Table)
  : P (option (IRFunction + IRVariable)) :=
  whileDo (budget self)
    (orP (matchV KEYWORD "const")
         (orP (matchV KEYWORD "static") (matchV KEYWORD "virtual")))
    (advance ;; ret tt) ;;
  typeToken <- advance ;;
  match typeToken with
  | None => ret None
  | Some tk =>
      dataType <- parseTypeAfter tk ;;
      consumeV PUNCTUATION "*" ;;
      consumeV PUNCTUATION "&" ;;
      nameToken <- consumeT IDENTIFIER ;;
      match nameToken with
      | None => ret None
      | Some nk =>
          call <- matchV PUNCTUATION "(" ;;
          if call then
            f <- parseMethod self (value nk) dataType ;;
            ret (Some (inl f))
          else
            v <- parseMember self (value nk) dataType ;;
            ret (Some (inr v))
      end
  end.

Definition parseConstructor (self : Table) : P IRFunction :=
  consumeT IDENTIFIER ;;
  consumeV PUNCTUATION "(" ;;
  params <- parseParams self ;;
  consumeV PUNCTUATION ")" ;;
  colon <- matchV PUNCTUATION ":" ;;
  when colon
    (whileDo (budget self)
       (andP (notP (matchV PUNCTUATION "{")) more)
       (advance ;; ret tt)) ;;
  body <- parseBlock self ;;
  ret (mkFunction "__init__" params TVoid body).

(** The variables of the loop over a class body. *)
Record ClassAcc : Type := mkAcc {
  members : list IRVariable;
  methods : list IRFunction;
  constructor : option IRFunction
}.

Definition parseClass (self : Table) : P IRClass :=
  consumeV KEYWORD "class" ;;
  nameToken <- consumeT IDENTIFIER ;;
  let name :=
    match nameToken with
    | Some k => if String.eqb (value k) "" then "Unknown" else value k
    | None => "Unknown"
    end in
  consumeV PUNCTUATION "{" ;;
  acc <-
    loop (budget self) (fun acc : ClassAcc =>
      go <- andP (notP (matchV PUNCTUATION "}")) more ;;
      if go then
        access <- orP (matchV KEYWORD "public")
                      (orP (matchV KEYWORD "private") (matchV KEYWORD "protected")) ;;
        if access then
          advance ;; consumeV PUNCTUATION ":" ;; ret (inl acc)
        else
        ctor <- matchV IDENTIFIER name ;;
        if ctor then
          c <- parseConstructor self ;;
          ret (inl (mkAcc (members acc) (methods acc) (Some c)))
        else
        tok <- peek ;;
        if isType tok then
          mm <- parseMemberOrMethod self ;;
          ret (inl (match mm with
                    | Some (inl f) =>
                        mkAcc (members acc) (methods acc ++ [f])%list (constructor acc)
                    | Some (inr v) =>
                        mkAcc (members acc ++ [v])%list (methods acc) (constructor acc)
                    | None => acc
                    end))
        else advance ;; ret (inl acc)
      else ret (inr acc)) (mkAcc [] [] None) ;;
  consumeV PUNCTUATION "}" ;;
  consumeV PUNCTUATION ";" ;;
  ret (mkClass name (members acc) (methods acc) (constructor acc) None None).

Definition parseTopLevel (self : Table) : P (option IRNode) :=
  cm <- parseComment ;;
  match cm with
  | Some c => ret (Some c)
  | None =>
      cls <- matchV KEYWORD "class" ;;
      if cls then c <- parseClass self ;; ret (Some (NClass c))
      else
        tok <- peek ;;
        if isType tok then parseFunctionOrVariable self
        else advance ;; ret None
  end.

Fixpoint table (fuel : nat) : Table :=
  match fuel with
  | O => mkTable 0 outOfFuel outOfFuel outOfFuel outOfFuel outOfFuel outOfFuel
  | S n =>
      let self := table n in
      mkTable n (parseExpression self) (parseAssignment self)
              (parseUnary self) (parseStatement self) (parseBlock self)
              (parseIf self)
  end.

Definition parseProgram (self : Table) : P IRProgram :=
  loop (budget self) (fun acc : list IRNode * list string =>
    let '(body, imports) := acc in
    go <- more ;;
    if go then
      pre <- matchT PREPROCESSOR ;;
      if pre then
        directive <- advanceValue ;;
        ret (inl (body, (imports ++ [directive])%list))
      else
        isUsing <- matchV KEYWORD "using" ;;
        if isUsing then
          whileDo (budget self)
            (andP (notP (matchV PUNCTUATION ";")) more)
            (advance ;; ret tt) ;;
          consumeV PUNCTUATION ";" ;;
          ret (inl (body, imports))
        else
          node <- parseTopLevel self ;;
          ret (inl (push body node, imports))
    else ret (inr (mkProgram body imports))) ([], []).

(** [parse(code)]: the whole body sits in a [try]; the [catch] logs the
    error and returns a Program with an empty body and no imports. *)
Definition parse (fuel : nat) (code : string) : Outcome IRProgram :=
  match parseProgram (table fuel) (mkPState (tokenize code) 0) with
  | Returned (p, _) => Returned p
  | Threw _ => Returned (mkProgram [] [])
  | OutOfFuel => OutOfFuel
  end.

End CppParser.

(* ================================================================== *)
(** * The JV front-end (parsers/java-parser.ts) *)
(* ================================================================== *)

Module JavaParser.
Import Core.

Definition suffixLetters : list ascii :=
  [ch 102; ch 70; ch 100; ch 68; ch 108; ch 76].

Definition config : Lexer.Config :=
  Lexer.mkConfig false true suffixLetters
    ["public"; "private"; "protected"; "static"; "final"; "abstract";
     "class"; "interface"; "extends"; "implements"; "new"; "this"; "super";
     "if"; "else"; "for"; "while"; "do"; "switch"; "case"; "default"; "break";
     "continue"; "return"; "void"; "int"; "float"; "double"; "boolean";
     "char"; "String"; "true"; "false"; "null"; "package"; "import";
     "try"; "catch"; "finally"; "throw"; "throws"]
    ["=="; "!="; "<="; ">="; "&&"; "||"; "<<"; ">>"; "++"; "--"; "->";
     "+="; "-="; "*="; "/="].

Definition tokenize (code : string) : list Token := Lexer.tokenize config code.

Record Table : Type := mkTable {
  budget : nat;
  t_parseExpression : P IRNode;
  t_parseAssignment : P IRNode;
  t_parseUnary : P IRNode;
  t_parseStatement : P (option IRNode);
  t_parseBlock : P (list IRNode);
  t_parseIf : P IRIf
}.

(** [typeMap[type] || 'auto'] *)
Definition mapJavaType (type : string) : DataType :=
  if String.eqb type "int" then TInt
  else if String.eqb type "float" then TFloat
  else if String.eqb type "double" then TDouble
  else if String.eqb type "boolean" then TBool
  else if String.eqb type "char" then TChar
  else if String.eqb type "void" then TVoid
  else if String.eqb type "String" then TString
  else inheritedOr TAuto type.

(** [isType(token: Token | null)]: a type keyword, or any identifier. *)
Definition isType (token : option Token) : bool :=
  match token with
  | None => false
  | Some k =>
      (TokenType_eqb (ttype k) KEYWORD &&
       mem (value k) ["int"; "float"; "double"; "boolean"; "char"; "void"; "String"])
      || TokenType_eqb (ttype k) IDENTIFIER
  end.

(** [s.toLowerCase().includes('f')] *)
Definition includesLetterF (s : string) : bool :=
  includes s "f" || includes s "F".

Definition parsePrimary (self : Table) : P IRNode :=
  b <- matchV PUNCTUATION "(" ;;
  if b then
    advance ;;
    expr <- t_parseExpression self ;;
    consumeV PUNCTUATION ")" ;;
    ret expr
  else
  b <- matchV KEYWORD "new" ;;
  if b then
    advance ;;
    cls <- consumeT IDENTIFIER ;;
    let className :=
      match cls with
      | Some k => if String.eqb (value k) "" then "Object" else value k
      | None => "Object"
      end in
    consumeV PUNCTUATION "(" ;;
    args <- parseArgs (budget self) (t_parseExpression self) ;;
    consumeV PUNCTUATION ")" ;;
    ret (NCall className args false None)
  else
  b <- orP (matchV IDENTIFIER "scanner")
           (orP (matchV IDENTIFIER "sc") (matchV IDENTIFIER "input")) ;;
  if b then
    advanceValue ;;
    consumeV PUNCTUATION "." ;;
    m <- advance ;;
    let method :=
      match m with
      | Some k => if String.eqb (value k) "" then "nextLine" else value k
      | None => "nextLine"
      end in
    consumeV PUNCTUATION "(" ;;
    consumeV PUNCTUATION ")" ;;
    ret (NInput None None
           (Some (if String.eqb method "nextInt" then TInt
                  else if String.eqb method "nextFloat"
                          || String.eqb method "nextDouble" then TFloat
                  else TString)))
  else
  b <- matchT STRING ;;
  if b then
    v <- advanceValue ;;
    ret (NLiteral (VStr (slice_1_m1 v)) TString false)
  else
  b <- matchT CHAR ;;
  if b then
    v <- advanceValue ;;
    ret (NLiteral (VStr (slice_1_m1 v)) TChar false)
  else
  b <- matchT NUMBER ;;
  if b then
    v <- advanceValue ;;
    let value := CppParser.stripSuffixLetters suffixLetters v in
    let isFloat := includes value "." || includesLetterF v in
    ret (if isFloat then NLiteral (VNum (parseFloat value)) TFloat false
         else NLiteral (VNum (parseInt value)) TInt false)
  else
  b <- matchV KEYWORD "true" ;;
  if b then advance ;; ret (NLiteral (VBool true) TBool false) else
  b <- matchV KEYWORD "false" ;;
  if b then advance ;; ret (NLiteral (VBool false) TBool false) else
  b <- matchV KEYWORD "null" ;;
  if b then advance ;; ret (NLiteral (VStr "null") TVoid false) else
  b <- matchV KEYWORD "this" ;;
  if b then advance ;; ret (NIdentifier "this") else
  b <- orP (matchT IDENTIFIER) (matchT KEYWORD) ;;
  if b then
    name <- advanceValue ;;
    call <- matchV PUNCTUATION "(" ;;
    if call then
      advance ;;
      args <- parseArgs (budget self) (t_parseExpression self) ;;
      consumeV PUNCTUATION ")" ;;
      ret (NCall name args false None)
    else ret (NIdentifier name)
  else
    advance ;;
    ret (strLit "").

Definition parsePostfix (self : Table) : P IRNode :=
  expr <- parsePrimary self ;;
  loop (budget self) (fun expr : IRNode =>
    b <- orP (matchV OPERATOR "++") (matchV OPERATOR "--") ;;
    if b then
      op <- advanceValue ;;
      ret (inl (NUnaryOp (op ++ "_post") expr))
    else
      dot <- matchV PUNCTUATION "." ;;
      if dot then
        advance ;;
        member <- consumeT IDENTIFIER ;;
        call <- matchV PUNCTUATION "(" ;;
        if call then
          advance ;;
          args <- parseArgs (budget self) (t_parseExpression self) ;;
          consumeV PUNCTUATION ")" ;;
          let objName :=
            match expr with NIdentifier n => n | _ => "obj" end in
          ret (inl (NCall (match member with Some k => value k | None => "" end)
                          args true (Some objName)))
        else ret (inl expr)
      else ret (inr expr)) expr.

Definition parseUnary (self : Table) : P IRNode :=
  b <- orP (matchV PUNCTUATION "!") (orP (matchV PUNCTUATION "-")
       (orP (matchV OPERATOR "++") (matchV OPERATOR "--"))) ;;
  if b then
    op <- advanceValue ;;
    operand <- t_parseUnary self ;;
    ret (NUnaryOp op operand)
  else parsePostfix self.

Definition binaryLevel (self : Table) (test : P bool) (next : P IRNode)
  : P IRNode :=
  lhs <- next ;;
  loop (budget self) (fun lhs : IRNode =>
    b <- test ;;
    if b then
      op <- advanceValue ;;
      rhs <- next ;;
      ret (inl (NBinaryOp op lhs rhs))
    else ret (inr lhs)) lhs.

Definition parseMulDiv (self : Table) : P IRNode :=
  binaryLevel self
    (orP (matchV PUNCTUATION "*")
         (orP (matchV PUNCTUATION "/") (matchV PUNCTUATION "%")))
    (parseUnary self).

Definition parseAddSub (self : Table) : P IRNode :=
  binaryLevel self
    (orP (matchV PUNCTUATION "+") (matchV PUNCTUATION "-"))
    (parseMulDiv self).

Definition parseComparison (self : Table) : P IRNode :=
  binaryLevel self
    (orP (matchV OPERATOR "==") (orP (matchV OPERATOR "!=")
     (orP (matchV PUNCTUATION "<") (orP (matchV PUNCTUATION ">")
     (orP (matchV OPERATOR "<=") (matchV OPERATOR ">="))))))
    (parseAddSub self).

Definition parseLogicalAnd (self : Table) : P IRNode :=
  binaryLevel self (matchV OPERATOR "&&") (parseComparison self).

Definition parseLogicalOr (self : Table) : P IRNode :=
  binaryLevel self (matchV OPERATOR "||") (parseLogicalAnd self).

Definition parseAssignment (self : Table) : P IRNode :=
  lhs <- parseLogicalOr self ;;
  b <- CppParser.isAssignOp ;;
  if b then
    op <- advanceValue ;;
    rhs <- t_parseAssignment self ;;
    ret (NBinaryOp op lhs rhs)
  else ret lhs.

Definition parseExpression (self : Table) : P IRNode := parseAssignment self.

Definition optionalInit (self : Table) : P (option IRNode) :=
  eq <- matchV PUNCTUATION "=" ;;
  if eq then advance ;; e <- parseExpression self ;; ret (Some e)
  else ret None.

Definition parseLocalVariable (self : Table) : P IRVariable :=
  typeToken <- advance ;;
  match typeToken with
  | None => ret (mkVariable "unknown" TInt None)
  | Some tk =>
      let dataType := mapJavaType (value tk) in
      nameToken <- consumeT IDENTIFIER ;;
      match nameToken with
      | None => ret (mkVariable "unknown" dataType None)
      | Some nk =>
          v <- optionalInit self ;;
          consumeV PUNCTUATION ";" ;;
          ret (mkVariable (value nk) dataType v)
      end
  end.

Definition parseReturn (self : Table) : P IRNode :=
  consumeV KEYWORD "return" ;;
  b <- matchV PUNCTUATION ";" ;;
  if b then advance ;; ret (NReturn None)
  else
    e <- parseExpression self ;;
    consumeV PUNCTUATION ";" ;;
    ret (NReturn (Some e)).

Definition parseWhile (self : Table) : P IRNode :=
  consumeV KEYWORD "while" ;;
  consumeV PUNCTUATION "(" ;;
  condition <- parseExpression self ;;
  consumeV PUNCTUATION ")" ;;
  body <- t_parseBlock self ;;
  ret (NWhile condition body).

Definition forNode (init condition update : option IRNode) (body : list IRNode)
  : IRNode :=
  NFor init condition update (rangeIterator init)
       (rangeStartOf init) (rangeEndOf condition)
       (CppParser.rangeStepOf update) body.

Definition parseFor (self : Table) : P IRNode :=
  consumeV KEYWORD "for" ;;
  consumeV PUNCTUATION "(" ;;
  semi <- matchV PUNCTUATION ";" ;;
  init <-
    (if negb semi then
       tok <- peek ;;
       if isType tok then
         v <- parseLocalVariable self ;; ret (Some (NVariable v))
       else
         e <- parseExpression self ;;
         consumeV PUNCTUATION ";" ;;
         ret (Some e)
     else advance ;; ret None) ;;
  semi <- matchV PUNCTUATION ";" ;;
  condition <-
    (if negb semi then e <- parseExpression self ;; ret (Some e)
     else ret None) ;;
  consumeV PUNCTUATION ";" ;;
  close <- matchV PUNCTUATION ")" ;;
  update <-
    (if negb close then e <- parseExpression self ;; ret (Some e)
     else ret None) ;;
  consumeV PUNCTUATION ")" ;;
  body <- t_parseBlock self ;;
  ret (forNode init condition update body).

Definition parseIf (self : Table) : P IRIf :=
  consumeV KEYWORD "if" ;;
  consumeV PUNCTUATION "(" ;;
  condition <- parseExpression self ;;
  consumeV PUNCTUATION ")" ;;
  thenBranch <- t_parseBlock self ;;
  els <- matchV KEYWORD "else" ;;
  if els then
    advance ;;
    elif <- matchV KEYWORD "if" ;;
    if elif then
      elseIf <- t_parseIf self ;;
      ret (mkIf condition thenBranch None (Some elseIf))
    else
      elseBranch <- t_parseBlock self ;;
      ret (mkIf condition thenBranch (Some elseBranch) None)
  else ret (mkIf condition thenBranch None None).

Definition parsePrintln (self : Table) : P IRNode :=
  consumeV IDENTIFIER "System" ;;
  consumeV PUNCTUATION "." ;;
  consumeV IDENTIFIER "out" ;;
  consumeV PUNCTUATION "." ;;
  methodToken <- advance ;;
  let newline :=
    match methodToken with
    | Some k => String.eqb (value k) "println"
    | None => false
    end in
  consumeV PUNCTUATION "(" ;;
  args <- parseArgs (budget self) (parseExpression self) ;;
  consumeV PUNCTUATION ")" ;;
  consumeV PUNCTUATION ";" ;;
  ret (NPrint args newline).

Definition parseStatement (self : Table) : P (option IRNode) :=
  cm <- CppParser.parseComment ;;
  match cm with
  | Some c => ret (Some c)
  | None =>
  b <- matchV KEYWORD "if" ;;
  if b then i <- parseIf self ;; ret (Some (NIf i)) else
  b <- matchV KEYWORD "for" ;;
  if b then n <- parseFor self ;; ret (Some n) else
  b <- matchV KEYWORD "while" ;;
  if b then n <- parseWhile self ;; ret (Some n) else
  b <- matchV KEYWORD "return" ;;
  if b then n <- parseReturn self ;; ret (Some n) else
  b <- matchV IDENTIFIER "System" ;;
  if b then n <- parsePrintln self ;; ret (Some n) else
  tok <- peek ;;
  if isType tok then v <- parseLocalVariable self ;; ret (Some (NVariable v))
  else
    expr <- parseExpression self ;;
    consumeV PUNCTUATION ";" ;;
    ret (Some expr)
  end.

Definition push (statements : list IRNode) (stmt : option IRNode)
  : list IRNode :=
  match stmt with
  | Some n => (statements ++ [n])%list
  | None => statements
  end.

Definition parseBlock (self : Table) : P (list IRNode) :=
  open <- consumeV PUNCTUATION "{" ;;
  match open with
  | None =>
      stmt <- t_parseStatement self ;;
      ret (push [] stmt)
  | Some _ =>
      statements <-
        loop (budget self) (fun statements : list IRNode =>
          go <- andP (notP (matchV PUNCTUATION "}")) more ;;
          if go then
            stmt <- t_parseStatement self ;;
            ret (inl (push statements stmt))
          else ret (inr statements)) [] ;;
      consumeV PUNCTUATION "}" ;;
      ret statements
  end.

Definition parseParams (self : Table) : P (list IRVariable) :=
  loop (budget self) (fun params : list IRVariable =>
    stop <- matchV PUNCTUATION ")" ;;
    if stop then ret (inr params)
    else
      typeToken <- advance ;;
      match typeToken with
      | None => ret (inr params)
      | Some tk =>
          arr <- matchV PUNCTUATION "[" ;;
          when arr (advance ;; consumeV PUNCTUATION "]" ;; ret tt) ;;
          nameToken <- consumeT IDENTIFIER ;;
          let params :=
            match nameToken with
            | Some nk =>
                (params ++ [mkVariable (value nk) (mapJavaType (value tk)) None])%list
            | None => params
            end in
          comma <- consumeV PUNCTUATION "," ;;
          match comma with
          | Some _ => ret (inl params)
          | None => ret (inr params)
          end
      end) [].

Definition parseMethod (self : Table) (name : string) (returnType : DataType)
  : P IRFunction :=
  consumeV PUNCTUATION "(" ;;
  params <- parseParams self ;;
  consumeV PUNCTUATION ")" ;;
  body <- parseBlock self ;;
  ret (mkFunction name params returnType body).

Definition parseField (self : Table) (name : string) (dataType : DataType)
  : P IRVariable :=
  v <- optionalInit self ;;
  consumeV PUNCTUATION ";" ;;
  ret (mkVariable name dataType v).

(** A method ([inl]), a field ([inr]) or nothing. *)
Definition parseMethodOrField (self : Table)
  : P (option (IRFunction + IRVariable)) :=
  typeToken <- advance ;;
  match typeToken with
  | None => ret None
  | Some tk =>
      let dataType := mapJavaType (value tk) in
      nameToken <- consumeT IDENTIFIER ;;
      match nameToken with
      | None => ret None
      | Some nk =>
          call <- matchV PUNCTUATION "(" ;;
          if call then
            f <- parseMethod self (value nk) dataType ;;
            ret (Some (inl f))
          else
            v <- parseField self (value nk) dataType ;;
            ret (Some (inr v))
      end
  end.

Definition parseConstructor (self : Table) : P IRFunction :=
  consumeT IDENTIFIER ;;
  consumeV PUNCTUATION "(" ;;
  params <- parseParams self ;;
  consumeV PUNCTUATION ")" ;;
  body <- parseBlock self ;;
  ret (mkFunction "__init__" params TVoid body).

(** The four variables of the loop over a class body. *)
Record ClassAcc : Type := mkAcc {
  members : list IRVariable;
  methods : list IRFunction;
  constructor : option IRFunction;
  mainMethod : option IRFunction
}.

(** What the loop does with a parsed method or field, given whether
    [static] was among the modifiers before it. *)
Definition addEntry (isStatic : bool)
           (entry : option (IRFunction + IRVariable)) (acc : ClassAcc)
  : ClassAcc :=
  match entry with
  | Some (inl func) =>
      if String.eqb (fn_name func) "main" && isStatic
      then mkAcc (members acc) (methods acc) (constructor acc) (Some func)
      else mkAcc (members acc) (methods acc ++ [func])%list
                 (constructor acc) (mainMethod acc)
  | Some (inr v) =>
      mkAcc (members acc ++ [v])%list (methods acc) (constructor acc)
            (mainMethod acc)
  | None => acc
  end.

(** The class node: an object literal with the four schema fields, to
    which [mainMethod] is added when there is one.  No [staticMethods]
    property is ever set. *)
Definition classNode (name : string) (acc : ClassAcc) : IRClass :=
  mkClass name (members acc) (methods acc) (constructor acc)
          (mainMethod acc) None.

Definition isModifier : P bool :=
  orP (matchV KEYWORD "public") (orP (matchV KEYWORD "private")
  (orP (matchV KEYWORD "protected") (orP (matchV KEYWORD "static")
  (matchV KEYWORD "final")))).

(** [while (modifier) { if (peek()?.value === 'static') isStatic = true;
                        advance(); }] *)
Definition skipModifiers (self : Table) : P bool :=
  loop (budget self) (fun isStatic : bool =>
    m <- isModifier ;;
    if m then
      v <- CppParser.valueAt 0 ;;
      advance ;;
      ret (inl (isStatic || CppParser.isSome_eq v "static"))
    else ret (inr isStatic)) false.

Definition classEntry (self : Table) (name : string) (acc : ClassAcc)
  : P ClassAcc :=
  isStatic <- skipModifiers self ;;
  ctor <- matchV IDENTIFIER name ;;
  if ctor then
    c <- parseConstructor self ;;
    ret (mkAcc (members acc) (methods acc) (Some c) (mainMethod acc))
  else
    tok <- peek ;;
    if isType tok then
      memberOrMethod <- parseMethodOrField self ;;
      ret (addEntry isStatic memberOrMethod acc)
    else advance ;; ret acc.

Definition parseClass (self : Table) : P IRClass :=
  consumeV KEYWORD "class" ;;
  nameToken <- consumeT IDENTIFIER ;;
  let name :=
    match nameToken with
    | Some k => if String.eqb (value k) "" then "Unknown" else value k
    | None => "Unknown"
    end in
  whileDo (budget self)
    (orP (matchV KEYWORD "extends") (matchV KEYWORD "implements"))
    (advance ;; consumeT IDENTIFIER ;; ret tt) ;;
  consumeV PUNCTUATION "{" ;;
  acc <-
    loop (budget self) (fun acc : ClassAcc =>
      go <- andP (notP (matchV PUNCTUATION "}")) more ;;
      if go then acc' <- classEntry self name acc ;; ret (inl acc')
      else ret (inr acc)) (mkAcc [] [] None None) ;;
  consumeV PUNCTUATION "}" ;;
  ret (classNode name acc).

Definition parseImport (self : Table) : P string :=
  keyword <- advance ;;
  let statement : string :=
    (match keyword with Some k => value k | None => "undefined" end ++ " ")%string in
  statement <-
    loop (budget self) (fun statement : string =>
      go <- andP (notP (matchV PUNCTUATION ";")) more ;;
      if go then
        tok <- advance ;;
        ret (inl (statement ++ match tok with Some k => value k | None => "" end)%string)
      else ret (inr statement)) statement ;;
  consumeV PUNCTUATION ";" ;;
  ret statement.

Definition parseTopLevel (self : Table) : P (option IRNode) :=
  cm <- CppParser.parseComment ;;
  match cm with
  | Some c => ret (Some c)
  | None =>
      whileDo (budget self)
        (orP isModifier (matchV KEYWORD "abstract"))
        (advance ;; ret tt) ;;
      cls <- matchV KEYWORD "class" ;;
      if cls then c <- parseClass self ;; ret (Some (NClass c))
      else
        tok <- peek ;;
        if isType tok then
          mf <- parseMethodOrField self ;;
          ret (match mf with
               | Some (inl f) => Some (NFunction f)
               | Some (inr v) => Some (NVariable v)
               | None => None
               end)
        else advance ;; ret None
  end.

Fixpoint table (fuel : nat) : Table :=
  match fuel with
  | O => mkTable 0 outOfFuel outOfFuel outOfFuel outOfFuel outOfFuel outOfFuel
  | S n =>
      let self := table n in
      mkTable n (parseExpression self) (parseAssignment self)
              (parseUnary self) (parseStatement self) (parseBlock self)
              (parseIf self)
  end.

Definition parseProgram (self : Table) : P IRProgram :=
  loop (budget self) (fun acc : list IRNode * list string =>
    let '(body, imports) := acc in
    go <- more ;;
    if go then
      imp <- orP (matchV KEYWORD "package") (matchV KEYWORD "import") ;;
      if imp then
        importStmt <- parseImport self ;;
        ret (inl (body, match importStmt with
                        | EmptyString => imports
                        | _ => (imports ++ [importStmt])%list
                        end))
      else
        node <- parseTopLevel self ;;
        ret (inl (push body node, imports))
    else ret (inr (mkProgram body imports))) ([], []).

(** [parse(code)]: the whole body sits in a [try]; the [catch] logs the
    error and returns a Program with an empty body and no imports. *)
Definition parse (fuel : nat) (code : string) : Outcome IRProgram :=
  match parseProgram (table fuel) (mkPState (tokenize code) 0) with
  | Returned (p, _) => Returned p
  | Threw _ => Returned (mkProgram [] [])
  | OutOfFuel => OutOfFuel
  end.

End JavaParser.

(* ================================================================== *)
(** * The PY front-end (parsers/python-parser.ts) *)
(* ================================================================== *)

Module PythonParser.

Record PState : Type := mkPState {
  tokens : list PyToken;
  pos : nat
}.

Definition P (A : Type) : Type := M PState A.

Definition maxIterations : nat := 10000.

Definition peek : P (option PyToken) :=
  fun s => Returned (nth_error (tokens s) (pos s), s).

(** [if (this.pos >= this.tokens.length) return null;
     return this.tokens[this.pos++] || null;] *)
Definition advance : P (option PyToken) :=
  fun s =>
    if Nat.leb (List.length (tokens s)) (pos s) then Returned (None, s)
    else Returned (nth_error (tokens s) (pos s), mkPState (tokens s) (S (pos s))).

Definition match_ (t : TokenType) (v : option string) : P bool :=
  tok <- peek ;;
  ret (match tok with
       | None => false
       | Some k =>
           TokenType_eqb (py_type k) t &&
           match v with
           | None => true
           | Some x => String.eqb (py_value k) x
           end
       end).

Definition matchT (t : TokenType) : P bool := match_ t None.
Definition matchV (t : TokenType) (v : string) : P bool := match_ t (Some v).

Definition consume (t : TokenType) (v : option string) : P (option PyToken) :=
  b <- match_ t v ;;
  if b then advance else ret None.

Definition consumeT (t : TokenType) : P (option PyToken) := consume t None.
Definition consumeV (t : TokenType) (v : string) : P (option PyToken) :=
  consume t (Some v).

(** [this.pos < this.tokens.length] *)
Definition more : P bool :=
  fun s => Returned (Nat.ltb (pos s) (List.length (tokens s)), s).

(** [this.advance()!.value] *)
Definition advanceValue : P string :=
  tok <- advance ;;
  match tok with
  | Some k => ret (py_value k)
  | None => throw (Core.nullRead "value")
  end.

Definition orP (a b : P bool) : P bool :=
  x <- a ;; if x then ret true else b.
Definition andP (a b : P bool) : P bool :=
  x <- a ;; if x then b else ret false.
Definition notP (a : P bool) : P bool :=
  x <- a ;; ret (negb x).

Record Table : Type := mkTable {
  budget : nat;
  t_parseExpression : P IRNode;
  t_parseNot : P IRNode;
  t_parseUnary : P IRNode;
  t_parseStatement : nat -> P (option IRNode);
  t_parseBlock : nat -> P (list IRNode);
  t_parseElif : nat -> P IRIf
}.

(** [while (this.match('NEWLINE') && count < 100) { advance(); count++ }] *)
Definition skipNewlines (self : Table) : P unit :=
  loop (budget self) (fun count : nat =>
    b <- matchT NEWLINE ;;
    if b && Nat.ltb count 100 then advance ;; ret (inl (S count))
    else ret (inr tt)) 0.

(** [typeMap[type] || 'auto'] *)
Definition mapPythonType (type : string) : DataType :=
  if String.eqb type "int" then TInt
  else if String.eqb type "float" then TFloat
  else if String.eqb type "str" then TString
  else if String.eqb type "bool" then TBool
  else if String.eqb type "None" then TVoid
  else inheritedOr TAuto type.

Definition isComparison (op : string) : bool :=
  mem op ["=="; "!="; "<"; ">"; "<="; ">="].

Fixpoint inferType (node : IRNode) : DataType :=
  match node with
  | NLiteral _ dataType _ => dataType
  | NBinaryOp operator lhs rhs =>
      let leftType := inferType lhs in
      let rightType := inferType rhs in
      if isComparison operator then TBool
      else if DataType_eqb leftType TFloat || DataType_eqb rightType TFloat then TFloat
      else if DataType_eqb leftType TDouble || DataType_eqb rightType TDouble then TDouble
      else if DataType_eqb leftType TString || DataType_eqb rightType TString then TString
      else TInt
  | NCall callee _ _ _ =>
      if String.eqb callee "int" then TInt
      else if String.eqb callee "float" then TFloat
      else if String.eqb callee "str" then TString
      else if String.eqb callee "input" then TString
      else TAuto
  | _ => TAuto
  end.

(** [while (!this.match(')') && args.length < limit) {
       args.push(parseExpression()); if (!consume(',')) break; }] *)
Definition parseArgs (self : Table) (limit : nat) : P (list IRNode) :=
  loop (budget self) (fun args : list IRNode =>
    stop <- matchV PUNCTUATION ")" ;;
    if negb stop && Nat.ltb (List.length args) limit then
      e <- t_parseExpression self ;;
      comma <- consumeV PUNCTUATION "," ;;
      match comma with
      | Some _ => ret (inl (args ++ [e])%list)
      | None => ret (inr (args ++ [e])%list)
      end
    else ret (inr args)) [].

Definition parsePrint (self : Table) : P IRNode :=
  consumeV KEYWORD "print" ;;
  consumeV PUNCTUATION "(" ;;
  args <-
    loop (budget self) (fun args : list IRNode =>
      stop <- matchV PUNCTUATION ")" ;;
      if negb stop && Nat.ltb (List.length args) 20 then
        kw <- orP (matchV IDENTIFIER "end") (matchV IDENTIFIER "sep") ;;
        if kw then
          advance ;;
          consumeV OPERATOR "=" ;;
          t_parseExpression self ;;
          comma <- consumeV PUNCTUATION "," ;;
          match comma with
          | Some _ => ret (inl args)
          | None => ret (inr args)
          end
        else
          e <- t_parseExpression self ;;
          comma <- consumeV PUNCTUATION "," ;;
          match comma with
          | Some _ => ret (inl (args ++ [e])%list)
          | None => ret (inr (args ++ [e])%list)
          end
      else ret (inr args)) [] ;;
  consumeV PUNCTUATION ")" ;;
  ret (NPrint args true).

(** [input(prompt?)], as a statement and inside an expression. *)
Definition parseInput : P IRNode :=
  consumeV KEYWORD "input" ;;
  consumeV PUNCTUATION "(" ;;
  str <- matchT STRING ;;
  prompt <- (if str then v <- advanceValue ;; ret (Some (slice_1_m1 v))
             else ret None) ;;
  consumeV PUNCTUATION ")" ;;
  ret (NInput prompt None None).

(** [parts[parts.length - 1]] and [parts.slice(0, -1).join('.')] *)
Definition lastPart (parts : list string) : string := List.last parts "".
Definition initParts (parts : list string) : string :=
  join "." (List.removelast parts).

Definition parsePrimary (self : Table) : P IRNode :=
  b <- matchV PUNCTUATION "(" ;;
  if b then
    advance ;;
    expr <- t_parseExpression self ;;
    consumeV PUNCTUATION ")" ;;
    ret expr
  else
  b <- matchT NUMBER ;;
  if b then
    v <- advanceValue ;;
    ret (if includes v "." then NLiteral (VNum (parseFloat v)) TFloat false
         else NLiteral (VNum (parseInt v)) TInt false)
  else
  b <- matchT STRING ;;
  if b then
    v <- advanceValue ;;
    let isFString :=
      startsWith v (String (ch 102) (str1 dquote))
      || startsWith v (String (ch 102) (str1 squote)) in
    ret (NLiteral (VStr (if isFString then slice_2_m1 v else slice_1_m1 v))
                  TString isFString)
  else
  b <- matchV KEYWORD "True" ;;
  if b then advance ;; ret (NLiteral (VBool true) TBool false) else
  b <- matchV KEYWORD "False" ;;
  if b then advance ;; ret (NLiteral (VBool false) TBool false) else
  b <- matchV KEYWORD "None" ;;
  if b then advance ;; ret (NLiteral (VStr "null") TVoid false) else
  b <- orP (matchV KEYWORD "int")
           (orP (matchV KEYWORD "float") (matchV KEYWORD "str")) ;;
  if b then
    typeFunc <- advanceValue ;;
    consumeV PUNCTUATION "(" ;;
    args <- parseArgs self 10 ;;
    consumeV PUNCTUATION ")" ;;
    ret (NCall typeFunc args false None)
  else
  b <- matchV KEYWORD "input" ;;
  if b then parseInput else
  b <- matchV KEYWORD "print" ;;
  if b then parsePrint self else
  b <- orP (matchV KEYWORD "range") (matchV IDENTIFIER "range") ;;
  if b then
    advance ;;
    consumeV PUNCTUATION "(" ;;
    args <- parseArgs self 10 ;;
    consumeV PUNCTUATION ")" ;;
    ret (NCall "range" args false None)
  else
  b <- orP (matchT IDENTIFIER) (matchV KEYWORD "self") ;;
  if b then
    name <- advanceValue ;;
    name <-
      loop (budget self) (fun name : string =>
        dot <- matchV PUNCTUATION "." ;;
        if dot then
          advance ;;
          attr <- consumeT IDENTIFIER ;;
          ret (inl (match attr with
                    | Some k => (name ++ "." ++ py_value k)%string
                    | None => name
                    end))
        else ret (inr name)) name ;;
    call <- matchV PUNCTUATION "(" ;;
    if call then
      advance ;;
      args <- parseArgs self 20 ;;
      consumeV PUNCTUATION ")" ;;
      let parts := split (ch 46) name in
      ret (if Nat.ltb 1 (List.length parts)
           then NCall (lastPart parts) args true (Some (initParts parts))
           else NCall name args false None)
    else ret (NIdentifier name)
  else
    go <- more ;;
    when go (advance ;; ret tt) ;;
    ret (NLiteral (VStr "") TVoid false).

Definition parseUnary (self : Table) : P IRNode :=
  b <- orP (matchV OPERATOR "-") (matchV OPERATOR "+") ;;
  if b then
    op <- advanceValue ;;
    operand <- t_parseUnary self ;;
    ret (NUnaryOp op operand)
  else parsePrimary self.

Definition binaryLevel (self : Table) (test : P bool) (next : P IRNode)
  : P IRNode :=
  lhs <- next ;;
  loop (budget self) (fun lhs : IRNode =>
    b <- test ;;
    if b then
      op <- advanceValue ;;
      rhs <- next ;;
      ret (inl (NBinaryOp op lhs rhs))
    else ret (inr lhs)) lhs.

Definition parseMulDiv (self : Table) : P IRNode :=
  binaryLevel self
    (orP (matchV OPERATOR "*")
         (orP (matchV OPERATOR "/") (matchV OPERATOR "%")))
    (parseUnary self).

Definition parseAddSub (self : Table) : P IRNode :=
  binaryLevel self
    (orP (matchV OPERATOR "+") (matchV OPERATOR "-"))
    (parseMulDiv self).

(** [for (const op of ops) if (this.match('OPERATOR', op)) ...] *)
Fixpoint findOp (ops : list string) : P (option string) :=
  match ops with
  | [] => ret None
  | op :: rest =>
      b <- matchV OPERATOR op ;;
      if b then ret (Some op) else findOp rest
  end.

Definition parseComparison (self : Table) : P IRNode :=
  lhs <- parseAddSub self ;;
  loop (budget self) (fun st : IRNode * nat =>
    let '(lhs, iterations) := st in
    if Nat.ltb iterations 20 then
      found <- findOp ["=="; "!="; "<"; ">"; "<="; ">="] ;;
      match found with
      | Some op =>
          advance ;;
          rhs <- parseAddSub self ;;
          ret (inl (NBinaryOp op lhs rhs, S iterations))
      | None => ret (inr lhs)
      end
    else ret (inr lhs)) (lhs, 0).

Definition parseNot (self : Table) : P IRNode :=
  b <- matchV KEYWORD "not" ;;
  if b then
    advance ;;
    operand <- t_parseNot self ;;
    ret (NUnaryOp "!" operand)
  else parseComparison self.

(** [while (this.match('KEYWORD', word)) { advance();
     left = binary_op(symbol, left, next()) }] *)
Definition wordLevel (self : Table) (word symbol : string) (next : P IRNode)
  : P IRNode :=
  lhs <- next ;;
  loop (budget self) (fun lhs : IRNode =>
    b <- matchV KEYWORD word ;;
    if b then
      advance ;;
      rhs <- next ;;
      ret (inl (NBinaryOp symbol lhs rhs))
    else ret (inr lhs)) lhs.

Definition parseAnd (self : Table) : P IRNode :=
  wordLevel self "and" "&&" (parseNot self).

Definition parseOr (self : Table) : P IRNode :=
  wordLevel self "or" "||" (parseAnd self).

Definition parseExpression (self : Table) : P IRNode := parseOr self.

(** [op[0]] *)
Definition firstChar (op : string) : string :=
  match op with String c _ => str1 c | EmptyString => EmptyString end.

(** [for (const op of compoundOps)]: a matched operator whose left side
    is not an identifier is consumed with its operand and the search
    goes on with the next operator. *)
Fixpoint compoundAssignment (self : Table) (ops : list string) (lhs : IRNode)
  : P IRNode :=
  match ops with
  | [] => ret lhs
  | op :: rest =>
      b <- matchV OPERATOR op ;;
      if b then
        advance ;;
        rhs <- parseExpression self ;;
        match lhs with
        | NIdentifier name =>
            ret (NAssignment name (NBinaryOp (firstChar op) lhs rhs))
        | _ => compoundAssignment self rest lhs
        end
      else compoundAssignment self rest lhs
  end.

Definition compoundOps : list string := ["+="; "-="; "*="; "/="].

Definition parseAssignmentOrExpression (self : Table) : P (option IRNode) :=
  lhs <- parseExpression self ;;
  eq <- matchV OPERATOR "=" ;;
  if eq then
    advance ;;
    v <- parseExpression self ;;
    match lhs with
    | NIdentifier target =>
        if negb (includes target ".")
        then ret (Some (NVariable (mkVariable target (inferType v) (Some v))))
        else ret (Some (NAssignment target v))
    | _ => n <- compoundAssignment self compoundOps lhs ;; ret (Some n)
    end
  else n <- compoundAssignment self compoundOps lhs ;; ret (Some n).

Definition parseReturn (self : Table) : P IRNode :=
  consumeV KEYWORD "return" ;;
  nl <- matchT NEWLINE ;;
  go <- more ;;
  if nl || negb go then ret (NReturn None)
  else
    v <- parseExpression self ;;
    ret (NReturn (Some v)).

Definition indentOf (tok : option PyToken) : nat :=
  match tok with Some k => py_indent k | None => 0 end.

(** The tail shared by [parseIf] and [parseElif]: the [elif] or [else]
    that follows at the indent of the [if]. *)
Definition parseElseChain (self : Table) (ifIndent : nat)
  : P (option (list IRNode) * option IRIf) :=
  skipNewlines self ;;
  nextToken <- peek ;;
  match nextToken with
  | Some k =>
      if Nat.eqb (py_indent k) ifIndent then
        elif <- matchV KEYWORD "elif" ;;
        if elif then
          e <- t_parseElif self ifIndent ;;
          ret (None, Some e)
        else
          els <- matchV KEYWORD "else" ;;
          if els then
            advance ;;
            consumeV PUNCTUATION ":" ;;
            skipNewlines self ;;
            elseBranch <- t_parseBlock self ifIndent ;;
            ret (Some elseBranch, None)
          else ret (None, None)
      else ret (None, None)
  | None => ret (None, None)
  end.

Definition parseIf (self : Table) (minIndent : nat) : P IRIf :=
  ifToken <- consumeV KEYWORD "if" ;;
  match ifToken with
  | None => throw (Core.nullRead "indent")
  | Some tk =>
      let ifIndent := py_indent tk in
      condition <- parseExpression self ;;
      consumeV PUNCTUATION ":" ;;
      skipNewlines self ;;
      thenBranch <- t_parseBlock self ifIndent ;;
      '(elseBranch, elseIf) <- parseElseChain self ifIndent ;;
      ret (mkIf condition thenBranch elseBranch elseIf)
  end.

Definition parseElif (self : Table) (parentIndent : nat) : P IRIf :=
  consumeV KEYWORD "elif" ;;
  condition <- parseExpression self ;;
  consumeV PUNCTUATION ":" ;;
  skipNewlines self ;;
  thenBranch <- t_parseBlock self parentIndent ;;
  '(elseBranch, elseIf) <- parseElseChain self parentIndent ;;
  ret (mkIf condition thenBranch elseBranch elseIf).

Definition parseFor (self : Table) (minIndent : nat) : P IRNode :=
  forToken <- consumeV KEYWORD "for" ;;
  match forToken with
  | None => throw (Core.nullRead "indent")
  | Some tk =>
      let forIndent := py_indent tk in
      iterToken <- consumeT IDENTIFIER ;;
      let iterator :=
        match iterToken with
        | Some k => if String.eqb (py_value k) "" then "i" else py_value k
        | None => "i"
        end in
      consumeV KEYWORD "in" ;;
      rng <- orP (matchV KEYWORD "range") (matchV IDENTIFIER "range") ;;
      if rng then
        advance ;;
        consumeV PUNCTUATION "(" ;;
        args <- parseArgs self 10 ;;
        consumeV PUNCTUATION ")" ;;
        consumeV PUNCTUATION ":" ;;
        skipNewlines self ;;
        body <- t_parseBlock self forIndent ;;
        ret (match args with
             | [e] =>
                 NFor None None None (Some iterator)
                      (Some (intLit 0)) (Some e) (Some (intLit 1)) body
             | [s; e] =>
                 NFor None None None (Some iterator)
                      (Some s) (Some e) (Some (intLit 1)) body
             | _ =>
                 NFor None None None (Some iterator)
                      (nth_error args 0) (nth_error args 1) (nth_error args 2) body
             end)
      else
        iterable <- parseExpression self ;;
        consumeV PUNCTUATION ":" ;;
        skipNewlines self ;;
        body <- t_parseBlock self forIndent ;;
        ret (NFor None (Some iterable) None (Some iterator) None None None body)
  end.

Definition parseWhile (self : Table) (minIndent : nat) : P IRNode :=
  whileToken <- consumeV KEYWORD "while" ;;
  match whileToken with
  | None => throw (Core.nullRead "indent")
  | Some tk =>
      condition <- parseExpression self ;;
      consumeV PUNCTUATION ":" ;;
      skipNewlines self ;;
      body <- t_parseBlock self (py_indent tk) ;;
      ret (NWhile condition body)
  end.

Definition parseParams (self : Table) : P (list IRVariable) :=
  loop (budget self) (fun params : list IRVariable =>
    stop <- matchV PUNCTUATION ")" ;;
    if stop then ret (inr params)
    else
      isSelf <- matchV KEYWORD "self" ;;
      if isSelf then
        advance ;;
        consumeV PUNCTUATION "," ;;
        ret (inl params)
      else
        nameToken <- consumeT IDENTIFIER ;;
        params <-
          match nameToken with
          | Some nk =>
              colon <- matchV PUNCTUATION ":" ;;
              dataType <-
                (if colon then
                   advance ;;
                   kw <- consumeT KEYWORD ;;
                   typeToken <-
                     match kw with
                     | Some k => ret (Some k)
                     | None => consumeT IDENTIFIER
                     end ;;
                   ret (match typeToken with
                        | Some k => mapPythonType (py_value k)
                        | None => TAuto
                        end)
                 else ret TAuto) ;;
              ret (params ++ [mkVariable (py_value nk) dataType None])%list
          | None => ret params
          end ;;
        comma <- consumeV PUNCTUATION "," ;;
        match comma with
        | Some _ => ret (inl params)
        | None => ret (inr params)
        end) [].

Definition push (statements : list IRNode) (stmt : option IRNode)
  : list IRNode :=
  match stmt with
  | Some n => (statements ++ [n])%list
  | None => statements
  end.

Definition parseBlock (self : Table) (parentIndent : nat) : P (list IRNode) :=
  let blockIndent := parentIndent + 4 in
  loop (budget self) (fun st : list IRNode * nat =>
    let '(statements, iterations) := st in
    go <- more ;;
    if go && Nat.ltb iterations maxIterations then
      skipNewlines self ;;
      token <- peek ;;
      match token with
      | None => ret (inr statements)
      | Some k =>
          if Nat.leb (py_indent k) parentIndent then ret (inr statements)
          else
            stmt <- t_parseStatement self blockIndent ;;
            match stmt with
            | Some n => ret (inl ((statements ++ [n])%list, S iterations))
            | None => ret (inr statements)
            end
      end
    else ret (inr statements)) ([], 0).

(** The return type of a [def]: that of the first [return] among the
    statements of its body, [void] when it returns nothing. *)
Fixpoint inferReturnType (body : list IRNode) : DataType :=
  match body with
  | [] => TVoid
  | NReturn (Some v) :: _ => inferType v
  | NReturn None :: _ => TVoid
  | _ :: rest => inferReturnType rest
  end.

Definition parseFunctionDef (self : Table) : P IRFunction :=
  defToken <- consumeV KEYWORD "def" ;;
  match defToken with
  | None => throw (Core.nullRead "indent")
  | Some tk =>
      let functionIndent := py_indent tk in
      nameToken <- consumeT IDENTIFIER ;;
      let name :=
        match nameToken with
        | Some k => if String.eqb (py_value k) "" then "unknown" else py_value k
        | None => "unknown"
        end in
      consumeV PUNCTUATION "(" ;;
      params <- parseParams self ;;
      consumeV PUNCTUATION ")" ;;
      consumeV PUNCTUATION ":" ;;
      skipNewlines self ;;
      body <- parseBlock self functionIndent ;;
      ret (mkFunction name params (inferReturnType body) body)
  end.

(** The members a constructor body declares: one per statement
    [self.x = ...], named by the target with its first [self.] removed. *)
Fixpoint constructorMembers (stmts : list IRNode) : list IRVariable :=
  match stmts with
  | [] => []
  | NAssignment target _ :: rest =>
      if startsWith target "self."
      then mkVariable (replaceFirst target "self." "") TAuto None
           :: constructorMembers rest
      else constructorMembers rest
  | _ :: rest => constructorMembers rest
  end.

Record ClassAcc : Type := mkAcc {
  members : list IRVariable;
  methods : list IRFunction;
  constructor : option IRFunction
}.

(** [for (const node of body)] of [parseClassDef]. *)
Fixpoint classifyBody (nodes : list IRNode) (acc : ClassAcc) : ClassAcc :=
  match nodes with
  | [] => acc
  | NFunction func :: rest =>
      if String.eqb (fn_name func) "__init__" then
        classifyBody rest
          (mkAcc (members acc ++ constructorMembers (fn_body func))%list
                 (methods acc) (Some func))
      else
        classifyBody rest
          (mkAcc (members acc) (methods acc ++ [func])%list (constructor acc))
  | _ :: rest => classifyBody rest acc
  end.

Definition parseClassDef (self : Table) : P IRClass :=
  classToken <- consumeV KEYWORD "class" ;;
  match classToken with
  | None => throw (Core.nullRead "indent")
  | Some tk =>
      let classIndent := py_indent tk in
      nameToken <- consumeT IDENTIFIER ;;
      let name :=
        match nameToken with
        | Some k => if String.eqb (py_value k) "" then "Unknown" else py_value k
        | None => "Unknown"
        end in
      consumeV PUNCTUATION ":" ;;
      skipNewlines self ;;
      body <- parseBlock self classIndent ;;
      let acc := classifyBody body (mkAcc [] [] None) in
      ret (mkClass name (members acc) (methods acc) (constructor acc) None None)
  end.

Definition parseStatement (self : Table) (minIndent : nat) : P (option IRNode) :=
  skipNewlines self ;;
  token <- peek ;;
  match token with
  | None => ret None
  | Some tk =>
      if Nat.ltb (py_indent tk) minIndent then ret None
      else if TokenType_eqb (py_type tk) COMMENT then
        advance ;;
        skipNewlines self ;;
        ret (Some (NComment (trim (drop 1 (py_value tk))) false))
      else
      b <- matchV KEYWORD "def" ;;
      if b then f <- parseFunctionDef self ;; ret (Some (NFunction f)) else
      b <- matchV KEYWORD "class" ;;
      if b then c <- parseClassDef self ;; ret (Some (NClass c)) else
      b <- matchV KEYWORD "if" ;;
      if b then i <- parseIf self minIndent ;; ret (Some (NIf i)) else
      b <- matchV KEYWORD "for" ;;
      if b then n <- parseFor self minIndent ;; ret (Some n) else
      b <- matchV KEYWORD "while" ;;
      if b then n <- parseWhile self minIndent ;; ret (Some n) else
      b <- matchV KEYWORD "return" ;;
      if b then n <- parseReturn self ;; ret (Some n) else
      b <- matchV KEYWORD "print" ;;
      if b then n <- parsePrint self ;; ret (Some n) else
      b <- matchV KEYWORD "input" ;;
      if b then n <- parseInput ;; ret (Some n) else
      parseAssignmentOrExpression self
  end.

Fixpoint table (fuel : nat) : Table :=
  match fuel with
  | O => mkTable 0 outOfFuel outOfFuel outOfFuel
                 (fun _ => outOfFuel) (fun _ => outOfFuel) (fun _ => outOfFuel)
  | S n =>
      let self := table n in
      mkTable n (parseExpression self) (parseNot self) (parseUnary self)
              (parseStatement self) (parseBlock self) (parseElif self)
  end.

Definition detectImports (code : string) : list string :=
  map trim
      (filter (fun line => startsWith (trim line) "import "
                           || startsWith (trim line) "from ")
              (split LF code)).

Definition parseProgram (self : Table) (code : string) : P IRProgram :=
  loop (budget self) (fun st : list IRNode * nat =>
    let '(body, iterations) := st in
    go <- more ;;
    if go && Nat.ltb iterations maxIterations then
      node <- parseStatement self 0 ;;
      ret (inl (push body node, S iterations))
    else ret (inr (mkProgram body (detectImports code)))) ([], 0).

Definition tokenize (code : string) : list PyToken := PyLexer.tokenize code.

(** [parse(code)]: the whole body sits in a [try]; the [catch] logs the
    error and returns a Program with an empty body and no imports. *)
Definition parse (fuel : nat) (code : string) : Outcome IRProgram :=
  match parseProgram (table fuel) code (mkPState (tokenize code) 0) with
  | Returned (p, _) => Returned p
  | Threw _ => Returned (mkProgram [] [])
  | OutOfFuel => OutOfFuel
  end.

End PythonParser.

(* ================================================================== *)
(** * Text helpers of the emitters *)
(* ================================================================== *)

Module Emit.

(** A line feed and a double quote, as one-character strings. *)
Definition NL : string := str1 LF.
Definition QQ : string := str1 dquote.

Definition indentStr : string := "    ".

(** [this.indentStr.repeat(this.indent)] *)
Definition getIndent (indent : nat) : string := repeat indentStr indent.

Definition isEmpty (s : string) : bool :=
  match s with EmptyString => true | _ => false end.

(** [a || b] on strings: the empty string is falsy. *)
Definition orElse (a b : string) : string := if isEmpty a then b else a.

(** [const c = g(stmt); if (c) code += c + '\n';] over a list. *)
Section Lines.
Context {A : Type} (g : A -> string).

Fixpoint emitLines (l : list A) : string :=
  match l with
  | [] => EmptyString
  | x :: r =>
      let c := g x in
      (if isEmpty c then EmptyString else c ++ NL) ++ emitLines r
  end.

(** [const c = g(stmt); if (c) lines.push(c);] over a list. *)
Fixpoint pushLines (l : list A) : list string :=
  match l with
  | [] => []
  | x :: r =>
      let c := g x in
      if isEmpty c then pushLines r else c :: pushLines r
  end.

(** [code += g(x)] over a list. *)
Fixpoint concatMap (l : list A) : string :=
  match l with
  | [] => EmptyString
  | x :: r => g x ++ concatMap r
  end.
End Lines.

Definition notClose (c : ascii) : bool := negb (Ascii.eqb c (ch 125)).

(** The placeholder that starts at [s], if any: an opening brace, one or
    more characters other than a closing brace, a closing brace
    ([/\{([^}]+)\}/]). *)
Definition placeholderAt (s : string) : option string :=
  match s with
  | String c r =>
      if Ascii.eqb c (ch 123) then
        match takeWhile notClose r, dropWhile notClose r with
        | EmptyString, _ => None
        | name, String _ _ => Some name
        | _, EmptyString => None
        end
      else None
  | EmptyString => None
  end.

(** [s.replace(/\{([^}]+)\}/g, f)]: [skip] counts the characters of a
    replaced placeholder that are still to be stepped over. *)
Fixpoint replacePlaceholders_go (f : string -> string) (skip : nat) (s : string)
  : string :=
  match s with
  | EmptyString => EmptyString
  | String c r =>
      match skip with
      | S k => replacePlaceholders_go f k r
      | O =>
          match placeholderAt s with
          | Some name =>
              f name ++ replacePlaceholders_go f (S (String.length name)) r
          | None => String c (replacePlaceholders_go f 0 r)
          end
      end
  end.

Definition replacePlaceholders (f : string -> string) (s : string) : string :=
  replacePlaceholders_go f 0 s.

(** The names captured by the same scan, in order. *)
Fixpoint placeholderNames_go (skip : nat) (s : string) : list string :=
  match s with
  | EmptyString => []
  | String c r =>
      match skip with
      | S k => placeholderNames_go k r
      | O =>
          match placeholderAt s with
          | Some name => name :: placeholderNames_go (S (String.length name)) r
          | None => placeholderNames_go 0 r
          end
      end
  end.

Definition placeholderNames (s : string) : list string :=
  placeholderNames_go 0 s.

(** Truthiness of a literal's value. *)
Definition truthy (v : LitValue) : bool :=
  match v with
  | VStr s => negb (isEmpty s)
  | VNum n => numberTruthy n
  | VBool b => b
  end.

Definition isNullText (v : LitValue) : bool :=
  match v with VStr s => String.eqb s "null" | _ => false end.

End Emit.

(* ================================================================== *)
(** * The C emitter (generators/c-generator.ts) *)
(* ================================================================== *)

Module CGenerator.
Import Emit.
Local Open Scope string_scope.

(** [typeMap[type] || 'int'] *)
Definition mapType (type : DataType) (isParam : bool) : string :=
  match type with
  | TInt => "int"
  | TFloat => "float"
  | TDouble => "double"
  | TChar => "char"
  | TString => "char*"
  | TBool => "bool"
  | TVoid => "void"
  | TAuto => if isParam then "const char*" else "int"
  | TProto _ => "int"
  end.

Definition getDefaultValue (type : DataType) : string :=
  match type with
  | TInt => "0"
  | TFloat | TDouble => "0.0"
  | TString => QQ ++ QQ
  | TBool => "false"
  | TChar => "'\0'"
  | _ => "0"
  end.

Definition inferType (node : IRNode) : DataType :=
  match node with
  | NLiteral _ dataType _ => dataType
  | NIdentifier _ => TAuto
  | NCall callee _ _ _ =>
      if String.eqb callee "int" then TInt
      else if String.eqb callee "float" then TFloat
      else if String.eqb callee "str" then TString
      else TAuto
  | _ => TAuto
  end.

Definition generateLiteral (v : LitValue) (dataType : DataType) : string :=
  match dataType with
  | TString => QQ ++ Core.litValueToString v ++ QQ
  | TChar => "'" ++ Core.litValueToString v ++ "'"
  | TBool => if truthy v then "true" else "false"
  | _ => if isNullText v then "NULL" else Core.litValueToString v
  end.

Definition generateIdentifier (name : string) : string :=
  if String.eqb name "this" then "self"
  else if startsWith name "self." then replaceFirst name "self." "self->"
  else name.

Fixpoint generateExpression (node : IRNode) : string :=
  match node with
  | NLiteral v dataType _ => generateLiteral v dataType
  | NIdentifier name => generateIdentifier name
  | NBinaryOp operator lhs rhs =>
      generateExpression lhs ++ " " ++ operator ++ " " ++ generateExpression rhs
  | NCall callee args isMethod object =>
      let args := join ", " (map generateExpression args) in
      if String.eqb callee "int" then "(int)(" ++ args ++ ")"
      else if String.eqb callee "float" then "(float)(" ++ args ++ ")"
      else if String.eqb callee "str" then args
      else
        match (if isMethod then object else None) with
        | Some (String _ _ as o) =>
            let obj := if String.eqb o "this" then "self" else o in
            obj ++ "->" ++ callee ++ "(" ++ obj ++
            (if isEmpty args then "" else ", " ++ args) ++ ")"
        | _ => callee ++ "(" ++ args ++ ")"
        end
  | NInput _ _ _ => "0"
  | NUnaryOp operator operand =>
      let operand := generateExpression operand in
      if String.eqb operator "++_post" then operand ++ "++"
      else if String.eqb operator "--_post" then operand ++ "--"
      else operator ++ operand
  | _ => ""
  end.

Definition generateBinaryOp (operator : string) (lhs rhs : IRNode) : string :=
  generateExpression (NBinaryOp operator lhs rhs).

Definition generateCall (callee : string) (args : list IRNode)
           (isMethod : bool) (object : option string) : string :=
  generateExpression (NCall callee args isMethod object).

Definition generateComment (indent : nat) (text : string) (isMultiline : bool)
  : string :=
  let ind := getIndent indent in
  if isMultiline
  then ind ++ "/*" ++ NL ++ ind ++ " * " ++ text ++ NL ++ ind ++ " */"
  else ind ++ "// " ++ text.

Definition generateVariable (indent : nat) (node : IRVariable) : string :=
  let ind := getIndent indent in
  let type := mapType (var_dataType node) false in
  if DataType_eqb (var_dataType node) TString then
    let v := match var_value node with
             | Some e => generateExpression e
             | None => QQ ++ QQ
             end in
    ind ++ "char " ++ var_name node ++ "[256] = " ++ v ++ ";"
  else
    match var_value node with
    | Some e => ind ++ type ++ " " ++ var_name node ++ " = " ++ generateExpression e ++ ";"
    | None => ind ++ type ++ " " ++ var_name node ++ ";"
    end.

Definition generateReturn (indent : nat) (v : option IRNode) : string :=
  match v with
  | Some e => getIndent indent ++ "return " ++ generateExpression e ++ ";"
  | None => getIndent indent ++ "return;"
  end.

(** [parseFStringToFormat]: every placeholder becomes [%s] and its name
    an argument. *)
Definition parseFStringToFormat (str : string) : string * list string :=
  (replacePlaceholders (fun _ => "%s") str, placeholderNames str).

(** The loop of [generatePrint] over the arguments: the format built so
    far and the argument texts. *)
Fixpoint printParts (nodes : list IRNode) (format : string) (args : list string)
  : string * list string :=
  match nodes with
  | [] => (format, args)
  | arg :: rest =>
      match arg with
      | NLiteral v TString _ =>
          let '(f, a) := parseFStringToFormat (Core.litValueToString v) in
          printParts rest (format ++ f) (args ++ a)%list
      | _ =>
          let expr := generateExpression arg in
          let directive :=
            match inferType arg with
            | TInt => "%d"
            | TFloat | TDouble => "%f"
            | TChar => "%c"
            | _ => "%s"
            end in
          printParts rest (format ++ directive) (args ++ [expr])%list
      end
  end.

Definition generatePrint (indent : nat) (args : list IRNode) (newline : bool)
  : string :=
  let ind := getIndent indent in
  match args with
  | [] => if newline then ind ++ "printf(" ++ QQ ++ "\n" ++ QQ ++ ");" else ""
  | _ =>
      let '(format, a) := printParts args "" [] in
      let format :=
        if newline && negb (endsWith format "\n") then format ++ "\n"
        else format in
      match a with
      | [] => ind ++ "printf(" ++ QQ ++ format ++ QQ ++ ");"
      | _ => ind ++ "printf(" ++ QQ ++ format ++ QQ ++ ", " ++ join ", " a ++ ");"
      end
  end.

Definition scanfFormat (targetType : option DataType) : string :=
  match targetType with
  | Some TInt => "%d"
  | Some TFloat => "%f"
  | _ => "%s"
  end.

Definition someNonEmpty (o : option string) : option string :=
  match o with
  | Some (String _ _ as s) => Some s
  | _ => None
  end.

Definition generateInput (indent : nat) (prompt targetVar : option string)
           (targetType : option DataType) : string :=
  let ind := getIndent indent in
  let scan v :=
    ind ++ "scanf(" ++ QQ ++ scanfFormat targetType ++ QQ ++ ", &" ++ v ++ ");" in
  match someNonEmpty prompt with
  | Some p =>
      let printLine := ind ++ "printf(" ++ QQ ++ p ++ QQ ++ ");" ++ NL in
      match someNonEmpty targetVar with
      | Some v => printLine ++ scan v
      | None => printLine
      end
  | None =>
      match someNonEmpty targetVar with
      | Some v => scan v
      | None => ""
      end
  end.

Definition generateAssignment (indent : nat) (target : string) (v : IRNode)
  : string :=
  getIndent indent ++ replaceFirst target "self." "self->" ++ " = "
  ++ generateExpression v ++ ";".

(** Header of a counted loop in range form. *)
Definition rangeHeader (indent : nat) (iterator : string)
           (rangeStart : option IRNode) (rangeEnd : IRNode)
           (rangeStep : option IRNode) : string :=
  let start := match rangeStart with Some e => generateExpression e | None => "0" end in
  let stop := generateExpression rangeEnd in
  let step := match rangeStep with Some e => generateExpression e | None => "1" end in
  getIndent indent ++ "for (int " ++ iterator ++ " = " ++ start ++ "; "
  ++ iterator ++ " < " ++ stop ++ "; " ++ iterator ++ " += " ++ step ++ ") {" ++ NL.

(** Header of a loop kept in its classic three-part form. *)
Definition classicHeader (indent : nat) (init condition update : option IRNode)
  : string :=
  let init :=
    match init with
    | Some (NVariable v) =>
        mapType (var_dataType v) false ++ " " ++ var_name v ++ " = "
        ++ match var_value v with Some e => generateExpression e | None => "0" end
    | Some e => generateExpression e
    | None => ""
    end in
  let condition := match condition with Some e => generateExpression e | None => "" end in
  let update := match update with Some e => generateExpression e | None => "" end in
  getIndent indent ++ "for (" ++ init ++ "; " ++ condition ++ "; " ++ update ++ ") {" ++ NL.

Definition paramDecl (p : IRVariable) : string :=
  if DataType_eqb (var_dataType p) TString then "char " ++ var_name p ++ "[]"
  else mapType (var_dataType p) true ++ " " ++ var_name p.

Definition memberDecl (indent : nat) (member : IRVariable) : string :=
  if DataType_eqb (var_dataType member) TString
  then getIndent indent ++ "char " ++ var_name member ++ "[256];" ++ NL
  else getIndent indent ++ mapType (var_dataType member) false ++ " "
       ++ var_name member ++ ";" ++ NL.

Definition typedParams (params : list IRVariable) : string :=
  join ", " (map (fun p => mapType (var_dataType p) false ++ " " ++ var_name p) params).

Definition methodPointer (indent : nat) (className : string) (method : IRFunction)
  : string :=
  let params := join ", " (map (fun p => mapType (var_dataType p) false) (fn_params method)) in
  getIndent indent ++ mapType (fn_returnType method) false ++ " (*" ++ fn_name method
  ++ ")(" ++ className ++ "*" ++ (if isEmpty params then "" else ", " ++ params)
  ++ ");" ++ NL.

Fixpoint generateNode (indent : nat) (node : IRNode) {struct node} : string :=
  match node with
  | NComment text isMultiline => generateComment indent text isMultiline
  | NVariable v => generateVariable indent v
  | NFunction f => generateFunction indent f
  | NClass c => generateClass indent c
  | NIf i => generateIf indent i
  | NFor init condition update iterator rangeStart rangeEnd rangeStep body =>
      let header :=
        match someNonEmpty iterator, rangeEnd with
        | Some it, Some e => rangeHeader indent it rangeStart e rangeStep
        | _, _ => classicHeader indent init condition update
        end in
      header ++ emitLines (generateNode (S indent)) body ++ getIndent indent ++ "}"
  | NWhile condition body =>
      getIndent indent ++ "while (" ++ generateExpression condition ++ ") {" ++ NL
      ++ emitLines (generateNode (S indent)) body ++ getIndent indent ++ "}"
  | NReturn v => generateReturn indent v
  | NPrint args newline => generatePrint indent args newline
  | NInput prompt targetVar targetType =>
      generateInput indent prompt targetVar targetType
  | NAssignment target v => generateAssignment indent target v
  | NCall callee args isMethod object =>
      getIndent indent ++ generateCall callee args isMethod object ++ ";"
  | NBinaryOp operator lhs rhs =>
      getIndent indent ++ generateBinaryOp operator lhs rhs ++ ";"
  | _ => ""
  end

with generateFunction (indent : nat) (node : IRFunction) {struct node} : string :=
  match node with
  | mkFunction name params returnType body =>
      let ind := getIndent indent in
      let params := join ", " (map paramDecl params) in
      ind ++ mapType returnType false ++ " " ++ name ++ "("
      ++ orElse params "void" ++ ") {" ++ NL
      ++ emitLines (generateNode (S indent)) body
      ++ ind ++ "}"
  end

with generateClass (indent : nat) (node : IRClass) {struct node} : string :=
  match node with
  | mkClass name members methods constructor mainMethod _ =>
      let ind := getIndent indent in
      let mainBody :=
        match mainMethod with
        | Some (mkFunction _ _ _ body) =>
            Some (emitLines (generateNode (S indent)) body)
        | None => None
        end in
      match mainBody, methods, members with
      | Some stmts, [], [] =>
          ind ++ "int main() {" ++ NL ++ stmts
          ++ getIndent (S indent) ++ "return 0;" ++ NL ++ ind ++ "}"
      | _, _, _ =>
          ind ++ "typedef struct " ++ name ++ " " ++ name ++ ";" ++ NL ++ NL
          ++ ind ++ "struct " ++ name ++ " {" ++ NL
          ++ concatMap (memberDecl (S indent)) members
          ++ concatMap (methodPointer (S indent) name) methods
          ++ ind ++ "};" ++ NL ++ NL
          ++ concatMap
               (fun method =>
                  match method with
                  | mkFunction mname mparams mreturn mbody =>
                      let params := typedParams mparams in
                      ind ++ mapType mreturn false ++ " " ++ name ++ "_" ++ mname
                      ++ "(" ++ name ++ "* self"
                      ++ (if isEmpty params then "" else ", " ++ params) ++ ") {" ++ NL
                      ++ emitLines (generateNode (S indent)) mbody
                      ++ ind ++ "}" ++ NL ++ NL
                  end) methods
          ++ ind ++ "void " ++ name ++ "_init(" ++ name ++ "* self"
          ++ match constructor with
             | Some k =>
                 match fn_params k with
                 | [] => ""
                 | ps => ", " ++ typedParams ps
                 end
             | None => ""
             end
          ++ ") {" ++ NL
          ++ concatMap
               (fun member =>
                  getIndent (S indent) ++ "self->" ++ var_name member ++ " = "
                  ++ getDefaultValue (var_dataType member) ++ ";" ++ NL) members
          ++ concatMap
               (fun method =>
                  getIndent (S indent) ++ "self->" ++ fn_name method ++ " = "
                  ++ name ++ "_" ++ fn_name method ++ ";" ++ NL) methods
          ++ ind ++ "}" ++ NL
          ++ match mainBody with
             | Some stmts =>
                 NL ++ ind ++ "int main() {" ++ NL ++ stmts
                 ++ getIndent (S indent) ++ "return 0;" ++ NL ++ ind ++ "}"
             | None => ""
             end
      end
  end

with generateIf (indent : nat) (node : IRIf) {struct node} : string :=
  match node with
  | mkIf condition thenBranch elseBranch elseIf =>
      let ind := getIndent indent in
      ind ++ "if (" ++ generateExpression condition ++ ") {" ++ NL
      ++ emitLines (generateNode (S indent)) thenBranch
      ++ ind ++ "}"
      ++ match elseIf with
         | Some e => " else " ++ trimStart (generateIf indent e)
         | None =>
             match elseBranch with
             | Some ((_ :: _) as stmts) =>
                 " else {" ++ NL
                 ++ emitLines (generateNode (S indent)) stmts
                 ++ ind ++ "}"
             | _ => ""
             end
         end
  end.

(** The three facilities the first pass looks for. *)
Record Flags : Type := mkFlags {
  usesStdio : bool;
  usesString : bool;
  usesBool : bool
}.

Definition noFlags : Flags := mkFlags false false false.

Definition orFlags (a b : Flags) : Flags :=
  mkFlags (usesStdio a || usesStdio b) (usesString a || usesString b)
          (usesBool a || usesBool b).

Section AnyFlags.
Context {A : Type} (g : A -> Flags).
Fixpoint anyFlags (l : list A) : Flags :=
  match l with
  | [] => noFlags
  | x :: r => orFlags (g x) (anyFlags r)
  end.
End AnyFlags.

Definition variableFlags (v : IRVariable) : Flags :=
  mkFlags false (DataType_eqb (var_dataType v) TString)
          (DataType_eqb (var_dataType v) TBool).

Definition paramFlags (p : IRVariable) : Flags :=
  mkFlags false false (DataType_eqb (var_dataType p) TBool).

(** The walk of [analyzeProgram]; it does not enter an [elseIf], a
    constructor or an attached entry point. *)
Fixpoint analyze (node : IRNode) {struct node} : Flags :=
  match node with
  | NPrint _ _ | NInput _ _ _ => mkFlags true false false
  | NVariable v => variableFlags v
  | NFunction f => analyzeFunction f
  | NClass (mkClass _ members methods _ _ _) =>
      orFlags (anyFlags variableFlags members) (anyFlags analyzeFunction methods)
  | NIf (mkIf _ thenBranch elseBranch _) =>
      orFlags (anyFlags analyze thenBranch)
              match elseBranch with
              | Some stmts => anyFlags analyze stmts
              | None => noFlags
              end
  | NFor _ _ _ _ _ _ _ body => anyFlags analyze body
  | NWhile _ body => anyFlags analyze body
  | _ => noFlags
  end
with analyzeFunction (f : IRFunction) {struct f} : Flags :=
  match f with
  | mkFunction _ params _ body =>
      orFlags (anyFlags analyze body) (anyFlags paramFlags params)
  end.

Definition analyzeProgram (ir : IRProgram) : Flags := anyFlags analyze (body ir).

Definition isMainFunction (n : IRNode) : bool :=
  match n with
  | NFunction f => String.eqb (fn_name f) "main"
  | _ => false
  end.

(** A top-level function: [main] is re-wrapped as [int main()] with a
    closing [return 0;], any other function is emitted as it is. *)
Definition topLevelFunction (func : IRNode) : list string :=
  match func with
  | NFunction (mkFunction name _ _ stmts) =>
      if String.eqb name "main" then
        ("int main() {" :: pushLines (generateNode 1) stmts
         ++ [(getIndent 1 ++ "return 0;")%string; "}"])%list
      else pushLines (generateNode 0) [func]
  | _ => pushLines (generateNode 0) [func]
  end.

Definition generate (ir : IRProgram) : string :=
  let flags := analyzeProgram ir in
  let includes :=
    ((if usesStdio flags then ["#include <stdio.h>"] else [])
     ++ (if usesString flags then ["#include <string.h>"] else [])
     ++ (if usesBool flags then ["#include <stdbool.h>"] else []))%list in
  let includes := match includes with [] => [] | _ => (includes ++ [""])%list end in
  let functions := filter isIRFunction (body ir) in
  let classes := filter isIRClass (body ir) in
  let mainContent :=
    filter (fun n => negb (isIRFunction n) && negb (isIRClass n)) (body ir) in
  let wrapped :=
    match mainContent with
    | [] => []
    | _ =>
        if existsb isMainFunction functions then []
        else ("int main() {" :: pushLines (generateNode 1) mainContent
              ++ [(getIndent 1 ++ "return 0;")%string; "}"])%list
    end in
  join NL (includes
           ++ pushLines (generateNode 0) classes
           ++ flat_map topLevelFunction functions
           ++ wrapped)%list.

End CGenerator.

(* ================================================================== *)
(** * The JV emitter (generators/java-generator.ts) *)
(* ================================================================== *)

Module JavaGenerator.
Import Emit.
Local Open Scope string_scope.

(** An emitter computation: it returns a value or throws. *)
Definition G (A : Type) : Type := (Exn + A)%type.

Definition gret {A} (a : A) : G A := inr a.
Definition gthrow {A} (e : Exn) : G A := inl e.
Definition gbind {A B} (m : G A) (k : A -> G B) : G B :=
  match m with
  | inr a => k a
  | inl e => inl e
  end.

Declare Scope gen_scope.
Notation "x <- m ;; k" := (gbind m (fun x => k))
  (at level 61, m at next level, right associativity) : gen_scope.
Local Open Scope gen_scope.

Section MapM.
Context {A : Type} (g : A -> G string).

(** [l.map(g)] *)
Fixpoint mapM (l : list A) : G (list string) :=
  match l with
  | [] => gret []
  | x :: r => c <- g x ;; cs <- mapM r ;; gret (c :: cs)
  end.

(** [const c = g(stmt); if (c) code += c + '\n';] over a list. *)
Fixpoint emitLinesM (l : list A) : G string :=
  match l with
  | [] => gret EmptyString
  | x :: r =>
      c <- g x ;;
      cs <- emitLinesM r ;;
      gret ((if isEmpty c then EmptyString else c ++ NL) ++ cs)
  end.

(** [const c = g(stmt); if (c) lines.push(c);] over a list. *)
Fixpoint pushLinesM (l : list A) : G (list string) :=
  match l with
  | [] => gret []
  | x :: r =>
      c <- g x ;;
      cs <- pushLinesM r ;;
      gret (if isEmpty c then cs else c :: cs)
  end.

(** [code += g(x)] over a list. *)
Fixpoint concatMapM (l : list A) : G string :=
  match l with
  | [] => gret EmptyString
  | x :: r => c <- g x ;; cs <- concatMapM r ;; gret (c ++ cs)
  end.
End MapM.

(** [typeMap[type] || 'Object'] *)
Definition mapType (type : DataType) (isParam isReturnType : bool) : string :=
  match type with
  | TInt => "int"
  | TFloat => "float"
  | TDouble => "double"
  | TChar => "char"
  | TString => "String"
  | TBool => "boolean"
  | TVoid => "void"
  | TAuto => if isReturnType then "void" else if isParam then "String" else "Object"
  | TProto _ => "Object"
  end.

Definition getDefaultValue (type : DataType) : string :=
  match type with
  | TInt => "0"
  | TFloat | TDouble => "0.0"
  | TString => QQ ++ QQ
  | TBool => "false"
  | TChar => "' '"
  | _ => "null"
  end.

Definition scannerMethod (targetType : option DataType) : string :=
  match targetType with
  | Some TInt => "nextInt()"
  | Some TFloat => "nextFloat()"
  | _ => "nextLine()"
  end.

Definition generateLiteral (v : LitValue) (dataType : DataType) : string :=
  match dataType with
  | TString => QQ ++ Core.litValueToString v ++ QQ
  | TChar => "'" ++ Core.litValueToString v ++ "'"
  | TBool => if truthy v then "true" else "false"
  | _ =>
      if isNullText v then "null"
      else if DataType_eqb dataType TFloat then Core.litValueToString v ++ "f"
      else Core.litValueToString v
  end.

Definition generateIdentifier (name : string) : string :=
  if String.eqb name "self" then "this"
  else if startsWith name "self." then replaceFirst name "self." "this."
  else name.

(** [c === c.toUpperCase()] on a character below 256: false exactly on
    the lower-case letters (the sharp s and the micro sign among them,
    whose upper-case forms are other texts). *)
Definition isOwnUpperCase (c : ascii) : bool :=
  let n := nat_of_ascii c in
  negb ((Nat.leb 97 n && Nat.leb n 122) || Nat.eqb n 181
        || (Nat.leb 223 n && negb (Nat.eqb n 247))).

(** The tail of [generateCall], reached when the call is neither a type
    conversion nor a method call on a named object: reading
    [callee[0].toUpperCase()] throws on an empty callee. *)
Definition plainCall (callee args : string) (isMethod : bool) : G string :=
  match callee with
  | EmptyString =>
      gthrow (TypeError "Cannot read properties of undefined (reading 'toUpperCase')")
  | String c _ =>
      if isOwnUpperCase c && negb isMethod
      then gret ("new " ++ callee ++ "(" ++ args ++ ")")
      else gret (callee ++ "(" ++ args ++ ")")
  end.

Fixpoint generateExpression (node : IRNode) : G string :=
  match node with
  | NLiteral v dataType _ => gret (generateLiteral v dataType)
  | NIdentifier name => gret (generateIdentifier name)
  | NBinaryOp operator lhs rhs =>
      l <- generateExpression lhs ;;
      r <- generateExpression rhs ;;
      gret (l ++ " " ++ operator ++ " " ++ r)
  | NCall callee args isMethod object =>
      argTexts <- mapM generateExpression args ;;
      let args := join ", " argTexts in
      if String.eqb callee "int" then gret ("Integer.parseInt(" ++ args ++ ")")
      else if String.eqb callee "float" then gret ("Float.parseFloat(" ++ args ++ ")")
      else if String.eqb callee "str" then gret ("String.valueOf(" ++ args ++ ")")
      else
        match (if isMethod then object else None) with
        | Some (String _ _ as o) =>
            let obj := if String.eqb o "self" then "this" else o in
            gret (obj ++ "." ++ callee ++ "(" ++ args ++ ")")
        | _ => plainCall callee args isMethod
        end
  | NInput _ _ targetType => gret ("scanner." ++ scannerMethod targetType)
  | NUnaryOp operator operand =>
      o <- generateExpression operand ;;
      if String.eqb operator "++_post" then gret (o ++ "++")
      else if String.eqb operator "--_post" then gret (o ++ "--")
      else gret (operator ++ o)
  | _ => gret ""
  end.

Definition generateComment (indent : nat) (text : string) (isMultiline : bool)
  : string :=
  let ind := getIndent indent in
  if isMultiline
  then ind ++ "/*" ++ NL ++ ind ++ " * " ++ text ++ NL ++ ind ++ " */"
  else ind ++ "// " ++ text.

Definition generateVariable (indent : nat) (node : IRVariable) : G string :=
  let ind := getIndent indent in
  let type := mapType (var_dataType node) false false in
  match var_value node with
  | Some (NInput prompt _ _) =>
      let promptLine :=
        match CGenerator.someNonEmpty prompt with
        | Some p => ind ++ "System.out.print(" ++ QQ ++ p ++ QQ ++ ");" ++ NL
        | None => ""
        end in
      let method :=
        match var_dataType node with
        | TInt => "nextInt()"
        | TFloat => "nextFloat()"
        | _ => "nextLine()"
        end in
      gret (promptLine ++ ind ++ type ++ " " ++ var_name node
           ++ " = scanner." ++ method ++ ";")
  | Some e =>
      v <- generateExpression e ;;
      gret (ind ++ type ++ " " ++ var_name node ++ " = " ++ v ++ ";")
  | None => gret (ind ++ type ++ " " ++ var_name node ++ ";")
  end.

Definition isNumberLiteral (node : IRNode) : bool :=
  match node with
  | NLiteral (VNum _) _ _ => true
  | _ => false
  end.

Definition generateReturn (indent : nat) (isInsideVoidMain : bool)
           (v : option IRNode) : G string :=
  match v with
  | Some e =>
      if isInsideVoidMain && isNumberLiteral e then gret ""
      else x <- generateExpression e ;; gret (getIndent indent ++ "return " ++ x ++ ";")
  | None => gret (getIndent indent ++ "return;")
  end.

(** [str.replace(/\\n$/, '')]: a final backslash-n is dropped. *)
Definition dropFinalNewlineEscape (str : string) : string :=
  if endsWith str "\n" then removeLast (removeLast str) else str.

(** [parseFString]: placeholders become concatenations, the result is
    quoted, and concatenations with an empty string are removed. *)
Definition parseFString (str : string) : string :=
  let cleaned := dropFinalNewlineEscape str in
  let result :=
    replacePlaceholders (fun name => QQ ++ " + " ++ name ++ " + " ++ QQ) cleaned in
  replaceAll (replaceAll (QQ ++ result ++ QQ) (QQ ++ QQ ++ " + ") "")
             (" + " ++ QQ ++ QQ) "".

Definition printPart (arg : IRNode) : G string :=
  match arg with
  | NLiteral v TString _ => gret (parseFString (Core.litValueToString v))
  | _ => generateExpression arg
  end.

Definition generatePrint (indent : nat) (args : list IRNode) (newline : bool)
  : G string :=
  let method := if newline then "println" else "print" in
  match args with
  | [] => gret (getIndent indent ++ "System.out." ++ method ++ "();")
  | _ =>
      parts <- mapM printPart args ;;
      gret (getIndent indent ++ "System.out." ++ method ++ "("
           ++ join (" + " ++ QQ ++ " " ++ QQ ++ " + ") parts ++ ");")
  end.

Definition generateInput (indent : nat) (prompt targetVar : option string)
           (targetType : option DataType) : string :=
  let ind := getIndent indent in
  match CGenerator.someNonEmpty prompt with
  | Some p => ind ++ "System.out.print(" ++ QQ ++ p ++ QQ ++ ");" ++ NL
  | None => ""
  end
  ++ match CGenerator.someNonEmpty targetVar with
     | Some v => ind ++ v ++ " = scanner." ++ scannerMethod targetType ++ ";"
     | None => ""
     end.

Definition generateAssignment (indent : nat) (target : string) (v : IRNode)
  : G string :=
  x <- generateExpression v ;;
  gret (getIndent indent ++ replaceFirst target "self." "this." ++ " = " ++ x ++ ";").

Definition optExpression (o : option IRNode) (dflt : string) : G string :=
  match o with
  | Some e => generateExpression e
  | None => gret dflt
  end.

Definition rangeHeader (indent : nat) (iterator : string)
           (rangeStart : option IRNode) (rangeEnd : IRNode)
           (rangeStep : option IRNode) : G string :=
  start <- optExpression rangeStart "0" ;;
  stop <- generateExpression rangeEnd ;;
  step <- optExpression rangeStep "1" ;;
  gret (getIndent indent ++ "for (int " ++ iterator ++ " = " ++ start ++ "; "
       ++ iterator ++ " < " ++ stop ++ "; " ++ iterator ++ " += " ++ step
       ++ ") {" ++ NL).

Definition classicHeader (indent : nat) (init condition update : option IRNode)
  : G string :=
  init <-
    match init with
    | Some (NVariable v) =>
        x <- optExpression (var_value v) "0" ;;
        gret (mapType (var_dataType v) false false ++ " " ++ var_name v ++ " = " ++ x)
    | Some e => generateExpression e
    | None => gret ""
    end ;;
  condition <- optExpression condition "" ;;
  update <- optExpression update "" ;;
  gret (getIndent indent ++ "for (" ++ init ++ "; " ++ condition ++ "; "
       ++ update ++ ") {" ++ NL).

Definition typedParams (isParam : bool) (params : list IRVariable) : string :=
  join ", " (map (fun p => mapType (var_dataType p) isParam false ++ " " ++ var_name p)
                 params).

(** The emitter's fields that stay fixed while a node is emitted. *)
Record Env : Type := mkEnv {
  usesScanner : bool;
  isInsideVoidMain : bool
}.

Section Emit.
Variable env : Env.

Fixpoint generateNode (indent : nat) (node : IRNode) {struct node} : G string :=
  match node with
  | NComment text isMultiline => gret (generateComment indent text isMultiline)
  | NVariable v => generateVariable indent v
  | NFunction f => generateFunction indent false f
  | NClass c => generateClass indent c
  | NIf i => generateIf indent i
  | NFor init condition update iterator rangeStart rangeEnd rangeStep stmts =>
      header <-
        match CGenerator.someNonEmpty iterator, rangeEnd with
        | Some it, Some e => rangeHeader indent it rangeStart e rangeStep
        | _, _ => classicHeader indent init condition update
        end ;;
      code <- emitLinesM (generateNode (S indent)) stmts ;;
      gret (header ++ code ++ getIndent indent ++ "}")
  | NWhile condition stmts =>
      c <- generateExpression condition ;;
      code <- emitLinesM (generateNode (S indent)) stmts ;;
      gret (getIndent indent ++ "while (" ++ c ++ ") {" ++ NL ++ code
           ++ getIndent indent ++ "}")
  | NSwitch expression cases defaultBody =>
      let ind := getIndent indent in
      expr <- generateExpression expression ;;
      arms <-
        concatMapM
          (fun c : IRNode * list IRNode =>
             let '(v, stmts) := c in
             label <- generateExpression v ;;
             code <- emitLinesM (generateNode (indent + 2)) stmts ;;
             gret (ind ++ "    case " ++ label ++ ":" ++ NL ++ code
                  ++ getIndent (indent + 2) ++ "break;" ++ NL)) cases ;;
      dflt <-
        match defaultBody with
        | Some stmts =>
            code <- emitLinesM (generateNode (indent + 2)) stmts ;;
            gret (ind ++ "    default:" ++ NL ++ code)
        | None => gret ""
        end ;;
      gret (ind ++ "switch (" ++ expr ++ ") {" ++ NL ++ arms ++ dflt ++ ind ++ "}")
  | NReturn v => generateReturn indent (isInsideVoidMain env) v
  | NPrint args newline => generatePrint indent args newline
  | NInput prompt targetVar targetType =>
      gret (generateInput indent prompt targetVar targetType)
  | NAssignment target v => generateAssignment indent target v
  | NCall _ _ _ _ | NBinaryOp _ _ _ =>
      x <- generateExpression node ;;
      gret (getIndent indent ++ x ++ ";")
  | NBreak => gret (getIndent indent ++ "break;")
  | _ => gret ""
  end

with generateFunction (indent : nat) (isStatic : bool) (node : IRFunction)
     {struct node} : G string :=
  match node with
  | mkFunction name params returnType stmts =>
      let ind := getIndent indent in
      code <- emitLinesM (generateNode (S indent)) stmts ;;
      gret (ind ++ "public " ++ (if isStatic then "static " else "")
           ++ mapType returnType false true ++ " " ++ name ++ "("
           ++ typedParams true params ++ ") {" ++ NL ++ code ++ ind ++ "}")
  end

with generateClass (indent : nat) (node : IRClass) {struct node} : G string :=
  match node with
  | mkClass name members methods constructor _ _ =>
      let ind := getIndent indent in
      let ind1 := getIndent (S indent) in
      ctorBody <-
        match constructor with
        | Some (mkFunction _ _ _ stmts) =>
            emitLinesM (generateNode (S (S indent))) stmts
        | None => gret ""
        end ;;
      methodsCode <-
        concatMapM
          (fun method =>
             match method with
             | mkFunction mname mparams mreturn mbody =>
                 code <- emitLinesM (generateNode (S (S indent))) mbody ;;
                 gret (NL ++ ind1 ++ "public " ++ mapType mreturn false false
                      ++ " " ++ mname ++ "(" ++ typedParams false mparams
                      ++ ") {" ++ NL ++ code ++ ind1 ++ "}" ++ NL)
             end) methods ;;
      gret (ind ++ "public class " ++ name ++ " {" ++ NL
           ++ (if usesScanner env
               then ind1 ++ "static Scanner scanner = new Scanner(System.in);"
                    ++ NL ++ NL
               else "")
           ++ concatMap
                (fun member =>
                   ind1 ++ "private " ++ mapType (var_dataType member) false false
                   ++ " " ++ var_name member ++ ";" ++ NL) members
           ++ match members with [] => "" | _ => NL end
           ++ ind1 ++ "public " ++ name ++ "("
           ++ match constructor with
              | Some k => typedParams false (fn_params k)
              | None => ""
              end
           ++ ") {" ++ NL
           ++ concatMap
                (fun member =>
                   getIndent (S (S indent)) ++ "this." ++ var_name member ++ " = "
                   ++ getDefaultValue (var_dataType member) ++ ";" ++ NL) members
           ++ ctorBody
           ++ ind1 ++ "}" ++ NL
           ++ methodsCode
           ++ ind ++ "}")
  end

with generateIf (indent : nat) (node : IRIf) {struct node} : G string :=
  match node with
  | mkIf condition thenBranch elseBranch elseIf =>
      let ind := getIndent indent in
      c <- generateExpression condition ;;
      code <- emitLinesM (generateNode (S indent)) thenBranch ;;
      tail <-
        match elseIf with
        | Some e => x <- generateIf indent e ;; gret (" else " ++ trimStart x)
        | None =>
            match elseBranch with
            | Some ((_ :: _) as stmts) =>
                x <- emitLinesM (generateNode (S indent)) stmts ;;
                gret (" else {" ++ NL ++ x ++ ind ++ "}")
            | _ => gret ""
            end
        end ;;
      gret (ind ++ "if (" ++ c ++ ") {" ++ NL ++ code ++ ind ++ "}" ++ tail)
  end.

End Emit.

Section Any.
Context {A : Type} (g : A -> bool).
Fixpoint any (l : list A) : bool :=
  match l with
  | [] => false
  | x :: r => g x || any r
  end.
End Any.

(** The walk of [analyzeProgram]: is there an Input statement?  It
    enters function bodies, the methods and constructor of a class, the
    branches of an [if] (not its [elseIf]) and loop bodies. *)
Fixpoint analyze (node : IRNode) {struct node} : bool :=
  match node with
  | NInput _ _ _ => true
  | NFunction f => analyzeFunction f
  | NClass (mkClass _ _ methods constructor _ _) =>
      any analyzeFunction methods
      || match constructor with
         | Some (mkFunction _ _ _ stmts) => any analyze stmts
         | None => false
         end
  | NIf (mkIf _ thenBranch elseBranch _) =>
      any analyze thenBranch
      || match elseBranch with
         | Some stmts => any analyze stmts
         | None => false
         end
  | NFor _ _ _ _ _ _ _ stmts => any analyze stmts
  | NWhile _ stmts => any analyze stmts
  | _ => false
  end
with analyzeFunction (f : IRFunction) {struct f} : bool :=
  match f with
  | mkFunction _ _ _ stmts => any analyze stmts
  end.

Definition analyzeProgram (ir : IRProgram) : bool := any analyze (body ir).

(** [shouldSkipReturnInMain], inside the [main] being emitted. *)
Definition shouldSkipReturnInMain (node : IRNode) : bool :=
  match node with
  | NReturn (Some e) => isNumberLiteral e
  | _ => false
  end.

(** [public static void main(String[] args) { ... }] around statements,
    one level inside the wrapping class. *)
Definition mainMethodLines (scanner : bool) (stmts : list IRNode)
  : G (list string) :=
  code <- pushLinesM (generateNode (mkEnv scanner true) 2)
            (filter (fun n => negb (shouldSkipReturnInMain n)) stmts) ;;
  let header : string := getIndent 1 ++ "public static void main(String[] args) {" in
  let footer : string := getIndent 1 ++ "}" in
  gret (header :: code ++ [footer])%list.

Definition topLevelFunction (scanner : bool) (func : IRNode) : G (list string) :=
  match func with
  | NFunction ((mkFunction name _ _ stmts) as f) =>
      if String.eqb name "main" then mainMethodLines scanner stmts
      else
        code <- generateFunction (mkEnv scanner false) 1 true f ;;
        gret (if isEmpty code then [] else [code])
  | _ => gret []
  end.

Fixpoint topLevelFunctions (scanner : bool) (functions : list IRNode)
  : G (list string) :=
  match functions with
  | [] => gret []
  | f :: rest =>
      l <- topLevelFunction scanner f ;;
      ls <- topLevelFunctions scanner rest ;;
      gret (l ++ ls)%list
  end.

(** [generate(ir, className = 'Main')] *)
Definition generateLines (ir : IRProgram) (className : string) : G (list string) :=
  let scanner := analyzeProgram ir in
  let importLines := if scanner then ["import java.util.Scanner;"; ""] else [] in
  if existsb isIRClass (body ir) then
    code <- pushLinesM (generateNode (mkEnv scanner false) 0) (body ir) ;;
    gret (importLines ++ code)%list
  else
    let functions := filter isIRFunction (body ir) in
    let mainContent := filter (fun n => negb (isIRFunction n)) (body ir) in
    fs <- topLevelFunctions scanner functions ;;
    wrapped <-
      (if negb (existsb CGenerator.isMainFunction functions)
          && negb (Nat.eqb (List.length mainContent) 0)
       then mainMethodLines scanner mainContent
       else gret []) ;;
    let classLine : string := "public class " ++ className ++ " {" in
    let scannerLine : string :=
      getIndent 1 ++ "static Scanner scanner = new Scanner(System.in);" in
    gret (importLines
         ++ [classLine]
         ++ (if scanner then [scannerLine; ""] else [])
         ++ fs ++ wrapped ++ ["}"])%list.

(** The text, or the exception that left [generate]. *)
Definition generate (ir : IRProgram) : Exn + string :=
  lines <- generateLines ir "Main" ;;
  gret (join NL lines).

End JavaGenerator.

(* ================================================================== *)
(** * The orchestrator (index.ts) *)
(* ================================================================== *)

Inductive Language : Type := LPython | LC | LCpp | LJava.

Module Transpiler.
Local Open Scope string_scope.

Record TranspileResult : Type := mkResult {
  success : bool;
  python : option string;
  c : option string;
  cpp : option string;
  java : option string;
  errors : list string
}.

Definition sentinel : string := "// C does not support classes".

Definition isSome {A} (o : option A) : bool :=
  match o with Some _ => true | None => false end.

Definition isNil {A} (l : list A) : bool :=
  match l with [] => true | _ => false end.

(** [mainMethod && node.methods.length === 0 && node.members.length === 0] *)
Definition hasOnlyMainMethod (node : IRClass) : bool :=
  isSome (cls_mainMethod node) && isNil (cls_methods node)
  && isNil (cls_members node).

(** The test under which the loop of [hasNonMainClasses] returns true at
    a class node.  [node.constructor] is the node's own property: each
    front-end that builds a class node writes that key, with
    [undefined] when the class declares no constructor. *)
Definition isRealClass (node : IRClass) : bool :=
  (negb (isNil (cls_methods node)) || negb (isNil (cls_members node))
   || isSome (cls_constructor node))
  && (negb (String.eqb (cls_name node) "Main") || negb (hasOnlyMainMethod node)).

(** [for (const node of ir.body)]: both ways out of the trailing
    [staticMethods] test go on with the next node. *)
Fixpoint hasNonMainClasses_from (nodes : list IRNode) : bool :=
  match nodes with
  | [] => false
  | NClass node :: rest =>
      if isRealClass node then true else hasNonMainClasses_from rest
  | _ :: rest => hasNonMainClasses_from rest
  end.

Definition hasNonMainClasses (ir : IRProgram) : bool :=
  hasNonMainClasses_from (body ir).

Section Orchestrator.
(** The four front-ends and the four back-ends the orchestrator holds. *)
Variables pythonParser cParser cppParser javaParser
  : string -> Outcome IRProgram.
Variables pythonGenerator cGenerator cppGenerator javaGenerator
  : IRProgram -> Exn + string.

Definition parseSource (sourceCode : string) (sourceLanguage : Language)
  : Outcome IRProgram :=
  match sourceLanguage with
  | LPython => pythonParser sourceCode
  | LC => cParser sourceCode
  | LCpp => cppParser sourceCode
  | LJava => javaParser sourceCode
  end.

(** [try { result.t = gen(ir) } catch (e) { errors.push(`T generation error: ${e}`) }] *)
Definition attempt (target : string) (run : Exn + string)
  : option string * list string :=
  match run with
  | inr text => (Some text, [])
  | inl e => (None, [target ++ " generation error: " ++ exnToString e])
  end.

Definition emitAll (ir : IRProgram) : TranspileResult :=
  let hasClasses := hasNonMainClasses ir in
  let '(py, e1) := attempt "Python" (pythonGenerator ir) in
  let '(cc, e2) :=
    attempt "C" (if hasClasses then inr sentinel else cGenerator ir) in
  let '(cx, e3) := attempt "C++" (cppGenerator ir) in
  let '(jv, e4) := attempt "Java" (javaGenerator ir) in
  let errors := (e1 ++ e2 ++ e3 ++ e4)%list in
  mkResult (isNil errors) py cc cx jv errors.

(** [transpile]; [None] when the front-end exhausts its budget, that
    is, when the model does not see [parse] return. *)
Definition transpile (sourceCode : string) (sourceLanguage : Language)
  : option TranspileResult :=
  match parseSource sourceCode sourceLanguage with
  | Returned ir => Some (emitAll ir)
  | Threw error =>
      Some (mkResult false None None None None
                     ["Parse error: " ++ exnToString error])
  | OutOfFuel => None
  end.

End Orchestrator.

(** The orchestrator over the embedded front-ends and the embedded C and
    JV back-ends, at recursion depth [fuel]; the PY and CPP back-ends
    stay parameters. *)
Definition run (fuel : nat)
           (pythonGenerator cppGenerator : IRProgram -> Exn + string)
  : string -> Language -> option TranspileResult :=
  transpile (PythonParser.parse fuel) (CParser.parse fuel)
            (CppParser.parse fuel) (JavaParser.parse fuel)
            pythonGenerator (fun ir => inr (CGenerator.generate ir))
            cppGenerator JavaGenerator.generate.

End Transpiler.


(* ================================================================== *)
(** * Source texts used in the statements below *)
(* ================================================================== *)

Module Scenario.
Import Emit.
Local Open Scope string_scope.

(** The scripting-language scenario: four lines. *)
Definition pythonPrint : string :=
  "print('hi')" ++ NL ++ "x = 10" ++ NL ++ "if x > 5:" ++ NL ++ "    print(x)".

(** A class with one method, declared inside a function. *)
Definition pythonNestedClass : string :=
  "def f():" ++ NL ++ "    class P:" ++ NL ++ "        def m(self):" ++ NL
  ++ "            return 1".


(** The stream statement of the CPP scenario, alone and inside [main]. *)
Definition coutLine : string :=
  "cout << " ++ QQ ++ "x=" ++ QQ ++ " << x << endl;".

Definition coutInMain : string := "int main() { " ++ coutLine ++ " }".

(** A JV class that holds a static [main] and nothing else, under a name
    other than Main. *)
Definition javaShell : string :=
  "class Foo { public static void main(String[] args) { } }".

(** A JV class with a member. *)
Definition javaCounter : string := "class Counter { int n; }".

(** A JV class with a static helper beside its static [main]. *)
Definition javaStaticHelper : string :=
  "class Foo { static int helper(int a) { return a; } "
  ++ "public static void main(String[] args) { } }".

Definition printfStatement (format args : string) : string :=
  "printf(" ++ QQ ++ format ++ QQ ++ args ++ ");".

(** [printf] with the format text x=%d y=%s followed by backslash, n. *)
Definition printfExample : string := printfStatement "x=%d y=%s\n" ", a, b".

(** [printf] with the format text %d followed by backslash, backslash,
    n, n. *)
Definition printfDoubled : string := printfStatement "%d\\nn" ", x".

Definition forInclusive : string := "for (int i = 0; i <= 9; i++) { }".
Definition forStepped : string := "for (int i = 0; i < 10; i += 2) { }".

(** Stand-ins for the PY and CPP back-ends, which this development
    leaves as parameters: one that returns a text, one that throws. *)
Definition returning (text : string) : IRProgram -> Exn + string :=
  fun _ => inr text.

Definition throwing (message : string) : IRProgram -> Exn + string :=
  fun _ => inl (Error message).

(** A C function header with nothing after it. *)
Definition cHeaderOnly : string := "int main()".

(** The same header after a complete declaration. *)
Definition cDeclarationThenHeader : string := "int x = 1; int main()".

(** A C function whose body is a closing parenthesis. *)
Definition cStrayParen : string := "int main() { ) }".

(** The C front-end's state on [cStrayParen] when the next token is the
    parenthesis inside the braces. *)
Definition atStray : Core.PState :=
  Core.mkPState (CParser.tokenize cStrayParen) 5.

(** ** What the front-ends make of these texts *)

Definition pythonPrintIR : IRProgram :=
  mkProgram
    [NPrint [strLit "hi"] true;
     NVariable (mkVariable "x" TInt (Some (intLit 10)));
     NIf (mkIf (NBinaryOp ">" (NIdentifier "x") (intLit 5))
               [NPrint [NIdentifier "x"] true] None None)]
    [].

Definition nestedClass : IRClass :=
  mkClass "P" []
          [mkFunction "m" [] TInt [NReturn (Some (intLit 1))]]
          None None None.

Definition pythonNestedClassIR : IRProgram :=
  mkProgram [NFunction (mkFunction "f" [] TVoid [NClass nestedClass])] [].

Definition coutInMainIR : IRProgram :=
  mkProgram
    [NFunction (mkFunction "main" [] TInt
                  [NPrint [strLit "x="; NIdentifier "x"] true])]
    [].

Definition mainOfFoo : IRFunction :=
  mkFunction "main" [mkVariable "args" TString None] TVoid [].

Definition helperOfFoo : IRFunction :=
  mkFunction "helper" [mkVariable "a" TInt None] TInt
             [NReturn (Some (NIdentifier "a"))].

Definition javaShellIR : IRProgram :=
  mkProgram [NClass (mkClass "Foo" [] [] None (Some mainOfFoo) None)] [].

Definition counterClass : IRClass :=
  mkClass "Counter" [mkVariable "n" TInt None] [] None None None.

Definition javaCounterIR : IRProgram := mkProgram [NClass counterClass] [].

Definition forInclusiveNode : IRNode :=
  NFor (Some (NVariable (mkVariable "i" TInt (Some (intLit 0)))))
       (Some (NBinaryOp "<=" (NIdentifier "i") (intLit 9)))
       (Some (NUnaryOp "++_post" (NIdentifier "i")))
       (Some "i") (Some (intLit 0))
       (Some (NBinaryOp "+" (intLit 9) (intLit 1)))
       (Some (intLit 1)) [].

Definition forSteppedNode : IRNode :=
  NFor (Some (NVariable (mkVariable "i" TInt (Some (intLit 0)))))
       (Some (NBinaryOp "<" (NIdentifier "i") (intLit 10)))
       (Some (NBinaryOp "+=" (NIdentifier "i") (intLit 2)))
       (Some "i") (Some (intLit 0)) (Some (intLit 10))
       (Some (intLit 2)) [].

(** The text of the one error entry a front-end's TypeError on a
    missing token leaves in the result. *)
Definition parseErrorOnNull : string :=
  "Parse error: TypeError: Cannot read properties of null (reading 'type')".

End Scenario.

(* ================================================================== *)
(** * The page and the execution service
      (components/TranspilerApp.tsx, lib/api/piston.ts) *)
(* ================================================================== *)

Module App.
Import Transpiler.
Local Open Scope string_scope.

(** [Record<string, T>] over the language keys: the entries in the
    order of their first assignment. *)
Definition Rec (T : Type) : Type := list (Language * T).

Definition Language_eqb (a b : Language) : bool :=
  match a, b with
  | LPython, LPython | LC, LC | LCpp, LCpp | LJava, LJava => true
  | _, _ => false
  end.

(** [m[lang]] *)
Fixpoint lookup {T} (m : Rec T) (lang : Language) : option T :=
  match m with
  | [] => None
  | (k, v) :: rest => if Language_eqb k lang then Some v else lookup rest lang
  end.

(** [m[lang] = v]: the value of a key already there is replaced where it
    is, a new key goes to the end. *)
Fixpoint assign {T} (m : Rec T) (lang : Language) (v : T) : Rec T :=
  match m with
  | [] => [(lang, v)]
  | (k, w) :: rest =>
      if Language_eqb k lang then (k, v) :: rest
      else (k, w) :: assign rest lang v
  end.

Definition allLanguages : list Language := [LPython; LC; LCpp; LJava].

(** [result[lang]] *)
Definition resultOf (result : TranspileResult) (lang : Language)
  : option string :=
  match lang with
  | LPython => python result
  | LC => c result
  | LCpp => cpp result
  | LJava => java result
  end.

(** [code && !code.startsWith('//')] on a text *)
Definition runnable (code : string) : bool :=
  match code with
  | EmptyString => false
  | _ => negb (startsWith code "//")
  end.

(** The same test on [string | undefined]: the code is entered under
    its language when it passes. *)
Definition enter (codes : Rec string) (lang : Language) (code : option string)
  : Rec string :=
  match code with
  | Some code => if runnable code then assign codes lang code else codes
  | None => codes
  end.

(** [handleVerify]: the codes handed to the reviewing service. *)
Definition verifyCodes (sourceLanguage : Language) (result : TranspileResult)
  : Rec string :=
  fold_left (fun codes lang =>
               if negb (Language_eqb lang sourceLanguage)
               then enter codes lang (resultOf result lang)
               else codes)
            allLanguages [].

Record VerifyResult : Type := mkVerifyResult {
  correctedCode : string;
  issues : list string
}.

(** [verifiedCode || originalCode] *)
Definition orElse (verifiedCode originalCode : option string) : option string :=
  match verifiedCode with
  | Some EmptyString | None => originalCode
  | Some v => Some v
  end.

(** [handleRunAll]: the codes handed to [executeAllCode], the source
    text first. *)
Definition runCodes (sourceLanguage : Language) (sourceCode : string)
           (result : TranspileResult) (verifyResults : Rec VerifyResult)
  : Rec string :=
  fold_left (fun codes lang =>
               if negb (Language_eqb lang sourceLanguage) then
                 let verifiedCode :=
                   option_map correctedCode (lookup verifyResults lang) in
                 let originalCode := resultOf result lang in
                 enter codes lang (orElse verifiedCode originalCode)
               else codes)
            allLanguages (assign [] sourceLanguage sourceCode).

Record ExecutionResult : Type := mkExecutionResult {
  output : string;
  error : string;
  exitCode : Z
}.

(** [error.message] *)
Definition exnMessage (e : Exn) : string :=
  match e with TypeError m | Error m => m end.

Section Service.
(** What [executeCode] settles to on a code and a language: the result
    the service answers with, or the error the request is rejected
    with. *)
Variable executeCode : string -> Language -> Exn + ExecutionResult.

(** [try { results[lang] = await executeCode(code, lang) } catch ...] *)
Definition settle (code : string) (lang : Language) : ExecutionResult :=
  match executeCode code lang with
  | inr r => r
  | inl e => mkExecutionResult "" (exnMessage e) (-1)
  end.

(** [executeAllCode]: one request for every entry that passes the test.
    The requests run side by side and each writes its own key, so the
    value found under a key does not depend on the order in which they
    finish; the entries are listed here in the order of the requests. *)
Definition executeAllCode (codes : Rec string) : Rec ExecutionResult :=
  fold_left (fun results '(lang, code) => assign results lang (settle code lang))
            (filter (fun '(_, code) => runnable code) codes) [].

End Service.

End App.


(* ================================================================== *)
(** * Predicates and measures used in the statements below *)
(* ================================================================== *)

Module Shapes.
Import CParser.
Local Open Scope string_scope.

(** The three forms a top-level entry of a C translation unit takes. *)
Definition topForm (node : IRNode) : Prop :=
  match node with
  | NComment _ _ | NFunction _ | NVariable _ => True
  | _ => False
  end.

(** The texts of the parts of a format, put back together. *)
Definition texts (parts : list FormatPart) : string :=
  fold_right String.append EmptyString (map text parts).

(** A directive part is a percent sign and one directive letter; a text
    part is never empty. *)
Definition wellFormedPart (p : FormatPart) : Prop :=
  if isFormat p
  then exists d, In d directives /\ text p = String percent (str1 d)
  else text p <> EmptyString.

(** What the value of a token of each kind looks like. *)
Definition tokenShape (cfg : Lexer.Config) (t : Token) : Prop :=
  match ttype t with
  | PREPROCESSOR => exists r, value t = String (ch 35) r
  | STRING => exists inner, value t = String dquote (inner ++ str1 dquote)
  | CHAR => exists inner, value t = String squote (inner ++ str1 squote)
  | NUMBER => exists d r, value t = String d r /\ isDigit d = true
  | KEYWORD => mem (value t) (Lexer.keywords cfg) = true
  | IDENTIFIER => mem (value t) (Lexer.keywords cfg) = false
  | OPERATOR => In (value t) (Lexer.operators cfg)
  | PUNCTUATION => String.length (value t) = 1
  | _ => True
  end.

(** A text of white space only (the empty text included). *)
Fixpoint isBlank (s : string) : bool :=
  match s with
  | EmptyString => true
  | String c r => isSpace c && isBlank r
  end.

Definition isNewline (t : PyToken) : bool := TokenType_eqb (py_type t) NEWLINE.

(** A line with something other than white space on it. *)
Definition nonBlank (line : string) : bool :=
  negb (Nat.eqb (String.length (trim line)) 0).

Definition named_init (o : option IRFunction) : Prop :=
  forall f, o = Some f -> fn_name f = "__init__".

(** A text with no double quote and no backslash in it. *)
Fixpoint isPlain (s : string) : bool :=
  match s with
  | EmptyString => true
  | String c r => negb (Ascii.eqb c dquote) && negb (Ascii.eqb c backslash)
                  && isPlain r
  end.

(** The Program without its top-level statements: only functions and
    classes are kept. *)
Definition withoutStatements (ir : IRProgram) : IRProgram :=
  mkProgram (filter (fun n => isIRFunction n || isIRClass n) (body ir))
            (imports ir).












End Shapes.

(* ================================================================== *)
(** * More source texts *)
(* ================================================================== *)

Module Samples.
Import Emit.
Local Open Scope string_scope.

(** A loop that counts down. *)
Definition countdown : string := "for (int i = 10; i > 0; i--) { }".

(** A C unit with a variable beside its main function. *)
Definition globalBesideMain : string := "int g = 5; int main() { return g; }".

Definition globalBesideMainIR : IRProgram :=
  mkProgram
    [NVariable (mkVariable "g" TInt (Some (intLit 5)));
     NFunction (mkFunction "main" [] TInt
                  [NReturn (Some (NIdentifier "g"))])]
    [].

(** Two blanks, a line feed, a tab. *)
Definition blankText : string := "  " ++ NL ++ str1 (ch 9).

(** A JV class with a constructor. *)
Definition javaWithConstructor : string :=
  "class Counter { int n; Counter() { } }".


(** An execution service that cannot be reached. *)
Definition offline : string -> Language -> Exn + App.ExecutionResult :=
  fun _ _ => inl (Error "Failed to fetch").

End Samples.


(* ================================================================== *)
(** * Properties *)
(* ================================================================== *)

Module MonadFacts.

Lemma bind_Returned {S A B} (m : M S A) (k : A -> M S B) s x :
  bind m k s = Returned x ->
  exists a s', m s = Returned (a, s') /\ k a s' = Returned x.
Proof.
  unfold bind. destruct (m s) as [[a s']| |]; try discriminate. eauto.
Qed.

Lemma ret_Returned {S A} (a : A) (s : S) x :
  ret a s = Returned x -> x = (a, s).
Proof. unfold ret. congruence. Qed.

Lemma bind_OutOfFuel {S A B} (m : M S A) (k : A -> M S B) s :
  m s = OutOfFuel -> bind m k s = OutOfFuel.
Proof. unfold bind. now intros ->. Qed.

End MonadFacts.

(** Splits a run that returned into the runs of its steps, down to the
  final [ret]. *)
Ltac bind_inv H :=
repeat (apply MonadFacts.bind_Returned in H;
        let a := fresh "a" in
        let s := fresh "s" in
        let E := fresh "E" in
        destruct H as (a & s & E & H)).

Module JSFacts.

(** Numbers are doubles: a numeral past 2^53 reads as the nearest
    double, and [String(n)] prints the shortest decimal that reads back,
    in exponent form from 1e21 on and below 1e-6. *)
Lemma numbers_are_doubles :
  parseInt "9007199254740993" = JsInt 9007199254740992
  /\ numberToString (parseInt "1152921504606846976") = "1152921504606847000"
  /\ numberToString (parseInt "100000000000000000000000") = "1e+23"
  /\ numberToString (parseFloat "0.0000001") = "1e-7"
  /\ numberToString (parseFloat "0.000001") = "0.000001"
  /\ numberToString (parseFloat "0.1234567890123456789")
     = "0.12345678901234568"
  /\ numberToString (parseFloat "2.50") = "2.5"
  /\ numberToString (parseInt "10L") = "10".
Proof. repeat split; vm_compute; reflexivity. Qed.

(** A type name that is a property of [Object.prototype] maps to the
    inherited value, which every later lookup takes for an unknown
    type. *)
Lemma inherited_type_names :
  CParser.mapCType "constructor" = TProto "constructor"
  /\ CppParser.mapCppType "toString" = TProto "toString"
  /\ JavaParser.mapJavaType "valueOf" = TProto "valueOf"
  /\ PythonParser.mapPythonType "constructor" = TProto "constructor"
  /\ CParser.mapCType "size_t" = TInt
  /\ CGenerator.mapType (TProto "constructor") false = "int"
  /\ JavaGenerator.mapType (TProto "constructor") false false = "Object".
Proof. repeat split; reflexivity. Qed.

(** Every statement of an else branch is written. *)
Lemma else_branch_is_emitted :
  CGenerator.generateIf 0
    (mkIf (NIdentifier "x") []
          (Some [NReturn (Some (intLit 1)); NReturn None]) None)
  = ("if (x) {" ++ Emit.NL ++ "} else {" ++ Emit.NL
     ++ "    return 1;" ++ Emit.NL ++ "    return;" ++ Emit.NL ++ "}")%string.
Proof. vm_compute. reflexivity. Qed.

End JSFacts.

Module LexerFacts.

Lemma dropWhile_length p s : String.length (dropWhile p s) <= String.length s.
Proof.
  induction s as [|c r IH]; simpl; [lia|].
  destruct (p c); simpl; lia.
Qed.

Lemma dropWhile_head p c r :
  p c = true -> String.length (dropWhile p (String c r)) <= String.length r.
Proof. intros H. simpl. rewrite H. apply dropWhile_length. Qed.

Lemma drop_length n s : String.length (drop n s) <= String.length s.
Proof.
  revert s. induction n as [|n IH]; intros [|c r]; simpl; try lia.
  specialize (IH r). lia.
Qed.

Lemma drop_length_exact n s :
  n <= String.length s -> String.length (drop n s) = String.length s - n.
Proof.
  revert s. induction n as [|n IH]; intros [|c r]; simpl; intros; try lia.
  apply IH. lia.
Qed.

Lemma prefix_length p s : String.prefix p s = true -> String.length p <= String.length s.
Proof.
  revert s. induction p as [|a p IH]; intros [|b s]; simpl; intros H; try lia; try discriminate.
  destruct (Ascii.ascii_dec a b); [|discriminate]. apply IH in H. lia.
Qed.

Lemma scanBlockComment_eq a b r :
  Lexer.scanBlockComment (String a (String b r)) =
  if Ascii.eqb a (ch 42) && Ascii.eqb b (ch 47) then (EmptyString, r)
  else let '(c, rest) := Lexer.scanBlockComment (String b r) in (String a c, rest).
Proof. reflexivity. Qed.

Lemma scanBlockComment_length s :
  String.length (snd (Lexer.scanBlockComment s)) <= String.length s.
Proof.
  induction s as [|a s IH]; [simpl; lia|].
  destruct s as [|b r]; [simpl; lia|].
  rewrite scanBlockComment_eq.
  destruct (Ascii.eqb a (ch 42) && Ascii.eqb b (ch 47)); [simpl; lia|].
  destruct (Lexer.scanBlockComment (String b r)) as [cm rest].
  simpl in *. lia.
Qed.

Lemma scanQuoted_length g q s :
  String.length (snd (Lexer.scanQuoted g q s)) <= String.length s.
Proof.
  remember (String.length s) as n eqn:Hn.
  revert s Hn. induction n as [n IH] using lt_wf_ind. intros s Hn.
  destruct s as [|a r]; simpl; try lia.
  destruct (Ascii.eqb a q); simpl; [simpl in Hn; lia|].
  destruct (Ascii.eqb a backslash).
  - destruct r as [|d r']; simpl; [lia|].
    specialize (IH (String.length r') ltac:(simpl in *; lia) r' eq_refl).
    destruct (Lexer.scanQuoted g q r') as [t rest]. simpl in *. lia.
  - specialize (IH (String.length r) ltac:(simpl in *; lia) r eq_refl).
    destruct (Lexer.scanQuoted g q r) as [t rest]. simpl in *. lia.
Qed.

Lemma scanNumber_length sfx s n rest :
  Lexer.scanNumber sfx s = Some (n, rest) -> String.length rest < String.length s.
Proof.
  unfold Lexer.scanNumber. destruct s as [|c r]; [discriminate|].
  destruct (isDigit c) eqn:Hd; [|discriminate].
  pose proof (dropWhile_head isDigit c r Hd) as H1.
  remember (dropWhile isDigit (String c r)) as r1 eqn:E1. clear E1.
  set (p := match r1 with
            | String d r0 => if Ascii.eqb d (ch 46) then (str1 d, r0) else (EmptyString, r1)
            | EmptyString => (EmptyString, r1)
            end).
  assert (H2 : String.length (snd p) <= String.length r1).
  { subst p. destruct r1 as [|d r0]; simpl; [lia|].
    destruct (Ascii.eqb d (ch 46)); simpl; lia. }
  destruct p as [dot r2]. simpl in H2.
  pose proof (dropWhile_length isDigit r2) as H3.
  remember (dropWhile isDigit r2) as r3 eqn:E3. clear E3.
  set (q := match r3 with
            | String d r0 => if memc d sfx then (str1 d, r0) else (EmptyString, r3)
            | EmptyString => (EmptyString, r3)
            end).
  assert (H4 : String.length (snd q) <= String.length r3).
  { subst q. destruct r3 as [|d r0]; simpl; [lia|].
    destruct (memc d sfx); simpl; lia. }
  destruct q as [sf r4]. simpl in H4.
  intros H. injection H as _ Hr. subst rest. simpl String.length. lia.
Qed.

Lemma scanWord_length s w rest :
  Lexer.scanWord s = Some (w, rest) -> String.length rest < String.length s.
Proof.
  unfold Lexer.scanWord. destruct s as [|c r]; [discriminate|].
  destruct (isWordStart c) eqn:Hw; [|discriminate].
  assert (Hc : isWordChar c = true) by (unfold isWordChar; rewrite Hw; reflexivity).
  pose proof (dropWhile_head isWordChar c r Hc) as Hl.
  remember (dropWhile isWordChar (String c r)) as d eqn:E. clear E.
  intros H. injection H as _ Hr. subst rest. simpl String.length. lia.
Qed.

Lemma matchOp_In ops s op :
  Lexer.matchOp ops s = Some op -> In op ops /\ String.prefix op s = true.
Proof.
  induction ops as [|o ops IH]; simpl; [discriminate|].
  destruct (String.prefix o s) eqn:Hp.
  - intros H. inversion H; subst. auto.
  - intros H. destruct (IH H). auto.
Qed.

(** A configuration whose operator table has no empty entry. *)
(** Closes a branch of a scanner that returns the input [X] as what
    is left, with the bound on [X] already in context. *)
Ltac left_over X :=
  let d := fresh "d" in
  let E := fresh "E" in
  remember X as d eqn:E; clear E;
  let H := fresh "H" in
  intros H; injection H as _ <-; lia.

Lemma step_progress cfg s ot rest :
  Lexer.wellFormed cfg ->
  Lexer.step cfg s = Some (ot, rest) -> String.length rest < String.length s.
Proof.
  intros Hwf. unfold Lexer.step. destruct s as [|c r]; [discriminate|].
  change (String.length (String c r)) with (S (String.length r)).
  destruct (isSpace c); [intros H; injection H as _ <-; lia|].
  destruct (Lexer.preprocessor cfg && Ascii.eqb c (ch 35)) eqn:Hpre.
  { apply andb_true_iff in Hpre. destruct Hpre as [_ Hc].
    apply Ascii.eqb_eq in Hc. subst c.
    pose proof (dropWhile_head Lexer.notLF (ch 35) r eq_refl) as Hl.
    left_over (dropWhile Lexer.notLF (String (ch 35) r)). }
  destruct (String.prefix "//" (String c r)) eqn:Hsl.
  { apply prefix_length in Hsl.
    pose proof (dropWhile_length Lexer.notLF (drop 2 (String c r))) as Hd.
    pose proof (drop_length_exact 2 (String c r) Hsl) as He.
    change (String.length (String c r)) with (S (String.length r)) in *.
    change (String.length "//") with 2 in *.
    left_over (dropWhile Lexer.notLF (drop 2 (String c r))). }
  destruct (String.prefix "/*" (String c r)) eqn:Hbc.
  { apply prefix_length in Hbc.
    pose proof (scanBlockComment_length (drop 2 (String c r))) as Hl.
    pose proof (drop_length_exact 2 (String c r) Hbc) as He.
    change (String.length (String c r)) with (S (String.length r)) in *.
    change (String.length "/*") with 2 in *.
    destruct (Lexer.scanBlockComment (drop 2 (String c r))) as [cm rs].
    cbn [snd] in Hl. intros H; injection H as _ <-. lia. }
  destruct (Ascii.eqb c dquote).
  { pose proof (scanQuoted_length (Lexer.guardedEscape cfg) dquote r) as Hl.
    destruct (Lexer.scanQuoted (Lexer.guardedEscape cfg) dquote r) as [t rs].
    cbn [snd] in Hl. intros H; injection H as _ <-. lia. }
  destruct (Ascii.eqb c squote).
  { pose proof (scanQuoted_length (Lexer.guardedEscape cfg) squote r) as Hl.
    destruct (Lexer.scanQuoted (Lexer.guardedEscape cfg) squote r) as [t rs].
    cbn [snd] in Hl. intros H; injection H as _ <-. lia. }
  destruct (Lexer.scanNumber (Lexer.numberSuffixes cfg) (String c r)) as [[n rs]|] eqn:Hn.
  { apply scanNumber_length in Hn.
    change (String.length (String c r)) with (S (String.length r)) in Hn.
    intros H; injection H as _ <-. lia. }
  destruct (Lexer.scanWord (String c r)) as [[w rs]|] eqn:Hw.
  { apply scanWord_length in Hw.
    change (String.length (String c r)) with (S (String.length r)) in Hw.
    intros H; injection H as _ <-. lia. }
  destruct (Lexer.matchOp (Lexer.operators cfg) (String c r)) as [op|] eqn:Hop.
  { apply matchOp_In in Hop. destruct Hop as [Hin Hp].
    pose proof (Hwf op Hin) as Hne.
    pose proof (prefix_length _ _ Hp) as Hl.
    pose proof (drop_length_exact _ _ Hl) as He.
    change (String.length (String c r)) with (S (String.length r)) in *.
    assert (0 < String.length op) by (destruct op; [congruence|simpl; lia]).
    left_over (drop (String.length op) (String c r)). }
  intros H; injection H as _ <-. lia.
Qed.

Lemma run_total cfg :
  Lexer.wellFormed cfg ->
  forall fuel s, String.length s < fuel -> exists toks, Lexer.run cfg fuel s = Some toks.
Proof.
  intros Hwf. induction fuel as [|n IH]; intros s Hlt; [lia|].
  simpl. destruct (Lexer.step cfg s) as [[ot rest]|] eqn:Hs.
  - apply step_progress in Hs; [|assumption].
    destruct (IH rest ltac:(lia)) as [l Hl]. rewrite Hl. eauto.
  - eauto.
Qed.

(** Past [length s] rounds the budget no longer matters. *)
Lemma run_fuel cfg :
  Lexer.wellFormed cfg ->
  forall n m s, String.length s < n -> String.length s < m ->
                Lexer.run cfg n s = Lexer.run cfg m s.
Proof.
  intros Hwf. induction n as [|n IH]; intros m s Hn Hm; [lia|].
  destruct m as [|m]; [lia|]. simpl.
  destruct (Lexer.step cfg s) as [[ot rest]|] eqn:Hs; [|reflexivity].
  apply step_progress in Hs; [|assumption].
  rewrite (IH m rest) by lia. reflexivity.
Qed.

Lemma tokenize_step cfg s ot rest :
  Lexer.wellFormed cfg ->
  Lexer.step cfg s = Some (ot, rest) ->
  Lexer.tokenize cfg s =
  match ot with
  | Some t => t :: Lexer.tokenize cfg rest
  | None => Lexer.tokenize cfg rest
  end.
Proof.
  intros Hwf Hs. unfold Lexer.tokenize.
  pose proof (step_progress _ _ _ _ Hwf Hs) as Hlt.
  change (Lexer.run cfg (S (String.length s)) s)
    with (match Lexer.step cfg s with
          | None => Some []
          | Some (ot, rest) =>
              match Lexer.run cfg (String.length s) rest with
              | Some l => Some (match ot with Some t => t :: l | None => l end)
              | None => None
              end
          end).
  rewrite Hs.
  rewrite (run_fuel cfg Hwf (String.length s) (S (String.length rest)) rest) by lia.
  destruct (run_total cfg Hwf (S (String.length rest)) rest ltac:(lia)) as [l Hl].
  rewrite Hl. destruct ot; reflexivity.
Qed.


Lemma wellFormed_c : Lexer.wellFormed CParser.config.
Proof.
  intros op Hin. simpl in Hin.
  repeat (destruct Hin as [<-|Hin]; [discriminate|]). contradiction.
Qed.

Lemma wellFormed_cpp : Lexer.wellFormed CppParser.config.
Proof.
  intros op Hin. simpl in Hin.
  repeat (destruct Hin as [<-|Hin]; [discriminate|]). contradiction.
Qed.

Lemma wellFormed_java : Lexer.wellFormed JavaParser.config.
Proof.
  intros op Hin. simpl in Hin.
  repeat (destruct Hin as [<-|Hin]; [discriminate|]). contradiction.
Qed.

End LexerFacts.


Module PyLexerFacts.
Import LexerFacts.

Lemma takeWhile_length p s : String.length (takeWhile p s) <= String.length s.
Proof.
  induction s as [|c r IH]; simpl; [lia|].
  destruct (p c); simpl; lia.
Qed.

Lemma py_scanQuoted_length q s t rest :
  PyLexer.scanQuoted q s = Some (t, rest) -> String.length rest < String.length s.
Proof.
  remember (String.length s) as n eqn:Hn.
  revert s t rest Hn. induction n as [n IH] using lt_wf_ind. intros s t rest Hn.
  destruct s as [|a r]; [discriminate|].
  cbn [PyLexer.scanQuoted].
  destruct (Ascii.eqb a q); [intros H; injection H as _ <-; simpl in Hn; lia|].
  destruct (Ascii.eqb a backslash).
  - destruct r as [|d r']; [discriminate|].
    destruct (isLineTerminator d); [discriminate|].
    destruct (PyLexer.scanQuoted q r') as [[t' rest']|] eqn:Hr; [|discriminate].
    apply (IH (String.length r')) in Hr; [|simpl in Hn; lia|reflexivity].
    intros H; injection H as _ <-. simpl in Hn. lia.
  - destruct (PyLexer.scanQuoted q r) as [[t' rest']|] eqn:Hr; [|discriminate].
    apply (IH (String.length r)) in Hr; [|simpl in Hn; lia|reflexivity].
    intros H; injection H as _ <-. simpl in Hn. lia.
Qed.

Lemma stringMatch_length s v rest :
  PyLexer.stringMatch s = Some (v, rest) -> String.length rest < String.length s.
Proof.
  unfold PyLexer.stringMatch. destruct s as [|q r]; [discriminate|].
  destruct (PyLexer.isQuote q); [|discriminate].
  destruct (PyLexer.scanQuoted q r) as [[t rest']|] eqn:Hr; [|discriminate].
  apply py_scanQuoted_length in Hr.
  intros H; injection H as _ <-. simpl. lia.
Qed.

Lemma fStringMatch_length s v rest :
  PyLexer.fStringMatch s = Some (v, rest) -> String.length rest < String.length s.
Proof.
  unfold PyLexer.fStringMatch. destruct s as [|f r]; [discriminate|].
  destruct (Ascii.eqb f (ch 102)); [|discriminate].
  destruct (PyLexer.stringMatch r) as [[t rest']|] eqn:Hr; [|discriminate].
  apply stringMatch_length in Hr.
  intros H; injection H as _ <-. simpl. lia.
Qed.

Lemma scanTriple_length q3 s t rest :
  PyLexer.scanTriple q3 s = Some (t, rest) -> String.length rest <= String.length s.
Proof.
  revert t rest. induction s as [|c r IH]; intros t rest.
  - cbn [PyLexer.scanTriple]. destruct (String.prefix q3 ""); [|discriminate].
    intros H; injection H as _ <-. simpl. lia.
  - cbn [PyLexer.scanTriple]. destruct (String.prefix q3 (String c r)).
    + pose proof (drop_length 3 (String c r)) as Hd.
      left_over (drop 3 (String c r)).
    + destruct (PyLexer.scanTriple q3 r) as [[t' rest']|] eqn:Hr; [|discriminate].
      specialize (IH _ _ eq_refl).
      intros H; injection H as _ <-. simpl. lia.
Qed.

Lemma tripleQuoted_length q3 s v rest :
  q3 <> EmptyString ->
  PyLexer.tripleQuoted q3 s = Some (v, rest) -> String.length rest < String.length s.
Proof.
  intros Hq. unfold PyLexer.tripleQuoted.
  set (p := match s with
            | String c r => if Ascii.eqb c (ch 102) then (str1 c, r) else (EmptyString, s)
            | EmptyString => (EmptyString, s)
            end).
  assert (Hp : String.length (snd p) <= String.length s).
  { subst p. destruct s as [|c r]; simpl; [lia|].
    destruct (Ascii.eqb c (ch 102)); simpl; lia. }
  destruct p as [f s']. cbn [snd] in Hp.
  destruct (String.prefix q3 s') eqn:Hpre; [|discriminate].
  assert (Hs' : 0 < String.length s').
  { apply prefix_length in Hpre. destruct q3; [congruence|]. simpl in Hpre. lia. }
  destruct (PyLexer.scanTriple q3 (drop 3 s')) as [[t rest']|] eqn:Hr; [|discriminate].
  apply scanTriple_length in Hr.
  assert (String.length (drop 3 s') < String.length s').
  { destruct s' as [|a s']; [simpl in Hs'; lia|].
    change (drop 3 (String a s')) with (drop 2 s').
    pose proof (drop_length 2 s').
    change (String.length (String a s')) with (S (String.length s')). lia. }
  intros Hv; injection Hv as _ <-. lia.
Qed.

Lemma tripleMatch_length s v rest :
  PyLexer.tripleMatch s = Some (v, rest) -> String.length rest < String.length s.
Proof.
  unfold PyLexer.tripleMatch.
  destruct (PyLexer.tripleQuoted _ s) as [m|] eqn:H1.
  - intros H; injection H as ->. eapply tripleQuoted_length; [|exact H1]. discriminate.
  - intros H. eapply tripleQuoted_length; [|exact H]. discriminate.
Qed.

Lemma operators_nonempty op : In op PyLexer.operators -> 0 < String.length op.
Proof.
  intros Hin. simpl in Hin.
  repeat (destruct Hin as [<-|Hin]; [simpl; lia|]). contradiction.
Qed.

(** Every round of the inner loop consumes input or ends the line. *)
Lemma py_step_progress remaining :
  match PyLexer.step remaining with
  | Some (PyLexer.Skip k) => 0 < k <= String.length remaining
  | Some (PyLexer.Emit _ _ rest) => String.length rest < String.length remaining
  | _ => True
  end.
Proof.
  unfold PyLexer.step. destruct remaining as [|c r]; [exact I|].
  destruct (isSpace c) eqn:Hs.
  { pose proof (takeWhile_length isSpace (String c r)).
    split; [simpl; rewrite Hs; simpl; lia|assumption]. }
  destruct (Ascii.eqb c (ch 35)); [exact I|].
  destruct (PyLexer.fStringMatch (String c r)) as [[v rest]|] eqn:H1.
  { eapply fStringMatch_length; eauto. }
  destruct (PyLexer.stringMatch (String c r)) as [[v rest]|] eqn:H2.
  { eapply stringMatch_length; eauto. }
  destruct (PyLexer.tripleMatch (String c r)) as [[v rest]|] eqn:H3.
  { eapply tripleMatch_length; eauto. }
  destruct (Lexer.scanNumber [] (String c r)) as [[v rest]|] eqn:H4.
  { eapply scanNumber_length; eauto. }
  destruct (Lexer.scanWord (String c r)) as [[v rest]|] eqn:H5.
  { eapply scanWord_length; eauto. }
  destruct (Lexer.matchOp PyLexer.operators (String c r)) as [op|] eqn:H6.
  { apply matchOp_In in H6. destruct H6 as [Hin Hp].
    pose proof (operators_nonempty op Hin).
    pose proof (prefix_length _ _ Hp) as Hl.
    rewrite (drop_length_exact _ _ Hl). lia. }
  destruct (memc c PyLexer.punctuation); simpl; lia.
Qed.

Lemma lineLoop_total fuel lineNum lineIndent col remaining :
  String.length remaining < fuel ->
  exists r, PyLexer.lineLoop fuel lineNum lineIndent col remaining = Some r.
Proof.
  revert col remaining. induction fuel as [|n IH]; intros col remaining Hlt; [lia|].
  cbn [PyLexer.lineLoop].
  pose proof (py_step_progress remaining) as Hp.
  destruct (PyLexer.step remaining) as [[k|t v rest|v]|]; eauto.
  - apply IH. rewrite drop_length_exact by lia. lia.
  - destruct (IH (col + String.length v) rest ltac:(lia)) as [[l col'] Hl].
    rewrite Hl. eauto.
Qed.

Lemma linesLoop_total lines :
  forall lineNum, exists toks, PyLexer.linesLoop lineNum lines = Some toks.
Proof.
  induction lines as [|line rest IH]; intros lineNum; [simpl; eauto|].
  cbn [PyLexer.linesLoop].
  destruct (Nat.eqb (String.length (trim line)) 0); [apply IH|].
  pose proof (drop_length (String.length (takeWhile isSpace line)) line) as Hd.
  destruct (lineLoop_total (S (String.length line)) lineNum
              (String.length (takeWhile isSpace line))
              (String.length (takeWhile isSpace line))
              (drop (String.length (takeWhile isSpace line)) line) ltac:(lia))
    as [[toks col] Hl].
  rewrite Hl. destruct (IH (S lineNum)) as [l Hr]. rewrite Hr. eauto.
Qed.

End PyLexerFacts.

Module PrintfFacts.
Import Core CParser PrintfSpec.

Lemma pushLiteral_app args cs : pushLiteral args cs = (args ++ keptLiteral cs)%list.
Proof.
  unfold pushLiteral, keptLiteral. destruct cs as [|c r].
  - simpl. now rewrite app_nil_r.
  - destruct (cleanStr (String c r)); [now rewrite app_nil_r|reflexivity].
Qed.

Lemma convertParts_flush cur parts vals args idx :
  convertParts (flushCurrent cur ++ parts) vals args idx EmptyString
  = convertParts parts vals args idx cur.
Proof. destruct cur; reflexivity. Qed.

Lemma skipn_nth_Some {A} (l : list A) i a :
  nth_error l i = Some a -> skipn i l = a :: skipn (S i) l.
Proof.
  revert l. induction i as [|i IH]; intros [|x l]; simpl; try discriminate.
  - congruence.
  - intros H. now apply IH.
Qed.

Lemma skipn_nth_None {A} (l : list A) i :
  nth_error l i = None -> skipn i l = [].
Proof.
  revert l. induction i as [|i IH]; intros [|x l]; simpl; try discriminate; auto.
Qed.

Lemma literalSegments_from_cons fmt cur :
  exists first rest, literalSegments_from fmt cur = first :: rest.
Proof.
  remember (String.length fmt) as n eqn:Hn.
  revert fmt cur Hn. induction n as [n IH] using lt_wf_ind. intros fmt cur Hn.
  destruct fmt as [|c rest]; [simpl; eauto|].
  cbn [literalSegments_from].
  destruct (Ascii.eqb c percent).
  - destruct rest as [|d rest'].
    + simpl; eauto.
    + destruct (memc d directives); [eauto|].
      destruct (Ascii.eqb d percent).
      * eapply (IH (String.length rest')); [simpl in Hn; lia|reflexivity].
      * eapply (IH (String.length (String d rest'))); [simpl in *; lia|reflexivity].
  - eapply (IH (String.length rest)); [simpl in Hn; lia|reflexivity].
Qed.

Lemma convertParts_interleave vals fmt :
  forall cur args idx,
    convertParts (parsePrintfFormat_from fmt cur) vals args idx EmptyString
    = (args ++ interleave (literalSegments_from fmt cur) (skipn idx vals))%list.
Proof.
  remember (String.length fmt) as n eqn:Hn.
  revert fmt Hn. induction n as [n IH] using lt_wf_ind. intros fmt Hn cur args idx.
  destruct fmt as [|c rest].
  - cbn [parsePrintfFormat_from literalSegments_from interleave alternate].
    rewrite <- (app_nil_r (flushCurrent cur)), convertParts_flush.
    cbn [convertParts]. rewrite pushLiteral_app, app_nil_r. reflexivity.
  - cbn [parsePrintfFormat_from literalSegments_from].
    assert (Hrest : forall cur args idx,
               convertParts (parsePrintfFormat_from rest cur) vals args idx EmptyString
               = (args ++ interleave (literalSegments_from rest cur) (skipn idx vals))%list).
    { intros. eapply (IH (String.length rest)); [simpl in Hn; lia|reflexivity]. }
    destruct (Ascii.eqb c percent); [|apply Hrest].
    destruct rest as [|d rest']; [apply Hrest|].
    assert (Hrest' : forall cur args idx,
               convertParts (parsePrintfFormat_from rest' cur) vals args idx EmptyString
               = (args ++ interleave (literalSegments_from rest' cur) (skipn idx vals))%list).
    { intros. eapply (IH (String.length rest')); [simpl in Hn; lia|reflexivity]. }
    destruct (memc d directives).
    + rewrite convertParts_flush. cbn [convertParts isFormat].
      rewrite pushLiteral_app. cbn [interleave].
      destruct (literalSegments_from_cons rest' EmptyString) as (h & t & Hs).
      destruct (nth_error vals idx) as [a|] eqn:Hnth.
      * rewrite Hrest', Hs. cbn [interleave alternate].
        rewrite (skipn_nth_Some _ _ _ Hnth).
        rewrite <- !app_assoc. reflexivity.
      * rewrite Hrest', Hs. cbn [interleave alternate].
        rewrite (skipn_nth_None _ _ Hnth).
        rewrite <- !app_assoc. reflexivity.
    + destruct (Ascii.eqb d percent); [apply Hrest'|apply Hrest].
Qed.

Lemma printfArgs_interleave fmt vals :
  printfArgs fmt vals = interleave (literalSegments fmt) vals.
Proof.
  unfold printfArgs, parsePrintfFormat, literalSegments.
  rewrite convertParts_interleave. reflexivity.
Qed.

End PrintfFacts.

Module CleanFacts.
Import CParser.

Lemma includes_cons s c p :
  includes (String c s) p = String.prefix p (String c s) || includes s p.
Proof. cbn [includes]. destruct (String.prefix p (String c s)); reflexivity. Qed.

Lemma prefix_escape s :
  String.prefix "\n" s = true -> exists t, s = String backslash (String (ch 110) t).
Proof.
  destruct s as [|c [|d t]]; cbn [String.prefix]; try discriminate.
  - destruct (ascii_dec _ c); discriminate.
  - destruct (ascii_dec _ c) as [<-|]; [|discriminate].
    destruct (ascii_dec _ d) as [<-|]; [|discriminate].
    intros _. now exists t.
Qed.

Lemma prefix_nil t : String.prefix "" t = true.
Proof. now destruct t. Qed.

Lemma cleanStr_match t : cleanStr (String backslash (String (ch 110) t)) = cleanStr t.
Proof. unfold cleanStr, replaceAll. cbn. now destruct t. Qed.

Lemma cleanStr_keep c t :
  String.prefix "\n" (String c t) = false ->
  cleanStr (String c t) = String c (cleanStr t).
Proof.
  intros H. unfold cleanStr, replaceAll. cbn [replaceAll_go]. now rewrite H.
Qed.

Lemma cleanStr_head t :
  String.prefix "n" (cleanStr t) = true ->
  String.prefix "n" t = true \/ String.prefix "\n" t = true.
Proof.
  destruct t as [|d t1]; [discriminate|].
  destruct (String.prefix "\n" (String d t1)) eqn:E; [now right|].
  rewrite (cleanStr_keep _ _ E). cbn [String.prefix].
  destruct (ascii_dec _ d); [|discriminate].
  intros _. left. apply prefix_nil.
Qed.

Lemma cleanStr_no_escape_bounded n :
  forall s, String.length s <= n ->
    includes s "\\n" = false -> includes (cleanStr s) "\n" = false.
Proof.
  induction n as [|n IH]; intros [|c t] Hlen Hs; try reflexivity;
    [simpl in Hlen; lia|].
  rewrite includes_cons in Hs. apply orb_false_iff in Hs as [Hp Ht].
  destruct (String.prefix "\n" (String c t)) eqn:E.
  - apply prefix_escape in E as (t' & E). injection E as -> ->.
    rewrite cleanStr_match. apply IH; [simpl in Hlen; lia|].
    rewrite includes_cons in Ht. now apply orb_false_iff in Ht as [_ Ht].
  - rewrite (cleanStr_keep _ _ E), includes_cons.
    rewrite (IH t); [|simpl in Hlen; lia|exact Ht]. rewrite orb_false_r.
    cbn [String.prefix]. destruct (ascii_dec _ c) as [<-|]; [|reflexivity].
    destruct (String.prefix "n" (cleanStr t)) eqn:En; [exfalso|reflexivity].
    apply cleanStr_head in En as [H|H].
    + cbn [String.prefix] in E. destruct (ascii_dec _ _); congruence.
    + apply prefix_escape in H as (t' & ->). cbn in Hp.
      rewrite prefix_nil in Hp. discriminate.
Qed.

Lemma cleanStr_no_escape s :
  includes s "\\n" = false -> includes (cleanStr s) "\n" = false.
Proof. apply (cleanStr_no_escape_bounded (String.length s)). lia. Qed.

End CleanFacts.

Module CoreFacts.
Import Core.

Lemma bind_step {S A B} (m : M S A) (k : A -> M S B) s a s' :
  m s = Returned (a, s') -> bind m k s = k a s'.
Proof. unfold bind. now intros ->. Qed.

Lemma TokenType_eqb_refl t : TokenType_eqb t t = true.
Proof. now destruct t. Qed.

Lemma peek_at s : peek s = Returned (nth_error (tokens s) (pos s), s).
Proof. unfold peek, peekAt. now rewrite Nat.add_0_r. Qed.

Lemma matchT_hit t v s :
  nth_error (tokens s) (pos s) = Some (mkToken t v) ->
  matchT t s = Returned (true, s).
Proof.
  intros H. unfold matchT, match_. rewrite (bind_step _ _ _ _ _ (peek_at s)), H.
  unfold ret. cbn. now rewrite TokenType_eqb_refl.
Qed.

Lemma consumeV_hit t v s :
  nth_error (tokens s) (pos s) = Some (mkToken t v) ->
  consumeV t v s
  = Returned (Some (mkToken t v), mkPState (tokens s) (S (pos s))).
Proof.
  intros H. unfold consumeV, consume, match_.
  unfold bind at 1. unfold bind. rewrite peek_at, H. unfold ret. cbn.
  rewrite TokenType_eqb_refl, String.eqb_refl. cbn. unfold advance. now rewrite H.
Qed.

Lemma advanceValue_hit k s :
  nth_error (tokens s) (pos s) = Some k ->
  advanceValue s = Returned (value k, mkPState (tokens s) (S (pos s))).
Proof.
  intros H. unfold advanceValue, bind, advance. now rewrite H.
Qed.

End CoreFacts.

Module CParserFacts.
Import Core CParser CoreFacts.

Lemma parseFor_shape self st node st' :
  parseFor self st = Returned (node, st') ->
  exists init condition update body, node = forNode init condition update body.
Proof.
  unfold parseFor. intros H. bind_inv H.
  apply MonadFacts.ret_Returned in H. injection H as -> _. eauto.
Qed.

Lemma matchV_miss t v s :
  (forall k, nth_error (tokens s) (pos s) = Some k ->
             TokenType_eqb (ttype k) t && String.eqb (value k) v = false) ->
  matchV t v s = Returned (false, s).
Proof.
  intros H. unfold matchV, match_, bind, peek, peekAt, ret.
  rewrite Nat.add_0_r.
  destruct (nth_error (tokens s) (pos s)) as [k|]; [|reflexivity].
  now rewrite (H k eq_refl).
Qed.

Lemma isType_keyword tk s s' :
  isType (Some tk) s = Returned (true, s') -> ttype tk = KEYWORD.
Proof.
  unfold isType, ret. intros H. injection H as H _.
  apply andb_true_iff in H as [H _]. now destruct (ttype tk).
Qed.

Lemma isType_state tk s b s' :
  isType (Some tk) s = Returned (b, s') -> s' = s.
Proof. unfold isType, ret. now intros [= _ ->]. Qed.

(** The run of [parseFor] on a header with all three parts, the first
    of them a declaration. *)
Lemma parseFor_header self st tk v s3 condition s4 update s6 body st' :
  nth_error (tokens st) (pos st) = Some (mkToken KEYWORD "for") ->
  nth_error (tokens st) (S (pos st)) = Some (mkToken PUNCTUATION "(") ->
  nth_error (tokens st) (S (S (pos st))) = Some tk ->
  isType (Some tk) (mkPState (tokens st) (S (S (pos st))))
  = Returned (true, mkPState (tokens st) (S (S (pos st)))) ->
  parseVariableDecl self None (mkPState (tokens st) (S (S (pos st))))
  = Returned (v, s3) ->
  matchV PUNCTUATION ";" s3 = Returned (false, s3) ->
  parseExpression self s3 = Returned (condition, s4) ->
  nth_error (tokens s4) (pos s4) = Some (mkToken PUNCTUATION ";") ->
  matchV PUNCTUATION ")" (mkPState (tokens s4) (S (pos s4)))
  = Returned (false, mkPState (tokens s4) (S (pos s4))) ->
  parseExpression self (mkPState (tokens s4) (S (pos s4)))
  = Returned (update, s6) ->
  nth_error (tokens s6) (pos s6) = Some (mkToken PUNCTUATION ")") ->
  t_parseBlock self (mkPState (tokens s6) (S (pos s6))) = Returned (body, st') ->
  parseFor self st
  = Returned (forNode (Some (NVariable v)) (Some condition) (Some update) body,
              st').
Proof.
  intros Hfor Hopen Htk Hty Hinit Hsemi Hcond Hsep Hclose Hupd Hend Hbody.
  unfold parseFor.
  rewrite (bind_step _ _ _ _ _ (consumeV_hit _ _ _ Hfor)).
  rewrite (bind_step _ _ _ _ _ (consumeV_hit _ _ (mkPState _ _) Hopen)).
  assert (Hmiss : matchV PUNCTUATION ";" (mkPState (tokens st) (S (S (pos st))))
                  = Returned (false, mkPState (tokens st) (S (S (pos st))))).
  { apply matchV_miss. cbn [tokens pos]. intros k Hk.
    rewrite Htk in Hk. injection Hk as <-.
    now rewrite (isType_keyword _ _ _ Hty). }
  rewrite (bind_step _ _ _ _ _ Hmiss). cbn [negb].
  assert (Hpeek : peek (mkPState (tokens st) (S (S (pos st))))
                  = Returned (Some tk, mkPState (tokens st) (S (S (pos st))))).
  { rewrite peek_at. cbn [tokens pos]. now rewrite Htk. }
  assert (Hdecl :
    (tok <- peek ;;
     ty <- isType tok ;;
     if ty then v <- parseVariableDecl self None ;; ret (Some (NVariable v))
     else
       e <- parseExpression self ;;
       consumeV PUNCTUATION ";" ;;
       ret (Some e)) (mkPState (tokens st) (S (S (pos st))))
    = Returned (Some (NVariable v), s3)).
  { rewrite (bind_step _ _ _ _ _ Hpeek), (bind_step _ _ _ _ _ Hty).
    now rewrite (bind_step _ _ _ _ _ Hinit). }
  rewrite (bind_step _ _ _ _ _ Hdecl).
  rewrite (bind_step _ _ _ _ _ Hsemi). cbn [negb].
  assert (Hc : (e <- parseExpression self ;; ret (Some e)) s3
               = Returned (Some condition, s4))
    by now rewrite (bind_step _ _ _ _ _ Hcond).
  rewrite (bind_step _ _ _ _ _ Hc).
  rewrite (bind_step _ _ _ _ _ (consumeV_hit _ _ _ Hsep)).
  rewrite (bind_step _ _ _ _ _ Hclose). cbn [negb].
  assert (Hu : (e <- parseExpression self ;; ret (Some e))
                 (mkPState (tokens s4) (S (pos s4)))
               = Returned (Some update, s6))
    by now rewrite (bind_step _ _ _ _ _ Hupd).
  rewrite (bind_step _ _ _ _ _ Hu).
  rewrite (bind_step _ _ _ _ _ (consumeV_hit _ _ _ Hend)).
  rewrite (bind_step _ _ _ _ _ Hbody). reflexivity.
Qed.

(** C3.  Take a text that reads [for (], then a declaration that
    [parseVariableDecl] reads as the variable i with initializer A, then
    a condition and, after a semicolon, an update that
    [parseExpression] reads, then [)] and a body.  When the condition
    is a comparison [<=] with right operand B and the update is a
    postfix increment, [parseFor] returns the For node that carries
    this declaration, condition and update together with the iterator
    i and the range A, B + 1, 1; when the condition is a comparison
    [<] with right operand B and the update is [+=] with right operand
    S, it returns the For node with the iterator i and the range A, B,
    S. *)
Theorem parseFor_range self st tk i ty A s3 condition s4 update s6 body st' :
  nth_error (tokens st) (pos st) = Some (mkToken KEYWORD "for") ->
  nth_error (tokens st) (S (pos st)) = Some (mkToken PUNCTUATION "(") ->
  nth_error (tokens st) (S (S (pos st))) = Some tk ->
  isType (Some tk) (mkPState (tokens st) (S (S (pos st))))
  = Returned (true, mkPState (tokens st) (S (S (pos st)))) ->
  parseVariableDecl self None (mkPState (tokens st) (S (S (pos st))))
  = Returned (mkVariable i ty (Some A), s3) ->
  matchV PUNCTUATION ";" s3 = Returned (false, s3) ->
  parseExpression self s3 = Returned (condition, s4) ->
  nth_error (tokens s4) (pos s4) = Some (mkToken PUNCTUATION ";") ->
  matchV PUNCTUATION ")" (mkPState (tokens s4) (S (pos s4)))
  = Returned (false, mkPState (tokens s4) (S (pos s4))) ->
  parseExpression self (mkPState (tokens s4) (S (pos s4)))
  = Returned (update, s6) ->
  nth_error (tokens s6) (pos s6) = Some (mkToken PUNCTUATION ")") ->
  t_parseBlock self (mkPState (tokens s6) (S (pos s6))) = Returned (body, st') ->
  (forall l B o,
      condition = NBinaryOp "<=" l B ->
      update = NUnaryOp "++_post" o ->
      parseFor self st
      = Returned (NFor (Some (NVariable (mkVariable i ty (Some A))))
                       (Some (NBinaryOp "<=" l B))
                       (Some (NUnaryOp "++_post" o))
                       (Some i) (Some A)
                       (Some (NBinaryOp "+" B (intLit 1)))
                       (Some (intLit 1)) body,
                  st'))
  /\ (forall l B o S,
        condition = NBinaryOp "<" l B ->
        update = NBinaryOp "+=" o S ->
        parseFor self st
        = Returned (NFor (Some (NVariable (mkVariable i ty (Some A))))
                         (Some (NBinaryOp "<" l B))
                         (Some (NBinaryOp "+=" o S))
                         (Some i) (Some A) (Some B) (Some S) body,
                    st')).
Proof.
  intros Hfor Hopen Htk Hty Hinit Hsemi Hcond Hsep Hclose Hupd Hend Hbody.
  pose proof (parseFor_header _ _ _ _ _ _ _ _ _ _ _
                Hfor Hopen Htk Hty Hinit Hsemi Hcond Hsep Hclose Hupd Hend
                Hbody) as H.
  split; intros; subst; exact H.
Qed.

End CParserFacts.

Module PrintfTheorems.
Import Core CParser PrintfSpec PrintfFacts CoreFacts.

Lemma matchV_state t v s b s' : matchV t v s = Returned (b, s') -> s' = s.
Proof.
  unfold matchV, match_, bind, peek, peekAt, ret. now intros [= _ ->].
Qed.

Lemma consumeV_total t v s :
  exists k s', consumeV t v s = Returned (k, s').
Proof.
  unfold consumeV, consume, match_, bind, peek, peekAt, advance, ret.
  destruct (nth_error _ _) as [k|]; [|eauto].
  destruct (_ && _); eauto.
Qed.

(** What the argument loop collects when it returns: the value
    arguments, appended in the order read. *)
Lemma printf_values self fuel :
  forall acc s values s',
    argumentLoop self fuel acc s = Returned (values, s') ->
    exists more, values = acc ++ more /\ valueArguments self s more s'.
Proof.
  unfold argumentLoop.
  induction fuel as [|n IH]; intros acc s values s' H; [discriminate|].
  cbn [loop] in H.
  apply MonadFacts.bind_Returned in H as (r & s1 & Hbody & H).
  apply MonadFacts.bind_Returned in Hbody as (comma & s2 & Hcomma & Hbody).
  pose proof (matchV_state _ _ _ _ _ Hcomma) as ->.
  destruct comma.
  - apply MonadFacts.bind_Returned in Hbody as (tk & s3 & Hadv & Hbody).
    unfold advance in Hadv. injection Hadv as _ <-.
    apply MonadFacts.bind_Returned in Hbody as (e & s4 & He & Hbody).
    apply MonadFacts.ret_Returned in Hbody. injection Hbody as -> ->.
    apply IH in H as (more & -> & Hmore).
    exists (e :: more). split; [now rewrite <- app_assoc|].
    now apply (valuesNext self s e s4).
  - apply MonadFacts.ret_Returned in Hbody. injection Hbody as -> ->.
    apply MonadFacts.ret_Returned in H. injection H as -> <-.
    exists []. split; [now rewrite app_nil_r|now constructor].
Qed.

(** The loop returns the value arguments when its budget exceeds their
    number. *)
Lemma printf_values_run self s values s' :
  valueArguments self s values s' ->
  forall fuel acc,
    List.length values < fuel ->
    argumentLoop self fuel acc s = Returned (acc ++ values, s').
Proof.
  unfold argumentLoop.
  induction 1 as [s Hcomma|s e s1 values s2 Hcomma He _ IH];
    intros fuel acc Hfuel.
  - destruct fuel as [|n]; [inversion Hfuel|].
    cbn [loop]. rewrite (bind_step _ _ _ _ _ (bind_step _ _ _ _ _ Hcomma)).
    unfold ret at 1. cbn. now rewrite app_nil_r.
  - destruct fuel as [|n]; [inversion Hfuel|].
    cbn [loop].
    assert (Hbody :
      (comma <- matchV PUNCTUATION "," ;;
       if comma then
         advance ;;
         e <- parseExpression self ;;
         ret (inl (acc ++ [e])%list)
       else ret (inr acc)) s
      = Returned (inl (acc ++ [e])%list, s1)).
    { rewrite (bind_step _ _ _ _ _ Hcomma).
      unfold bind at 1. unfold advance at 1.
      now rewrite (bind_step _ _ _ _ _ He). }
    rewrite (bind_step _ _ _ _ _ Hbody).
    rewrite IH by (cbn [List.length] in Hfuel; lia).
    now rewrite <- app_assoc.
Qed.

(** [parsePrintf] from a statement that starts [printf(] with a format
    literal: the argument loop, then the optional closing tokens. *)
Lemma parsePrintf_run self st v :
  nth_error (tokens st) (pos st) = Some (mkToken KEYWORD "printf") ->
  nth_error (tokens st) (S (pos st)) = Some (mkToken PUNCTUATION "(") ->
  nth_error (tokens st) (S (S (pos st))) = Some (mkToken STRING v) ->
  parsePrintf self st
  = (formatArgs <- argumentLoop self (budget self) [] ;;
     consumeV PUNCTUATION ")" ;;
     consumeV PUNCTUATION ";" ;;
     ret (NPrint (match printfArgs (slice_1_m1 v) formatArgs with
                  | [] => [strLit ""]
                  | args => args
                  end)
                 (includes (slice_1_m1 v) "\n")))
      (mkPState (tokens st) (S (S (S (pos st))))).
Proof.
  intros H0 H1 H2. unfold parsePrintf.
  rewrite (bind_step _ _ _ _ _ (consumeV_hit _ _ _ H0)).
  rewrite (bind_step _ _ _ _ _ (consumeV_hit _ _ (mkPState _ _) H1)).
  rewrite (bind_step _ _ _ _ _ (matchT_hit _ _ (mkPState _ _) H2)).
  unfold bind at 1. unfold bind at 1.
  rewrite (advanceValue_hit _ (mkPState _ _) H2). cbn [tokens pos value].
  unfold bind.
  destruct (argumentLoop self (budget self) [] _) as [[values s1]| |];
    [|reflexivity..].
  unfold ret. now destruct (printfArgs (slice_1_m1 v) values).
Qed.

(** C4.  For a statement that starts [printf(] with a format literal,
    [parsePrintf] returns exactly when the value arguments that follow
    the literal can be read within the budget, and the node it returns
    is then the Print whose arguments are the literal runs of the
    format text, cut at its directives, each with its backslash-n pairs
    taken out and dropped if nothing is left, interleaved in order with
    those value arguments (one empty literal if that leaves nothing),
    and whose newline flag says whether the format text contains
    backslash-n.  A kept literal contains no backslash-n whenever the
    run it comes from contains no backslash, backslash, n. *)
Theorem parsePrintf_decomposition self st v :
  nth_error (tokens st) (pos st) = Some (mkToken KEYWORD "printf") ->
  nth_error (tokens st) (S (pos st)) = Some (mkToken PUNCTUATION "(") ->
  nth_error (tokens st) (S (S (pos st))) = Some (mkToken STRING v) ->
  (forall node st',
      parsePrintf self st = Returned (node, st') ->
      exists values s2,
        valueArguments self (mkPState (tokens st) (S (S (S (pos st)))))
                       values s2
        /\ node = NPrint (match interleave (literalSegments (slice_1_m1 v))
                                           values with
                          | [] => [strLit EmptyString]
                          | args => args
                          end)
                         (includes (slice_1_m1 v) "\n"))
  /\ (forall values s2,
        valueArguments self (mkPState (tokens st) (S (S (S (pos st)))))
                       values s2 ->
        List.length values < budget self ->
        exists st',
          parsePrintf self st
          = Returned (NPrint (match interleave
                                      (literalSegments (slice_1_m1 v))
                                      values with
                              | [] => [strLit EmptyString]
                              | args => args
                              end)
                             (includes (slice_1_m1 v) "\n"),
                      st'))
  /\ (forall segment,
         includes segment "\\n" = false ->
         includes (cleanStr segment) "\n" = false).
Proof.
  intros H0 H1 H2.
  rewrite (parsePrintf_run self st v H0 H1 H2).
  split; [|split; [|apply CleanFacts.cleanStr_no_escape]].
  - intros node st' H.
    apply MonadFacts.bind_Returned in H as (values & s2 & Hloop & H).
    bind_inv H. apply MonadFacts.ret_Returned in H. injection H as -> _.
    apply printf_values in Hloop as (more & -> & Hmore).
    exists more, s2. split; [exact Hmore|].
    cbn [app]. now rewrite printfArgs_interleave.
  - intros values s2 Hvalues Hfuel.
    rewrite (bind_step _ _ _ _ _
               (printf_values_run self _ _ _ Hvalues (budget self) [] Hfuel)).
    cbn [app]. rewrite printfArgs_interleave.
    destruct (consumeV_total PUNCTUATION ")" s2) as (k1 & s3 & E1).
    destruct (consumeV_total PUNCTUATION ";" s3) as (k2 & s4 & E2).
    rewrite (bind_step _ _ _ _ _ E1), (bind_step _ _ _ _ _ E2).
    now exists s4.
Qed.

End PrintfTheorems.

Module TranspilerFacts.
Import Transpiler.
Local Open Scope string_scope.

Lemma hasNonMainClasses_from_real nodes cls :
  In (NClass cls) nodes -> isRealClass cls = true ->
  hasNonMainClasses_from nodes = true.
Proof.
  intros Hin Hreal. induction nodes as [|node rest IH]; [contradiction|].
  destruct Hin as [->|Hin].
  - cbn [hasNonMainClasses_from]. now rewrite Hreal.
  - specialize (IH Hin). cbn [hasNonMainClasses_from].
    destruct node; try exact IH.
    match goal with |- context [isRealClass ?c] => destruct (isRealClass c) end;
      [reflexivity|exact IH].
Qed.

Lemma hasNonMainClasses_from_none nodes :
  (forall cls, In (NClass cls) nodes -> isRealClass cls = false) ->
  hasNonMainClasses_from nodes = false.
Proof.
  induction nodes as [|node rest IH]; intros H; [reflexivity|].
  assert (Hrest : hasNonMainClasses_from rest = false).
  { apply IH. intros cls Hin. apply H. now right. }
  cbn [hasNonMainClasses_from]. destruct node as [| | |cls| | | | | | | | | | | | | |];
    try exact Hrest.
  rewrite (H cls); [exact Hrest|now left].
Qed.

Lemma isNil_true {A} (l : list A) : isNil l = true <-> l = [].
Proof. destruct l; simpl; split; congruence. Qed.

Lemma isNil_false {A} (l : list A) : isNil l = false <-> l <> [].
Proof. destruct l; simpl; split; congruence. Qed.

Lemma isSome_false {A} (o : option A) : isSome o = false <-> o = None.
Proof. destruct o; simpl; split; congruence. Qed.

Lemma isSome_true {A} (o : option A) : isSome o = true <-> o <> None.
Proof. destruct o; simpl; split; congruence. Qed.

(** The guard's test at one class, in words: the class has something
    in it, and is not a class Main that holds a main method and, at
    most, a constructor. *)
Lemma isRealClass_true cls :
  (cls_members cls <> [] \/ cls_methods cls <> [] \/ cls_constructor cls <> None) ->
  ~ (cls_name cls = "Main" /\ cls_mainMethod cls <> None
     /\ cls_methods cls = [] /\ cls_members cls = []) ->
  isRealClass cls = true.
Proof.
  intros Hc Hw. unfold isRealClass, hasOnlyMainMethod.
  apply andb_true_iff. split.
  - destruct Hc as [H|[H|H]].
    + apply isNil_false in H. rewrite H. now rewrite orb_true_r.
    + apply isNil_false in H. now rewrite H.
    + apply isSome_true in H. rewrite H. now rewrite !orb_true_r.
  - destruct (String.eqb_spec (cls_name cls) "Main") as [Hn|Hn]; [|reflexivity].
    cbn [negb orb].
    destruct (isSome (cls_mainMethod cls)) eqn:Hm; [|reflexivity].
    destruct (isNil (cls_methods cls)) eqn:Hs; [|reflexivity].
    destruct (isNil (cls_members cls)) eqn:Hb; [|reflexivity].
    exfalso. apply Hw. repeat split; auto.
    + now apply isSome_true.
    + now apply isNil_true.
    + now apply isNil_true.
Qed.

Lemma isRealClass_empty cls :
  cls_members cls = [] -> cls_methods cls = [] -> cls_constructor cls = None ->
  isRealClass cls = false.
Proof. unfold isRealClass. now intros -> -> ->. Qed.

Lemma isRealClass_shell cls :
  cls_name cls = "Main" /\ cls_mainMethod cls <> None
  /\ cls_methods cls = [] /\ cls_members cls = [] ->
  isRealClass cls = false.
Proof.
  intros (Hn & Hm & Hs & Hb). unfold isRealClass, hasOnlyMainMethod.
  apply isSome_true in Hm. rewrite Hn, Hm, Hs, Hb. cbn.
  apply andb_false_r.
Qed.

Section Orchestrator.
Variables pythonParser cParser cppParser javaParser
  : string -> Outcome IRProgram.
Variables pythonGenerator cGenerator cppGenerator javaGenerator
  : IRProgram -> Exn + string.

Local Abbreviation emitAll' :=
  (emitAll pythonGenerator cGenerator cppGenerator javaGenerator).
Local Abbreviation transpile' :=
  (transpile pythonParser cParser cppParser javaParser
             pythonGenerator cGenerator cppGenerator javaGenerator).
Local Abbreviation parseSource' :=
  (parseSource pythonParser cParser cppParser javaParser).

Lemma emitAll_eq ir :
  emitAll' ir =
  let a1 := attempt "Python" (pythonGenerator ir) in
  let a2 := attempt "C" (if hasNonMainClasses ir then inr sentinel
                         else cGenerator ir) in
  let a3 := attempt "C++" (cppGenerator ir) in
  let a4 := attempt "Java" (javaGenerator ir) in
  mkResult (isNil (snd a1 ++ snd a2 ++ snd a3 ++ snd a4))
           (fst a1) (fst a2) (fst a3) (fst a4)
           (snd a1 ++ snd a2 ++ snd a3 ++ snd a4).
Proof.
  unfold emitAll. cbv zeta.
  destruct (attempt "Python" _), (attempt "C" _), (attempt "C++" _),
    (attempt "Java" _). reflexivity.
Qed.

Lemma transpile_Returned sourceCode sourceLanguage ir :
  parseSource' sourceCode sourceLanguage = Returned ir ->
  transpile' sourceCode sourceLanguage = Some (emitAll' ir).
Proof. unfold transpile. now intros ->. Qed.

(** What a back-end's run leaves in the result: its text, and no error
    entry, when it returns; no text, and one labelled entry, when it
    throws. *)
Lemma attempt_eq target run :
  attempt target run =
  (match run with inr text => Some text | inl _ => None end,
   match run with
   | inl e => [target ++ " generation error: " ++ exnToString e]
   | inr _ => []
   end).
Proof. now destruct run. Qed.

(** C2.  When the front-end returns a Program, [transpile] returns a
    result record in which every target's field holds that back-end's
    text if it returned and is absent if it threw; the error list holds,
    in the order Python, C, C++, Java, one entry
    [<Target> generation error: <exception>] for each back-end that
    threw and nothing else, so one target's exception neither stops the
    other targets nor removes their texts; and [success] is true
    exactly when the error list is empty. *)
Theorem emission_errors_are_recorded_per_target sourceCode sourceLanguage ir :
  parseSource' sourceCode sourceLanguage = Returned ir ->
  exists r,
    transpile' sourceCode sourceLanguage = Some r
    /\ python r = match pythonGenerator ir with
                  | inr text => Some text | inl _ => None end
    /\ c r = (if hasNonMainClasses ir then Some sentinel
              else match cGenerator ir with
                   | inr text => Some text | inl _ => None end)
    /\ cpp r = match cppGenerator ir with
               | inr text => Some text | inl _ => None end
    /\ java r = match javaGenerator ir with
                | inr text => Some text | inl _ => None end
    /\ errors r =
         (match pythonGenerator ir with
         | inl e => [("Python generation error: " ++ exnToString e)%string]
         | inr _ => []
         end
         ++ (if hasNonMainClasses ir then []
             else match cGenerator ir with
                  | inl e => [("C generation error: " ++ exnToString e)%string]
                  | inr _ => []
                  end)
         ++ match cppGenerator ir with
            | inl e => [("C++ generation error: " ++ exnToString e)%string]
            | inr _ => []
            end
         ++ match javaGenerator ir with
            | inl e => [("Java generation error: " ++ exnToString e)%string]
            | inr _ => []
            end)%list
    /\ (success r = true <-> errors r = []).
Proof.
  intros Hparse. exists (emitAll' ir).
  split; [now apply transpile_Returned|].
  rewrite emitAll_eq. cbv zeta. rewrite !attempt_eq. cbn [fst snd].
  cbn [python c cpp java errors success].
  destruct (hasNonMainClasses ir); repeat split;
    try reflexivity; try apply isNil_true.
Qed.

(** C1.  When the front-end returns a Program whose body list holds a
    class that has a member, an instance method or a constructor and is
    not a class named Main with a main method, no instance method and no
    member, the C field of the result is exactly the sentinel text; the
    error list holds only what the Python, C++ and Java back-ends
    contributed, so the sentinel adds no entry; and [success] is true
    exactly when those three back-ends all returned. *)
Theorem top_level_class_yields_sentinel sourceCode sourceLanguage ir cls :
  parseSource' sourceCode sourceLanguage = Returned ir ->
  In (NClass cls) (body ir) ->
  (cls_members cls <> [] \/ cls_methods cls <> []
   \/ cls_constructor cls <> None) ->
  ~ (cls_name cls = "Main" /\ cls_mainMethod cls <> None
     /\ cls_methods cls = [] /\ cls_members cls = []) ->
  exists r,
    transpile' sourceCode sourceLanguage = Some r
    /\ c r = Some sentinel
    /\ errors r =
         (match pythonGenerator ir with
         | inl e => [("Python generation error: " ++ exnToString e)%string]
         | inr _ => []
         end
         ++ match cppGenerator ir with
            | inl e => [("C++ generation error: " ++ exnToString e)%string]
            | inr _ => []
            end
         ++ match javaGenerator ir with
            | inl e => [("Java generation error: " ++ exnToString e)%string]
            | inr _ => []
            end)%list
    /\ (success r = true <->
        exists py cx jv, pythonGenerator ir = inr py
                         /\ cppGenerator ir = inr cx
                         /\ javaGenerator ir = inr jv).
Proof.
  intros Hparse Hin Hcontent Hshell. exists (emitAll' ir).
  split; [now apply transpile_Returned|].
  assert (Hguard : hasNonMainClasses ir = true).
  { apply (hasNonMainClasses_from_real _ cls Hin).
    now apply isRealClass_true. }
  rewrite emitAll_eq. cbv zeta. rewrite !attempt_eq, Hguard. cbn [fst snd].
  cbn [python c cpp java errors success app].
  repeat split.
  - intros H.
    destruct (pythonGenerator ir), (cppGenerator ir), (javaGenerator ir);
      try discriminate H. do 3 eexists. repeat split.
  - intros (py & cx & jv & -> & -> & ->). reflexivity.
Qed.

(** C10.  Whether the C field is the sentinel depends on what a class
    holds, not on its name alone.  When the body list of the Program
    the front-end returns holds a class that has a member, an instance
    method or a constructor, and that is not a class named Main with a
    main method, no instance method and no member, the C field is the
    sentinel.  When every class of the body list either has no member,
    no instance method and no constructor (whatever its name), or is a
    class named Main with a main method, no instance method and no
    member, the C field is what the C back-end makes of the Program. *)
Theorem class_name_alone_does_not_call_for_sentinel
        sourceCode sourceLanguage ir :
  parseSource' sourceCode sourceLanguage = Returned ir ->
  exists r,
    transpile' sourceCode sourceLanguage = Some r
    /\ ((exists cls, In (NClass cls) (body ir)
                     /\ (cls_members cls <> [] \/ cls_methods cls <> []
                         \/ cls_constructor cls <> None)
                     /\ ~ (cls_name cls = "Main"
                           /\ cls_mainMethod cls <> None
                           /\ cls_methods cls = []
                           /\ cls_members cls = [])) ->
        c r = Some sentinel)
    /\ ((forall cls, In (NClass cls) (body ir) ->
                     (cls_members cls = [] /\ cls_methods cls = []
                      /\ cls_constructor cls = None)
                     \/ (cls_name cls = "Main"
                         /\ cls_mainMethod cls <> None
                         /\ cls_methods cls = []
                         /\ cls_members cls = [])) ->
        c r = match cGenerator ir with
              | inr text => Some text | inl _ => None end).
Proof.
  intros Hparse. exists (emitAll' ir).
  split; [now apply transpile_Returned|].
  rewrite emitAll_eq. cbv zeta. rewrite !attempt_eq. cbn [fst snd c].
  split.
  - intros (cls & Hin & Hcontent & Hshell).
    assert (Hguard : hasNonMainClasses ir = true).
    { apply (hasNonMainClasses_from_real _ cls Hin).
      now apply isRealClass_true. }
    now rewrite Hguard.
  - intros Hnone.
    assert (Hguard : hasNonMainClasses ir = false).
    { apply hasNonMainClasses_from_none. intros cls Hin.
      destruct (Hnone cls Hin) as [(Hm & Hs & Hc)|Hshell].
      - now apply isRealClass_empty.
      - now apply isRealClass_shell. }
    now rewrite Hguard.
Qed.

End Orchestrator.

End TranspilerFacts.

Module CParserDivergence.
Import Core CParser Scenario.

(** At the stray parenthesis a statement is an expression statement
    whose expression is the fallback literal of [parsePrimary]; no token
    is consumed. *)
Lemma statement_at_stray m :
  t_parseStatement (table m) atStray = OutOfFuel
  \/ t_parseStatement (table m) atStray = Returned (Some (intLit 0), atStray).
Proof.
  destruct m as [|[|[|m]]]; vm_compute; auto.
Qed.

Lemma block_loop_at_stray self :
  (t_parseStatement self atStray = OutOfFuel
   \/ t_parseStatement self atStray = Returned (Some (intLit 0), atStray)) ->
  forall fuel statements,
    loop fuel (fun statements : list IRNode =>
      go <- andP (notP (matchV PUNCTUATION "}")) more ;;
      if go then
        stmt <- t_parseStatement self ;;
        ret (inl (push statements stmt))
      else ret (inr statements)) statements atStray = OutOfFuel.
Proof.
  intros Hstmt. induction fuel as [|n IH]; intros statements; [reflexivity|].
  assert (Hgo : andP (notP (matchV PUNCTUATION "}")) more atStray
                = Returned (true, atStray)) by (vm_compute; reflexivity).
  cbn [loop]. destruct Hstmt as [H|H].
  - apply MonadFacts.bind_OutOfFuel. rewrite (CoreFacts.bind_step _ _ _ _ _ Hgo).
    now apply MonadFacts.bind_OutOfFuel.
  - rewrite (CoreFacts.bind_step _ _ atStray (inl (push statements (Some (intLit 0))))
                      atStray); [apply IH|].
    rewrite (CoreFacts.bind_step _ _ _ _ _ Hgo). now rewrite (CoreFacts.bind_step _ _ _ _ _ H).
Qed.

(** The block that starts at the brace never ends. *)
Lemma block_at_stray m :
  parseBlock (table m) (mkPState (tokenize cStrayParen) 4) = OutOfFuel.
Proof.
  unfold parseBlock.
  rewrite (CoreFacts.bind_step _ _ _ (Some (mkToken PUNCTUATION "{")) atStray)
    by (vm_compute; reflexivity).
  apply MonadFacts.bind_OutOfFuel. apply block_loop_at_stray. apply statement_at_stray.
Qed.

Lemma functionDef_at_stray m :
  parseFunctionDef (table m) "main" TInt (mkPState (tokenize cStrayParen) 2)
  = OutOfFuel.
Proof.
  unfold parseFunctionDef.
  rewrite (CoreFacts.bind_step _ _ _ (Some (mkToken PUNCTUATION "(")) 
             (mkPState (tokenize cStrayParen) 3)) by (vm_compute; reflexivity).
  destruct m as [|[|m]]; [reflexivity|reflexivity|].
  rewrite (CoreFacts.bind_step _ _ _ [] (mkPState (tokenize cStrayParen) 3))
    by (vm_compute; reflexivity).
  rewrite (CoreFacts.bind_step _ _ _ (Some (mkToken PUNCTUATION ")"))
             (mkPState (tokenize cStrayParen) 4)) by (vm_compute; reflexivity).
  apply MonadFacts.bind_OutOfFuel. apply block_at_stray.
Qed.

(** On this text the C front-end never returns: whatever the budget,
    the run ends by exhausting it. *)
Theorem parse_stray_diverges fuel : parse fuel cStrayParen = OutOfFuel.
Proof.
  unfold parse.
  enough (H : parseProgram (table fuel) (mkPState (tokenize cStrayParen) 0)
              = OutOfFuel) by now rewrite H.
  unfold parseProgram.
  destruct fuel as [|[|m]]; [reflexivity|reflexivity|].
  change (budget (table (S (S m)))) with (S m). cbn [loop].
  apply MonadFacts.bind_OutOfFuel.
  rewrite (CoreFacts.bind_step _ _ _ true (mkPState (tokenize cStrayParen) 0))
    by (vm_compute; reflexivity).
  rewrite (CoreFacts.bind_step _ _ _ false (mkPState (tokenize cStrayParen) 0))
    by (vm_compute; reflexivity).
  apply MonadFacts.bind_OutOfFuel. unfold parseTopLevel.
  rewrite (CoreFacts.bind_step _ _ _ None (mkPState (tokenize cStrayParen) 0))
    by (vm_compute; reflexivity).
  rewrite (CoreFacts.bind_step _ _ _ (Some (mkToken KEYWORD "int"))
             (mkPState (tokenize cStrayParen) 0)) by (vm_compute; reflexivity).
  rewrite (CoreFacts.bind_step _ _ _ true (mkPState (tokenize cStrayParen) 0))
    by (vm_compute; reflexivity).
  unfold parseFunctionOrVariable.
  rewrite (CoreFacts.bind_step _ _ _ tt (mkPState (tokenize cStrayParen) 0))
    by (vm_compute; reflexivity).
  rewrite (CoreFacts.bind_step _ _ _ (Some (mkToken KEYWORD "int"))
             (mkPState (tokenize cStrayParen) 1)) by (vm_compute; reflexivity).
  rewrite (CoreFacts.bind_step _ _ _ false (mkPState (tokenize cStrayParen) 1))
    by (vm_compute; reflexivity).
  rewrite (CoreFacts.bind_step _ _ _ tt (mkPState (tokenize cStrayParen) 1))
    by (vm_compute; reflexivity).
  rewrite (CoreFacts.bind_step _ _ _ (Some (mkToken IDENTIFIER "main"))
             (mkPState (tokenize cStrayParen) 2)) by (vm_compute; reflexivity).
  rewrite (CoreFacts.bind_step _ _ _ true (mkPState (tokenize cStrayParen) 2))
    by (vm_compute; reflexivity).
  apply MonadFacts.bind_OutOfFuel. apply functionDef_at_stray.
Qed.

End CParserDivergence.

Module ScenarioFacts.
Import Transpiler Scenario TranspilerFacts.
Import Emit.
Local Open Scope string_scope.

(** The orchestrator over the embedded front-ends, once the front-end
    of the source language has returned. *)
Lemma run_Returned fuel pythonGenerator cppGenerator sourceCode sourceLanguage ir :
  parseSource (PythonParser.parse fuel) (CParser.parse fuel)
              (CppParser.parse fuel) (JavaParser.parse fuel)
              sourceCode sourceLanguage = Returned ir ->
  exists r,
    run fuel pythonGenerator cppGenerator sourceCode sourceLanguage = Some r
    /\ c r = (if hasNonMainClasses ir then Some sentinel
              else Some (CGenerator.generate ir))
    /\ java r = match JavaGenerator.generate ir with
                | inr text => Some text | inl _ => None end.
Proof.
  intros Hparse. unfold run. rewrite (transpile_Returned _ _ _ _ _ _ _ _ _ _ _ Hparse).
  eexists. split; [reflexivity|]. rewrite emitAll_eq. cbv zeta.
  rewrite !attempt_eq. cbn [fst snd c java].
  destruct (hasNonMainClasses ir); split; reflexivity.
Qed.

Lemma pythonPrint_parse n :
  PythonParser.parse (40 + n) pythonPrint = Returned pythonPrintIR.
Proof. vm_compute. reflexivity. Qed.

(** C5.  On the four-line scripting scenario the C field is the text
    below: the first print and the declaration are as the scenario says,
    the conditional is laid out over three lines, and the print of the
    variable x is made with the directive %s, since the C back-end's
    [inferType] gives an identifier the type auto. *)
Theorem python_scenario_c_text n pythonGenerator cppGenerator :
  exists r,
    run (40 + n) pythonGenerator cppGenerator pythonPrint LPython = Some r
    /\ c r = Some (join NL
         ["#include <stdio.h>";
          EmptyString;
          "int main() {";
          "    printf(" ++ QQ ++ "hi\n" ++ QQ ++ ");";
          "    int x = 10;";
          "    if (x > 5) {";
          "        printf(" ++ QQ ++ "%s\n" ++ QQ ++ ", x);";
          "    }";
          "    return 0;";
          "}"]).
Proof.
  destruct (run_Returned (40 + n) pythonGenerator cppGenerator pythonPrint
              LPython pythonPrintIR (pythonPrint_parse n))
    as (r & Hrun & Hc & _).
  exists r. split; [exact Hrun|]. rewrite Hc. vm_compute. reflexivity.
Qed.

Lemma coutLine_parse n :
  CppParser.parse (40 + n) coutLine = Returned (mkProgram [] []).
Proof. vm_compute. reflexivity. Qed.

Lemma coutInMain_parse n :
  CppParser.parse (40 + n) coutInMain = Returned coutInMainIR.
Proof. vm_compute. reflexivity. Qed.

(** C6.  The stream statement of the CPP scenario, given alone, is
    skipped by the CPP front-end (it is not inside a function), and the
    JV field is an empty class Main.  Inside [main] it becomes a Print
    of the literal and the identifier, and the JV back-end joins the
    two with a one-blank literal between them. *)
Theorem cout_scenario_java_text n pythonGenerator cppGenerator :
  (exists r,
      run (40 + n) pythonGenerator cppGenerator coutLine LCpp = Some r
      /\ java r = Some ("public class Main {" ++ NL ++ "}"))
  /\ (exists r,
         run (40 + n) pythonGenerator cppGenerator coutInMain LCpp = Some r
         /\ java r = Some (join NL
              ["public class Main {";
               "    public static void main(String[] args) {";
               "        System.out.println(" ++ QQ ++ "x=" ++ QQ ++ " + "
                 ++ QQ ++ " " ++ QQ ++ " + x);";
               "    }";
               "}"])).
Proof.
  split.
  - destruct (run_Returned (40 + n) pythonGenerator cppGenerator coutLine
                LCpp _ (coutLine_parse n)) as (r & Hrun & _ & Hj).
    exists r. split; [exact Hrun|]. rewrite Hj. vm_compute. reflexivity.
  - destruct (run_Returned (40 + n) pythonGenerator cppGenerator coutInMain
                LCpp _ (coutInMain_parse n)) as (r & Hrun & _ & Hj).
    exists r. split; [exact Hrun|]. rewrite Hj. vm_compute. reflexivity.
Qed.

(** The PY, CPP and JV front-ends wrap their work in a handler: no
    exception leaves them. *)
Lemma handled_parsers_do_not_throw fuel code e :
  PythonParser.parse fuel code <> Threw e
  /\ CppParser.parse fuel code <> Threw e
  /\ JavaParser.parse fuel code <> Threw e.
Proof.
  unfold PythonParser.parse, CppParser.parse, JavaParser.parse.
  repeat split.
  - now destruct (PythonParser.parseProgram _ _ _) as [[? ?]| |].
  - now destruct (CppParser.parseProgram _ _) as [[? ?]| |].
  - now destruct (JavaParser.parseProgram _ _) as [[? ?]| |].
Qed.

(** C8.  On a function header with nothing after it the C front-end
    throws a TypeError (it reads the type of a token that is not there)
    and [transpile] reports a parse error with no output at all, also
    when a complete declaration came first; the CPP and JV front-ends
    return a Program on the same text.  On a function whose body is a
    closing parenthesis the C front-end does not return at all: every
    budget is exhausted. *)
Theorem c_parser_throws_to_orchestrator n pythonGenerator cppGenerator :
  CParser.parse (4 + n) cHeaderOnly = Threw (Core.nullRead "type")
  /\ run (4 + n) pythonGenerator cppGenerator cHeaderOnly LC
     = Some (mkResult false None None None None [parseErrorOnNull])
  /\ run (8 + n) pythonGenerator cppGenerator cDeclarationThenHeader LC
     = Some (mkResult false None None None None [parseErrorOnNull])
  /\ CppParser.parse (8 + n) cHeaderOnly
     = Returned (mkProgram [NFunction (mkFunction "main" [] TInt [strLit EmptyString])] [])
  /\ JavaParser.parse (8 + n) cHeaderOnly
     = Returned (mkProgram [NFunction (mkFunction "main" [] TInt [strLit EmptyString])] [])
  /\ CParser.parse n cStrayParen = OutOfFuel
  /\ run n pythonGenerator cppGenerator cStrayParen LC = None.
Proof.
  split; [vm_compute; reflexivity|].
  split; [vm_compute; reflexivity|].
  split; [vm_compute; reflexivity|].
  split; [vm_compute; reflexivity|].
  split; [vm_compute; reflexivity|].
  split.
  - apply CParserDivergence.parse_stray_diverges.
  - unfold run, transpile, parseSource.
    now rewrite CParserDivergence.parse_stray_diverges.
Qed.

End ScenarioFacts.

Module JavaParserFacts.
Import Core JavaParser Scenario.

Lemma addEntry_static_main func acc :
  fn_name func = "main" ->
  addEntry true (Some (inl func)) acc
  = mkAcc (members acc) (methods acc) (constructor acc) (Some func).
Proof. intros H. unfold addEntry. now rewrite H. Qed.

Lemma addEntry_other_method isStatic func acc :
  fn_name func <> "main" \/ isStatic = false ->
  addEntry isStatic (Some (inl func)) acc
  = mkAcc (members acc) (methods acc ++ [func]) (constructor acc)
          (mainMethod acc).
Proof.
  intros H. unfold addEntry.
  destruct (String.eqb_spec (fn_name func) "main") as [Heq|Hne];
    [|reflexivity].
  destruct H as [H| ->]; [contradiction|reflexivity].
Qed.

(** C7.  Every class node the JV front-end builds has no staticMethods
    list.  In the class loop a method named main that carries static
    becomes the class's mainMethod and leaves the method list as it
    was; every other method, static or not, is appended to the regular
    method list. *)
Theorem java_class_has_no_staticMethods self st cls st' :
  parseClass self st = Returned (cls, st') ->
  cls_staticMethods cls = None
  /\ (forall func acc,
         fn_name func = "main" ->
         methods (addEntry true (Some (inl func)) acc) = methods acc
         /\ mainMethod (addEntry true (Some (inl func)) acc) = Some func)
  /\ (forall func acc,
         fn_name func <> "main" ->
         methods (addEntry true (Some (inl func)) acc) = methods acc ++ [func]
         /\ mainMethod (addEntry true (Some (inl func)) acc) = mainMethod acc).
Proof.
  intros H. split; [|split].
  - unfold parseClass in H. bind_inv H.
    apply MonadFacts.ret_Returned in H. injection H as -> _. reflexivity.
  - intros func acc Hn. now rewrite (addEntry_static_main _ _ Hn).
  - intros func acc Hn.
    rewrite (addEntry_other_method true func acc) by now left.
    split; reflexivity.
Qed.

End JavaParserFacts.

Module LexerTheorems.
Import LexerFacts PyLexerFacts Scenario.




End LexerTheorems.

Module Examples.
Import Scenario Emit.

(** ** C1 *)

(** An instance of [top_level_class_yields_sentinel]: the JV class Counter
    has a member, so the C field is the sentinel; the CPP stand-in
    throws, which is the one entry of the error list. *)
Lemma top_level_class_yields_sentinel_witness :
  exists r,
    Transpiler.run 40 (returning "py") (throwing "no emitter")
                   javaCounter LJava = Some r
    /\ Transpiler.c r = Some Transpiler.sentinel
    /\ Transpiler.errors r = ["C++ generation error: Error: no emitter"].
Proof.
  destruct (TranspilerFacts.top_level_class_yields_sentinel
              (PythonParser.parse 40) (CParser.parse 40)
              (CppParser.parse 40) (JavaParser.parse 40)
              (returning "py") (fun ir => inr (CGenerator.generate ir))
              (throwing "no emitter") JavaGenerator.generate
              javaCounter LJava javaCounterIR counterClass)
    as (r & Hrun & Hc & He & _).
  - vm_compute. reflexivity.
  - simpl. left. reflexivity.
  - left. simpl. discriminate.
  - simpl. intros (H & _). discriminate H.
  - exists r. split; [exact Hrun|]. split; [exact Hc|].
    rewrite He. vm_compute. reflexivity.
Defined.

(** A class nested in a function is not seen by the guard: the C field
    is what the C back-end makes of the Program. *)
Lemma nested_class_escapes_guard :
  PythonParser.parse 40 pythonNestedClass = Returned pythonNestedClassIR
  /\ exists r,
       Transpiler.run 40 (returning "py") (returning "cpp")
                      pythonNestedClass LPython = Some r
       /\ Transpiler.c r = Some (CGenerator.generate pythonNestedClassIR)
       /\ String.eqb (CGenerator.generate pythonNestedClassIR)
                     Transpiler.sentinel = false
       /\ Transpiler.errors r = [].
Proof.
  split; [vm_compute; reflexivity|].
  eexists. split; [vm_compute; reflexivity|].
  repeat split; vm_compute; reflexivity.
Qed.

(** ** C2 *)

(** An instance of [emission_errors_are_recorded_per_target]: with a PY
    back-end that throws, the result is not a success, has one error
    entry, and still holds the texts of the three other targets. *)
Lemma emission_errors_are_recorded_per_target_witness :
  exists r,
    Transpiler.run 40 (throwing "no emitter") (returning "cpp")
                   pythonPrint LPython = Some r
    /\ Transpiler.success r = false
    /\ Transpiler.python r = None
    /\ Transpiler.c r = Some (CGenerator.generate pythonPrintIR)
    /\ Transpiler.cpp r = Some "cpp"
    /\ Transpiler.errors r = ["Python generation error: Error: no emitter"].
Proof.
  destruct (TranspilerFacts.emission_errors_are_recorded_per_target
              (PythonParser.parse 40) (CParser.parse 40)
              (CppParser.parse 40) (JavaParser.parse 40)
              (throwing "no emitter") (fun ir => inr (CGenerator.generate ir))
              (returning "cpp") JavaGenerator.generate
              pythonPrint LPython pythonPrintIR)
    as (r & Hrun & Hpy & Hc & Hcpp & _ & He & Hs).
  - vm_compute. reflexivity.
  - assert (Herr : Transpiler.errors r
                   = ["Python generation error: Error: no emitter"]).
    { rewrite He. vm_compute. reflexivity. }
    exists r. split; [exact Hrun|].
    split.
    { destruct (Transpiler.success r); [|reflexivity].
      destruct Hs as [Hs _]. specialize (Hs eq_refl).
      rewrite Herr in Hs. discriminate Hs. }
    split; [exact Hpy|]. split; [exact Hc|]. split; [exact Hcpp|exact Herr].
Defined.

(** ** C3 *)

(** An instance of [parseFor_range] on each of the two loop forms: the
    declaration ends at token 7, the condition at token 10, the update
    at token 13 (14 in the second form). *)
Lemma parseFor_range_witness :
  CParser.parseFor (CParser.table 30)
                   (Core.mkPState (CParser.tokenize forInclusive) 0)
  = Returned (forInclusiveNode,
              Core.mkPState (CParser.tokenize forInclusive) 16)
  /\ CParser.parseFor (CParser.table 30)
                      (Core.mkPState (CParser.tokenize forStepped) 0)
     = Returned (forSteppedNode,
                 Core.mkPState (CParser.tokenize forStepped) 17).
Proof.
  split.
  - refine (proj1 (CParserFacts.parseFor_range
                     (CParser.table 30)
                     (Core.mkPState (CParser.tokenize forInclusive) 0)
                     (mkToken KEYWORD "int") "i" TInt (intLit 0)
                     (Core.mkPState (CParser.tokenize forInclusive) 7)
                     (NBinaryOp "<=" (NIdentifier "i") (intLit 9))
                     (Core.mkPState (CParser.tokenize forInclusive) 10)
                     (NUnaryOp "++_post" (NIdentifier "i"))
                     (Core.mkPState (CParser.tokenize forInclusive) 13)
                     []
                     (Core.mkPState (CParser.tokenize forInclusive) 16)
                     _ _ _ _ _ _ _ _ _ _ _ _)
                  (NIdentifier "i") (intLit 9) (NIdentifier "i")
                  eq_refl eq_refl);
      vm_compute; reflexivity.
  - refine (proj2 (CParserFacts.parseFor_range
                     (CParser.table 30)
                     (Core.mkPState (CParser.tokenize forStepped) 0)
                     (mkToken KEYWORD "int") "i" TInt (intLit 0)
                     (Core.mkPState (CParser.tokenize forStepped) 7)
                     (NBinaryOp "<" (NIdentifier "i") (intLit 10))
                     (Core.mkPState (CParser.tokenize forStepped) 10)
                     (NBinaryOp "+=" (NIdentifier "i") (intLit 2))
                     (Core.mkPState (CParser.tokenize forStepped) 14)
                     []
                     (Core.mkPState (CParser.tokenize forStepped) 17)
                     _ _ _ _ _ _ _ _ _ _ _ _)
                  (NIdentifier "i") (intLit 10) (NIdentifier "i") (intLit 2)
                  eq_refl eq_refl);
      vm_compute; reflexivity.
Defined.

(** The two loop forms, parsed inside a function. *)
Lemma parseFor_examples n :
  CParser.parse (30 + n) ("int main() { " ++ forInclusive ++ " }")
  = Returned (mkProgram [NFunction (mkFunction "main" [] TInt
                                      [forInclusiveNode])] [])
  /\ CParser.parse (30 + n) ("int main() { " ++ forStepped ++ " }")
     = Returned (mkProgram [NFunction (mkFunction "main" [] TInt
                                         [forSteppedNode])] []).
Proof. split; vm_compute; reflexivity. Qed.

(** ** C4 *)

(** An instance of [parsePrintf_decomposition] on the statement of the
    specification's example: the value arguments read after the format
    literal are a and b, in this order. *)
Lemma parsePrintf_decomposition_witness :
  PrintfSpec.valueArguments
    (CParser.table 30)
    (Core.mkPState (CParser.tokenize printfExample) 3)
    [NIdentifier "a"; NIdentifier "b"]
    (Core.mkPState (CParser.tokenize printfExample) 7)
  /\ exists st',
       CParser.parsePrintf (CParser.table 30)
                           (Core.mkPState (CParser.tokenize printfExample) 0)
       = Returned (NPrint [strLit "x="; NIdentifier "a"; strLit " y=";
                           NIdentifier "b"] true,
                   st').
Proof.
  assert (Hv : PrintfSpec.valueArguments
                 (CParser.table 30)
                 (Core.mkPState (CParser.tokenize printfExample) 3)
                 [NIdentifier "a"; NIdentifier "b"]
                 (Core.mkPState (CParser.tokenize printfExample) 7)).
  { apply (PrintfSpec.valuesNext _ _ _
             (Core.mkPState (CParser.tokenize printfExample) 5));
      [vm_compute; reflexivity..|].
    apply (PrintfSpec.valuesNext _ _ _
             (Core.mkPState (CParser.tokenize printfExample) 7));
      [vm_compute; reflexivity..|].
    apply PrintfSpec.valuesEnd. vm_compute. reflexivity. }
  split; [exact Hv|].
  destruct (PrintfTheorems.parsePrintf_decomposition
              (CParser.table 30)
              (Core.mkPState (CParser.tokenize printfExample) 0)
              (QQ ++ "x=%d y=%s\n" ++ QQ)%string)
    as (_ & Hrun & _); [vm_compute; reflexivity..|].
  destruct (Hrun _ _ Hv) as (st' & E); [vm_compute; lia|].
  exists st'. exact E.
Defined.

(** A format text whose last run is backslash, backslash, n, n: the
    pair in the middle is taken out and what is left is the literal
    backslash-n. *)
Lemma printf_keeps_escape_literal :
  CParser.parse 30 ("int main() { " ++ printfDoubled ++ " }")
  = Returned (mkProgram
                [NFunction (mkFunction "main" [] TInt
                              [NPrint [NIdentifier "x"; strLit "\n"] true])]
                []).
Proof. vm_compute. reflexivity. Qed.

(** ** C7 *)

(** An instance of [java_class_has_no_staticMethods]: the static helper is
    in the method list, [main] is the mainMethod, and there is no
    staticMethods list. *)
Lemma java_class_has_no_staticMethods_witness :
  JavaParser.parseClass (JavaParser.table 30)
                        (Core.mkPState (JavaParser.tokenize javaStaticHelper) 0)
  = Returned (mkClass "Foo" [] [helperOfFoo] None (Some mainOfFoo) None,
              Core.mkPState (JavaParser.tokenize javaStaticHelper) 28)
  /\ cls_staticMethods
       (mkClass "Foo" [] [helperOfFoo] None (Some mainOfFoo) None) = None.
Proof.
  assert (H : JavaParser.parseClass (JavaParser.table 30)
                (Core.mkPState (JavaParser.tokenize javaStaticHelper) 0)
              = Returned (mkClass "Foo" [] [helperOfFoo] None (Some mainOfFoo)
                                  None,
                          Core.mkPState (JavaParser.tokenize javaStaticHelper)
                                        28)).
  { vm_compute. reflexivity. }
  split; [exact H|].
  exact (proj1 (JavaParserFacts.java_class_has_no_staticMethods _ _ _ _ H)).
Defined.

(** The same class through [parse], at every budget from 30 on. *)
Lemma java_static_helper_parse n :
  JavaParser.parse (30 + n) javaStaticHelper
  = Returned (mkProgram
                [NClass (mkClass "Foo" [] [helperOfFoo] None (Some mainOfFoo)
                                 None)] []).
Proof. vm_compute. reflexivity. Qed.

(** ** C9 *)



(** ** C10 *)

(** An instance of [class_name_alone_does_not_call_for_sentinel]: the class
    Foo holds a static main and nothing else; the C field is the text
    of the C back-end. *)
Lemma class_name_alone_does_not_call_for_sentinel_witness :
  exists r,
    Transpiler.run 40 (returning "py") (returning "cpp") javaShell LJava
    = Some r
    /\ Transpiler.c r = Some (CGenerator.generate javaShellIR).
Proof.
  destruct (TranspilerFacts.class_name_alone_does_not_call_for_sentinel
              (PythonParser.parse 40) (CParser.parse 40)
              (CppParser.parse 40) (JavaParser.parse 40)
              (returning "py") (fun ir => inr (CGenerator.generate ir))
              (returning "cpp") JavaGenerator.generate
              javaShell LJava javaShellIR)
    as (r & Hrun & _ & Hc).
  - vm_compute. reflexivity.
  - exists r. split; [exact Hrun|]. apply Hc.
    simpl. intros cls [H|[]]. injection H as <-. left. simpl. repeat split.
Defined.

(** The class Foo of [javaShell] is not named Main, and the C field is
    a free [main], not the sentinel. *)
Lemma shell_named_Foo_reaches_C_backend :
  JavaParser.parse 40 javaShell = Returned javaShellIR
  /\ exists r,
       Transpiler.run 40 (returning "py") (returning "cpp") javaShell LJava
       = Some r
       /\ Transpiler.c r
          = Some ("int main() {" ++ NL ++ "    return 0;" ++ NL ++ "}")%string.
Proof.
  split; [vm_compute; reflexivity|].
  eexists. split; vm_compute; reflexivity.
Qed.

End Examples.


(* ================================================================== *)
(** * Further properties *)
(* ================================================================== *)

Import Shapes.

Module ResultFacts.
Import Transpiler TranspilerFacts.

Section Orchestrator.
Variables pythonParser cParser cppParser javaParser
  : string -> Outcome IRProgram.
Variables pythonGenerator cGenerator cppGenerator javaGenerator
  : IRProgram -> Exn + string.

(** X1.  Whatever the front-end and the back-ends do, the record
    [transpile] returns is a success exactly when its error list is
    empty, and exactly when all four output fields are present; a
    record that is not a success has at least one error entry. *)
Theorem result_record_invariant sourceCode sourceLanguage r :
  transpile pythonParser cParser cppParser javaParser
            pythonGenerator cGenerator cppGenerator javaGenerator
            sourceCode sourceLanguage = Some r ->
  (success r = true <-> errors r = [])
  /\ (success r = true <->
      python r <> None /\ c r <> None /\ cpp r <> None /\ java r <> None)
  /\ (success r = false -> errors r <> []).
Proof.
  unfold transpile.
  destruct (parseSource _ _ _ _ sourceCode sourceLanguage) as [ir|e|];
    [| |discriminate].
  - intros H. injection H as <-.
    rewrite (emitAll_eq pythonGenerator cGenerator cppGenerator javaGenerator).
    cbv zeta. rewrite !attempt_eq. cbn [fst snd].
    cbn [python c cpp java errors success].
    destruct (pythonGenerator ir), (cppGenerator ir), (javaGenerator ir),
      (hasNonMainClasses ir); try destruct (cGenerator ir);
      cbn; repeat split; intros; try discriminate; try congruence;
      try tauto;
      try (match goal with H : _ /\ _ |- _ => decompose [and] H end; congruence).
  - intros H. injection H as <-. cbn.
    repeat split; intros; try discriminate; try congruence; tauto.
Qed.

End Orchestrator.
End ResultFacts.

Module CProgramFacts.
Import Core CParser.

(** The top-level forms the C front-end builds. *)
Lemma parseFunctionOrVariable_forms self s r s' :
  parseFunctionOrVariable self s = Returned (r, s') ->
  match r with
  | None | Some (NFunction _) | Some (NVariable _) => True
  | _ => False
  end.
Proof.
  unfold parseFunctionOrVariable. intros H.
  apply MonadFacts.bind_Returned in H as (u & s1 & _ & H).
  apply MonadFacts.bind_Returned in H as (typeToken & s2 & _ & H).
  destruct typeToken as [tk|].
  2:{ apply MonadFacts.ret_Returned in H. now injection H as -> _. }
  apply MonadFacts.bind_Returned in H as (star & s3 & _ & H).
  apply MonadFacts.bind_Returned in H as (u2 & s4 & _ & H).
  apply MonadFacts.bind_Returned in H as (nameToken & s5 & _ & H).
  destruct nameToken as [nk|].
  2:{ apply MonadFacts.ret_Returned in H. now injection H as -> _. }
  apply MonadFacts.bind_Returned in H as (call & s6 & _ & H).
  destruct call.
  - apply MonadFacts.bind_Returned in H as (f & s7 & _ & H).
    apply MonadFacts.ret_Returned in H. now injection H as -> _.
  - apply MonadFacts.bind_Returned in H as (v & s7 & _ & H).
    apply MonadFacts.ret_Returned in H. now injection H as -> _.
Qed.

Lemma parseComment_forms s r s' :
  parseComment s = Returned (r, s') ->
  match r with
  | None | Some (NComment _ _) => True
  | _ => False
  end.
Proof.
  unfold parseComment. intros H.
  apply MonadFacts.bind_Returned in H as (c & s1 & _ & H).
  destruct c.
  - apply MonadFacts.bind_Returned in H as (v & s2 & _ & H).
    apply MonadFacts.ret_Returned in H. now injection H as -> _.
  - apply MonadFacts.bind_Returned in H as (m & s2 & _ & H).
    destruct m.
    + apply MonadFacts.bind_Returned in H as (v & s3 & _ & H).
      apply MonadFacts.ret_Returned in H. now injection H as -> _.
    + apply MonadFacts.ret_Returned in H. now injection H as -> _.
Qed.

Lemma parseTopLevel_forms self s r s' :
  parseTopLevel self s = Returned (r, s') ->
  match r with
  | None | Some (NComment _ _) | Some (NFunction _) | Some (NVariable _) => True
  | _ => False
  end.
Proof.
  unfold parseTopLevel. intros H.
  apply MonadFacts.bind_Returned in H as (cm & s1 & Hc & H).
  apply parseComment_forms in Hc.
  destruct cm as [c|].
  { apply MonadFacts.ret_Returned in H. injection H as -> _.
    destruct c; try contradiction; exact I. }
  apply MonadFacts.bind_Returned in H as (typeToken & s2 & _ & H).
  destruct typeToken as [tk|].
  2:{ apply MonadFacts.ret_Returned in H. now injection H as -> _. }
  apply MonadFacts.bind_Returned in H as (ty & s3 & _ & H).
  destruct ty.
  - apply parseFunctionOrVariable_forms in H.
    destruct r as [[]|]; try contradiction; exact I.
  - apply MonadFacts.bind_Returned in H as (a & s4 & _ & H).
    apply MonadFacts.ret_Returned in H. now injection H as -> _.
Qed.

Lemma parseProgram_loop self fuel :
  forall stmts imps s p s',
    loop fuel (fun acc : list IRNode * list string =>
      let '(stmts, imps) := acc in
      go <- more ;;
      if go then
        pre <- matchT PREPROCESSOR ;;
        if pre then
          directive <- advanceValue ;;
          ret (inl (stmts, if includes directive "include"
                           then (imps ++ [directive])%list else imps))
        else
          node <- parseTopLevel self ;;
          ret (inl (push stmts node, imps))
      else ret (inr (mkProgram stmts imps))) (stmts, imps) s
    = Returned (p, s') ->
    Forall topForm stmts ->
    Forall (fun d => includes d "include" = true) imps ->
    Forall topForm (body p)
    /\ Forall (fun d => includes d "include" = true) (imports p).
Proof.
  induction fuel as [|n IH]; intros stmts imps s p s' H Hb Hi; [discriminate|].
  cbn [loop] in H.
  apply MonadFacts.bind_Returned in H as (r & s1 & Hstep & H).
  apply MonadFacts.bind_Returned in Hstep as (go & s2 & _ & Hstep).
  destruct go.
  - apply MonadFacts.bind_Returned in Hstep as (pre & s3 & _ & Hstep).
    destruct pre.
    + apply MonadFacts.bind_Returned in Hstep as (directive & s4 & _ & Hstep).
      apply MonadFacts.ret_Returned in Hstep. injection Hstep as -> ->.
      apply IH in H; [exact H|exact Hb|].
      destruct (includes directive "include") eqn:E; [|exact Hi].
      apply Forall_app. split; [exact Hi|]. constructor; [exact E|constructor].
    + apply MonadFacts.bind_Returned in Hstep as (node & s4 & Hnode & Hstep).
      apply MonadFacts.ret_Returned in Hstep. injection Hstep as -> ->.
      apply IH in H; [exact H| |exact Hi].
      apply parseTopLevel_forms in Hnode.
      destruct node as [node|]; [|exact Hb].
      cbn [push]. apply Forall_app. split; [exact Hb|].
      constructor; [|constructor].
      destruct node; try contradiction; exact I.
  - apply MonadFacts.ret_Returned in Hstep. injection Hstep as -> ->.
    apply MonadFacts.ret_Returned in H. injection H as -> _.
    split; assumption.
Qed.

(** X2.  A Program the C front-end returns holds, at top level, only
    comments, functions and variables, and its import list holds only
    preprocessor lines that contain the word include; so the class
    guard of the orchestrator never fires on a C source. *)
Theorem c_program_shape fuel code ir :
  parse fuel code = Returned ir ->
  Forall topForm (body ir)
  /\ Forall (fun d => includes d "include" = true) (imports ir)
  /\ Transpiler.hasNonMainClasses ir = false.
Proof.
  unfold parse, parseProgram. intros H.
  destruct (loop _ _ _ _) as [[p s']| |] eqn:E; try discriminate.
  injection H as ->.
  apply parseProgram_loop in E; [|constructor|constructor].
  destruct E as [Hb Hi]. repeat split; [exact Hb|exact Hi|].
  apply TranspilerFacts.hasNonMainClasses_from_none.
  intros cls Hin. rewrite Forall_forall in Hb. apply Hb in Hin. contradiction.
Qed.

End CProgramFacts.

Module ForFacts.
Import Core.

Lemma rangeEndOf_Some condition :
  rangeEndOf condition <> None <->
  exists op l r, condition = Some (NBinaryOp op l r) /\ (op = "<" \/ op = "<=").
Proof.
  unfold rangeEndOf. split.
  - destruct condition as [[]|]; try congruence.
    destruct (String.eqb_spec operator "<") as [->|]; [eauto 6|].
    destruct (String.eqb_spec operator "<=") as [->|]; [eauto 6|congruence].
  - intros (op & l & r & -> & [-> | ->]); cbn; discriminate.
Qed.

Lemma c_rangeStepOf_Some update :
  CParser.rangeStepOf update <> None <->
  (exists op o, update = Some (NUnaryOp op o)
                /\ In op ["++"; "++_post"; "--"; "--_post"])
  \/ (exists op o S, update = Some (NBinaryOp op o S) /\ In op ["+="; "-="]).
Proof.
  unfold CParser.rangeStepOf. split.
  - destruct update as [[]|]; try congruence.
    + destruct (String.eqb_spec operator "+=") as [->|];
        [intros _; right; do 3 eexists; split; [reflexivity|simpl; auto]|].
      destruct (String.eqb_spec operator "-=") as [->|];
        [intros _; right; do 3 eexists; split; [reflexivity|simpl; auto]|].
      congruence.
    + destruct (String.eqb_spec operator "++") as [->|];
        [intros _; left; do 2 eexists; split; [reflexivity|simpl; auto]|].
      destruct (String.eqb_spec operator "++_post") as [->|];
        [intros _; left; do 2 eexists; split; [reflexivity|simpl; auto]|].
      destruct (String.eqb_spec operator "--") as [->|];
        [intros _; left; do 2 eexists; split; [reflexivity|simpl; auto 6]|].
      destruct (String.eqb_spec operator "--_post") as [->|];
        [intros _; left; do 2 eexists; split; [reflexivity|simpl; auto 6]|].
      cbn. congruence.
  - intros [(op & o & -> & Hin)|(op & o & S & -> & Hin)]; simpl in Hin;
      repeat (destruct Hin as [<-|Hin]; [cbn; discriminate|]); contradiction.
Qed.

Lemma cpp_rangeStepOf_Some update :
  CppParser.rangeStepOf update <> None <->
  (exists op o, update = Some (NUnaryOp op o) /\ In op ["++"; "++_post"])
  \/ (exists o S, update = Some (NBinaryOp "+=" o S)).
Proof.
  unfold CppParser.rangeStepOf. split.
  - destruct update as [[]|]; try congruence.
    + destruct (String.eqb_spec operator "+=") as [->|]; [eauto 6|congruence].
    + destruct (String.eqb_spec operator "++") as [->|];
        [intros _; left; do 2 eexists; split; [reflexivity|simpl; auto]|].
      destruct (String.eqb_spec operator "++_post") as [->|];
        [intros _; left; do 2 eexists; split; [reflexivity|simpl; auto]|].
      cbn. congruence.
  - intros [(op & o & -> & Hin)|(o & S & ->)]; [|cbn; discriminate].
    simpl in Hin.
    repeat (destruct Hin as [<-|Hin]; [cbn; discriminate|]); contradiction.
Qed.

Lemma cpp_parseFor_shape self st node st' :
  CppParser.parseFor self st = Returned (node, st') ->
  exists init condition update body,
    node = CppParser.forNode init condition update body.
Proof.
  unfold CppParser.parseFor. intros H. bind_inv H.
  apply MonadFacts.ret_Returned in H. injection H as -> _. eauto.
Qed.

Lemma java_parseFor_shape self st node st' :
  JavaParser.parseFor self st = Returned (node, st') ->
  exists init condition update body,
    node = JavaParser.forNode init condition update body.
Proof.
  unfold JavaParser.parseFor. intros H. bind_inv H.
  apply MonadFacts.ret_Returned in H. injection H as -> _. eauto.
Qed.

(** X3.  In a For node of the C front-end the range end is present
    exactly when the condition is a comparison with [<] or [<=], and the
    range step exactly when the update is an increment, a decrement,
    [+=] or [-=]; a decrement gives the step -1 and [-= S] the step
    [-S].  A loop that counts down with a [>] condition therefore has
    a step and no end. *)
Theorem c_parseFor_countdown self st node st' :
  CParser.parseFor self st = Returned (node, st') ->
  exists init condition update iterator rangeStart rangeEnd rangeStep body,
    node = NFor init condition update iterator rangeStart rangeEnd
                rangeStep body
    /\ (rangeEnd <> None <->
        exists op l r, condition = Some (NBinaryOp op l r)
                       /\ (op = "<" \/ op = "<="))
    /\ (rangeStep <> None <->
        (exists op o, update = Some (NUnaryOp op o)
                      /\ In op ["++"; "++_post"; "--"; "--_post"])
        \/ (exists op o S, update = Some (NBinaryOp op o S)
                           /\ In op ["+="; "-="]))
    /\ (forall op o, update = Some (NUnaryOp op o) ->
                     op = "--" \/ op = "--_post" ->
                     rangeStep = Some (intLit (-1)))
    /\ (forall o S, update = Some (NBinaryOp "-=" o S) ->
                    rangeStep = Some (NUnaryOp "-" S)).
Proof.
  intros H. apply CParserFacts.parseFor_shape in H.
  destruct H as (init & condition & update & body & ->).
  exists init, condition, update, (rangeIterator init), (rangeStartOf init),
    (rangeEndOf condition), (CParser.rangeStepOf update), body.
  split; [reflexivity|].
  split; [apply rangeEndOf_Some|].
  split; [apply c_rangeStepOf_Some|].
  split.
  - intros op o -> [-> | ->]; reflexivity.
  - intros o S ->. reflexivity.
Qed.

(** X4.  The CPP and JV front-ends recognise only counting up: in their
    For nodes the range step is present exactly when the update is an
    increment or [+=]; a decrement or [-=] leaves it absent. *)
Theorem cpp_java_parseFor_no_countdown node :
  (exists self st st', CppParser.parseFor self st = Returned (node, st'))
  \/ (exists self st st', JavaParser.parseFor self st = Returned (node, st')) ->
  exists init condition update iterator rangeStart rangeEnd rangeStep body,
    node = NFor init condition update iterator rangeStart rangeEnd
                rangeStep body
    /\ (rangeStep <> None <->
        (exists op o, update = Some (NUnaryOp op o)
                      /\ In op ["++"; "++_post"])
        \/ (exists o S, update = Some (NBinaryOp "+=" o S)))
    /\ (forall op o, update = Some (NUnaryOp op o) ->
                     op = "--" \/ op = "--_post" -> rangeStep = None)
    /\ (forall o S, update = Some (NBinaryOp "-=" o S) -> rangeStep = None).
Proof.
  intros H.
  assert (Hshape : exists init condition update body,
             node = NFor init condition update (rangeIterator init)
                         (rangeStartOf init) (rangeEndOf condition)
                         (CppParser.rangeStepOf update) body).
  { destruct H as [(self & st & st' & H)|(self & st & st' & H)].
    - apply cpp_parseFor_shape in H. exact H.
    - apply java_parseFor_shape in H. exact H. }
  destruct Hshape as (init & condition & update & body & ->).
  exists init, condition, update, (rangeIterator init), (rangeStartOf init),
    (rangeEndOf condition), (CppParser.rangeStepOf update), body.
  split; [reflexivity|].
  split; [apply cpp_rangeStepOf_Some|].
  split.
  - intros op o -> [-> | ->]; reflexivity.
  - intros o S ->. reflexivity.
Qed.

End ForFacts.

Module FormatFacts.
Import CParser.
Local Open Scope string_scope.

Lemma append_str1 (a : string) c b : (a ++ str1 c) ++ b = a ++ String c b.
Proof. induction a as [|x a IH]; simpl; [reflexivity|now rewrite IH]. Qed.

Lemma append_nil_r (a : string) : a ++ "" = a.
Proof. induction a as [|x a IH]; simpl; [reflexivity|now rewrite IH]. Qed.

Lemma append_assoc (a b c : string) : (a ++ b) ++ c = a ++ b ++ c.
Proof. induction a as [|x a IH]; simpl; [reflexivity|now rewrite IH]. Qed.

Lemma texts_app a b : texts (a ++ b)%list = texts a ++ texts b.
Proof.
  unfold texts. induction a as [|x a IH]; simpl; [reflexivity|].
  now rewrite IH, append_assoc.
Qed.

Lemma texts_flush cur : texts (flushCurrent cur) = cur.
Proof. destruct cur; [reflexivity|]. unfold texts. simpl. now rewrite append_nil_r. Qed.

Lemma texts_from n :
  forall format cur,
    String.length format <= n ->
    includes format "%%" = false ->
    texts (parsePrintfFormat_from format cur) = (cur ++ format)%string.
Proof.
  induction n as [|n IH]; intros [|c rest] cur Hlen Hno;
    try (simpl in Hlen; lia).
  - cbn [parsePrintfFormat_from]. now rewrite texts_flush, append_nil_r.
  - cbn [parsePrintfFormat_from]. now rewrite texts_flush, append_nil_r.
  - rewrite CleanFacts.includes_cons in Hno.
    apply orb_false_iff in Hno as [Hp Hrest].
    assert (Hplain : texts (parsePrintfFormat_from rest (cur ++ str1 c))
                     = (cur ++ String c rest)%string).
    { rewrite IH; [apply append_str1|simpl in Hlen; lia|exact Hrest]. }
    cbn [parsePrintfFormat_from].
    destruct (Ascii.eqb_spec c percent) as [->|Hc]; [|exact Hplain].
    destruct rest as [|d rest']; [exact Hplain|].
    destruct (memc d directives).
    + rewrite texts_app, texts_flush.
      change (mkPart (String percent (str1 d)) true :: parsePrintfFormat_from rest' "")
        with ([mkPart (String percent (str1 d)) true] ++ parsePrintfFormat_from rest' "")%list.
      rewrite texts_app, IH; [reflexivity|simpl in Hlen; lia|].
      rewrite CleanFacts.includes_cons in Hrest.
      now apply orb_false_iff in Hrest as [_ Hrest].
    + destruct (Ascii.eqb_spec d percent) as [->|Hd]; [|exact Hplain].
      cbn in Hp. rewrite CleanFacts.prefix_nil in Hp. discriminate.
Qed.

Lemma memc_In c l : memc c l = true -> In c l.
Proof.
  induction l as [|x l IH]; simpl; [discriminate|].
  destruct (Ascii.eqb_spec c x) as [->|]; [now left|]. intros H. right. now apply IH.
Qed.

Lemma flush_wellFormed cur : Forall wellFormedPart (flushCurrent cur).
Proof.
  destruct cur; constructor; [|constructor]. unfold wellFormedPart. cbn. discriminate.
Qed.

Lemma parts_wellFormed n :
  forall format cur,
    String.length format <= n ->
    Forall wellFormedPart (parsePrintfFormat_from format cur).
Proof.
  induction n as [|n IH]; intros [|c rest] cur Hlen;
    try (simpl in Hlen; lia); cbn [parsePrintfFormat_from];
    try apply flush_wellFormed.
  assert (Hplain : Forall wellFormedPart
                     (parsePrintfFormat_from rest (cur ++ str1 c))).
  { apply IH. simpl in Hlen. lia. }
  destruct (Ascii.eqb c percent); [|exact Hplain].
  destruct rest as [|d rest']; [exact Hplain|].
  destruct (memc d directives) eqn:Hd.
  - apply Forall_app. split; [apply flush_wellFormed|].
    constructor; [|apply IH; simpl in Hlen; lia].
    unfold wellFormedPart. cbn [isFormat text]. exists d.
    split; [now apply memc_In|reflexivity].
  - destruct (Ascii.eqb d percent); [|exact Hplain].
    apply IH. simpl in Hlen. lia.
Qed.

(** X5.  [parsePrintfFormat] cuts a format text into parts without
    losing anything: every directive part is a percent sign followed by
    one conversion letter, no literal part is empty, and when the text
    holds no doubled percent sign the parts' texts, put together again,
    are the text itself. *)
Theorem parsePrintfFormat_round_trip format :
  Forall wellFormedPart (parsePrintfFormat format)
  /\ (includes format "%%" = false ->
      texts (parsePrintfFormat format) = format).
Proof.
  unfold parsePrintfFormat. split.
  - now apply (parts_wellFormed (String.length format)).
  - intros H. now apply (texts_from (String.length format)).
Qed.

End FormatFacts.

Module TokenFacts.
Import LexerFacts.
Local Open Scope string_scope.

Lemma step_shape cfg s t rest :
  Lexer.step cfg s = Some (Some t, rest) -> tokenShape cfg t.
Proof.
  unfold Lexer.step. destruct s as [|c r]; [discriminate|].
  destruct (isSpace c); [discriminate|].
  destruct (Lexer.preprocessor cfg && Ascii.eqb c (ch 35)) eqn:Hpre.
  { apply andb_true_iff in Hpre as [_ Hc]. apply Ascii.eqb_eq in Hc. subst c.
    intros H. injection H as <- _. unfold tokenShape. cbn [ttype value].
    eexists. reflexivity. }
  destruct (String.prefix "//" (String c r)).
  { intros H. injection H as <- _. exact I. }
  destruct (String.prefix "/*" (String c r)).
  { destruct (Lexer.scanBlockComment _) as [cm rs].
    intros H. injection H as <- _. exact I. }
  destruct (Ascii.eqb c dquote).
  { destruct (Lexer.scanQuoted _ dquote r) as [q rs].
    intros H. injection H as <- _. unfold tokenShape. cbn [ttype value]. eauto. }
  destruct (Ascii.eqb c squote).
  { destruct (Lexer.scanQuoted _ squote r) as [q rs].
    intros H. injection H as <- _. unfold tokenShape. cbn [ttype value]. eauto. }
  destruct (Lexer.scanNumber _ (String c r)) as [[n rs]|] eqn:Hn.
  { intros H. injection H as <- _. unfold tokenShape. cbn [ttype value].
    unfold Lexer.scanNumber in Hn. destruct (isDigit c) eqn:Hd; [|discriminate].
    cbn [takeWhile] in Hn. rewrite Hd in Hn.
    destruct (match dropWhile isDigit (String c r) with
              | EmptyString => _ | String _ _ => _ end) as [dot r2].
    destruct (match dropWhile isDigit r2 with
              | EmptyString => _ | String _ _ => _ end) as [sfx r4].
    injection Hn as <- _. cbn. eauto. }
  destruct (Lexer.scanWord (String c r)) as [[w rs]|] eqn:Hw.
  { intros H. injection H as <- _. unfold tokenShape.
    destruct (mem w (Lexer.keywords cfg)) eqn:Hm; cbn [ttype value]; exact Hm. }
  destruct (Lexer.matchOp _ (String c r)) as [op|] eqn:Hop.
  { intros H. injection H as <- _. unfold tokenShape. cbn [ttype value].
    now apply matchOp_In in Hop as [Hin _]. }
  intros H. injection H as <- _. reflexivity.
Qed.

Lemma run_shape cfg fuel :
  forall s toks, Lexer.run cfg fuel s = Some toks -> Forall (tokenShape cfg) toks.
Proof.
  induction fuel as [|n IH]; intros s toks H; [discriminate|].
  cbn [Lexer.run] in H.
  destruct (Lexer.step cfg s) as [[ot rest]|] eqn:Hs.
  - destruct (Lexer.run cfg n rest) as [l|] eqn:Hr; [|discriminate].
    injection H as <-. apply IH in Hr.
    destruct ot as [t|]; [|exact Hr].
    constructor; [now apply step_shape in Hs|exact Hr].
  - injection H as <-. constructor.
Qed.

Lemma run_length cfg :
  Lexer.wellFormed cfg ->
  forall fuel s toks,
    Lexer.run cfg fuel s = Some toks -> List.length toks <= String.length s.
Proof.
  intros Hwf. induction fuel as [|n IH]; intros s toks H; [discriminate|].
  cbn [Lexer.run] in H.
  destruct (Lexer.step cfg s) as [[ot rest]|] eqn:Hs.
  - destruct (Lexer.run cfg n rest) as [l|] eqn:Hr; [|discriminate].
    injection H as <-. apply IH in Hr.
    apply step_progress in Hs; [|exact Hwf].
    destruct ot; simpl; lia.
  - injection H as <-. simpl. lia.
Qed.

Lemma removeLast_snoc inner c : removeLast (inner ++ str1 c) = inner.
Proof.
  induction inner as [|x inner IH]; [reflexivity|].
  cbn [append removeLast]. rewrite IH.
  destruct (inner ++ str1 c) eqn:E; [|reflexivity].
  destruct inner; discriminate.
Qed.

(** X6.  Every token of the C, CPP and JV lexers has the value its kind
    promises: a STRING or CHAR value is a text between two quotes (so
    [slice(1, -1)] is that text), a NUMBER starts with a digit, a
    KEYWORD is in the language's keyword list and an IDENTIFIER is not,
    an OPERATOR is one of the multi-character operators, a PUNCTUATION
    is one character, a PREPROCESSOR line starts with a hash sign. *)
Theorem token_values_have_their_shape code t :
  (In t (CParser.tokenize code) -> tokenShape CParser.config t)
  /\ (In t (CppParser.tokenize code) -> tokenShape CppParser.config t)
  /\ (In t (JavaParser.tokenize code) -> tokenShape JavaParser.config t)
  /\ (forall inner q, slice_1_m1 (String q (inner ++ str1 q)) = inner).
Proof.
  assert (H : forall cfg, In t (Lexer.tokenize cfg code) -> tokenShape cfg t).
  { intros cfg. unfold Lexer.tokenize.
    destruct (Lexer.run cfg _ code) as [l|] eqn:E; [|contradiction].
    apply run_shape in E. rewrite Forall_forall in E. apply E. }
  repeat split; try apply H.
  intros inner q. unfold slice_1_m1. cbn [drop]. apply removeLast_snoc.
Qed.

(** X7.  The C, CPP and JV lexers never make more tokens than the text
    has characters. *)
Theorem token_count_bound code :
  List.length (CParser.tokenize code) <= String.length code
  /\ List.length (CppParser.tokenize code) <= String.length code
  /\ List.length (JavaParser.tokenize code) <= String.length code.
Proof.
  assert (H : forall cfg, Lexer.wellFormed cfg ->
                List.length (Lexer.tokenize cfg code) <= String.length code).
  { intros cfg Hwf. unfold Lexer.tokenize.
    destruct (Lexer.run cfg _ code) as [l|] eqn:E; [|simpl; lia].
    now apply (run_length cfg Hwf) in E. }
  repeat split; apply H;
    [apply wellFormed_c|apply wellFormed_cpp|apply wellFormed_java].
Qed.

End TokenFacts.

Module BlankFacts.
Local Open Scope string_scope.

Lemma run_blank cfg s :
  isBlank s = true -> forall fuel, String.length s < fuel -> Lexer.run cfg fuel s = Some [].
Proof.
  induction s as [|c r IH]; intros Hb fuel Hlt.
  - destruct fuel; [simpl in Hlt; lia|reflexivity].
  - cbn [isBlank] in Hb. apply andb_true_iff in Hb as [Hc Hr].
    destruct fuel as [|n]; [simpl in Hlt; lia|].
    cbn [Lexer.run Lexer.step]. rewrite Hc.
    rewrite (IH Hr n) by (simpl in Hlt; lia). reflexivity.
Qed.

Lemma tokenize_blank cfg s : isBlank s = true -> Lexer.tokenize cfg s = [].
Proof.
  intros Hb. unfold Lexer.tokenize. now rewrite (run_blank cfg s Hb) by lia.
Qed.

Lemma dropWhile_blank s : isBlank s = true -> dropWhile isSpace s = "".
Proof.
  induction s as [|c r IH]; [reflexivity|]. cbn [isBlank dropWhile].
  intros H. apply andb_true_iff in H as [-> Hr]. now apply IH.
Qed.

Lemma trim_blank s : isBlank s = true -> trim s = "".
Proof.
  intros H. unfold trim, trimStart. now rewrite (dropWhile_blank s H).
Qed.

Lemma rev_onto_blank s : forall acc,
  isBlank s = true -> isBlank acc = true -> isBlank (rev_onto s acc) = true.
Proof.
  induction s as [|c r IH]; intros acc Hs Ha; [exact Ha|].
  cbn [isBlank] in Hs. apply andb_true_iff in Hs as [Hc Hr].
  cbn [rev_onto]. apply IH; [exact Hr|]. cbn [isBlank]. now rewrite Hc, Ha.
Qed.

Lemma split_onto_blank sep s : forall cur,
  isBlank s = true -> isBlank cur = true ->
  Forall (fun line => isBlank line = true) (split_onto sep s cur).
Proof.
  induction s as [|c r IH]; intros cur Hs Hc.
  - constructor; [|constructor]. now apply rev_onto_blank.
  - cbn [isBlank] in Hs. apply andb_true_iff in Hs as [Hx Hr].
    cbn [split_onto]. destruct (Ascii.eqb c sep).
    + constructor; [now apply rev_onto_blank|now apply IH].
    + apply IH; [exact Hr|]. cbn [isBlank]. now rewrite Hx, Hc.
Qed.

Lemma linesLoop_blank lines :
  Forall (fun line => isBlank line = true) lines ->
  forall lineNum, PyLexer.linesLoop lineNum lines = Some [].
Proof.
  induction 1 as [|line rest Hl _ IH]; intros lineNum; [reflexivity|].
  cbn [PyLexer.linesLoop]. rewrite (trim_blank line Hl). cbn. apply IH.
Qed.

Lemma py_tokenize_blank s : isBlank s = true -> PyLexer.tokenize s = [].
Proof.
  intros H. unfold PyLexer.tokenize, split.
  now rewrite (linesLoop_blank _ (split_onto_blank LF s "" H eq_refl)).
Qed.

Lemma detectImports_blank s :
  isBlank s = true -> PythonParser.detectImports s = [].
Proof.
  intros H. unfold PythonParser.detectImports, split.
  pose proof (split_onto_blank LF s "" H eq_refl) as Hl.
  induction Hl as [|line rest Hline _ IH]; [reflexivity|].
  cbn [filter]. rewrite (trim_blank line Hline). cbn. exact IH.
Qed.

(** X8.  A text of white space only (the empty text included) has no
    tokens, and each of the four front-ends returns for it the Program
    with no statement and no import, at every budget from 2 on. *)
Theorem blank_text_parses_to_empty_program code n :
  isBlank code = true ->
  PythonParser.parse (2 + n) code = Returned (mkProgram [] [])
  /\ CParser.parse (2 + n) code = Returned (mkProgram [] [])
  /\ CppParser.parse (2 + n) code = Returned (mkProgram [] [])
  /\ JavaParser.parse (2 + n) code = Returned (mkProgram [] []).
Proof.
  intros H. repeat split.
  - unfold PythonParser.parse, PythonParser.tokenize, PythonParser.parseProgram.
    rewrite (py_tokenize_blank code H), (detectImports_blank code H). reflexivity.
  - unfold CParser.parse, CParser.tokenize.
    rewrite (tokenize_blank _ code H). reflexivity.
  - unfold CppParser.parse, CppParser.tokenize.
    rewrite (tokenize_blank _ code H). reflexivity.
  - unfold JavaParser.parse, JavaParser.tokenize.
    rewrite (tokenize_blank _ code H). reflexivity.
Qed.

End BlankFacts.

Module PyTokenFacts.
Import PyLexerFacts.
Local Open Scope string_scope.

Lemma step_emit_type remaining t v rest :
  PyLexer.step remaining = Some (PyLexer.Emit t v rest) ->
  TokenType_eqb t NEWLINE = false.
Proof.
  unfold PyLexer.step. destruct remaining as [|c r]; [discriminate|].
  destruct (isSpace c); [discriminate|].
  destruct (Ascii.eqb c (ch 35)); [discriminate|].
  destruct (PyLexer.fStringMatch _) as [[? ?]|];
    [intros H; injection H as <- _ _; reflexivity|].
  destruct (PyLexer.stringMatch _) as [[? ?]|];
    [intros H; injection H as <- _ _; reflexivity|].
  destruct (PyLexer.tripleMatch _) as [[? ?]|];
    [intros H; injection H as <- _ _; reflexivity|].
  destruct (Lexer.scanNumber _ _) as [[? ?]|];
    [intros H; injection H as <- _ _; reflexivity|].
  destruct (Lexer.scanWord _) as [[w ?]|];
    [intros H; injection H as <- _ _;
     match goal with
     | |- TokenType_eqb (if ?b then _ else _) _ = _ => destruct b
     end; reflexivity|].
  destruct (Lexer.matchOp _ _) as [?|];
    [intros H; injection H as <- _ _; reflexivity|].
  destruct (memc c PyLexer.punctuation); [|discriminate].
  intros H; injection H as <- _ _; reflexivity.
Qed.

Lemma lineLoop_tokens fuel lineNum lineIndent :
  forall col remaining toks col',
    PyLexer.lineLoop fuel lineNum lineIndent col remaining = Some (toks, col') ->
    Forall (fun t => py_line t = lineNum /\ py_indent t = lineIndent
                     /\ isNewline t = false) toks.
Proof.
  induction fuel as [|n IH]; intros col remaining toks col' H; [discriminate|].
  cbn [PyLexer.lineLoop] in H.
  destruct (PyLexer.step remaining) as [[k|t v rest|v]|] eqn:Hs.
  - now apply IH in H.
  - destruct (PyLexer.lineLoop n _ _ _ rest) as [[l c']|] eqn:Hl; [|discriminate].
    injection H as <- _. constructor; [|now apply IH in Hl].
    repeat split. unfold isNewline. cbn [py_type]. now apply step_emit_type in Hs.
  - injection H as <- _. constructor; [|constructor]. repeat split.
  - injection H as <- _. constructor.
Qed.

Lemma linesLoop_tokens lines :
  forall lineNum toks,
    PyLexer.linesLoop lineNum lines = Some toks ->
    Forall (fun t => lineNum <= py_line t
                     /\ exists line,
                          nth_error lines (py_line t - lineNum) = Some line
                          /\ py_indent t
                             = String.length (takeWhile isSpace line)) toks
    /\ List.length (filter isNewline toks)
       = List.length (filter nonBlank lines).
Proof.
  induction lines as [|line rest IH]; intros lineNum toks H.
  - injection H as <-. split; [constructor|reflexivity].
  - cbn [PyLexer.linesLoop] in H. cbn [filter]. unfold nonBlank at 1.
    destruct (Nat.eqb (String.length (trim line)) 0).
    + apply IH in H as [Ht Hc]. split; [|exact Hc].
      eapply Forall_impl; [|exact Ht]. cbn beta.
      intros t (Hle & l & Hn & Hi). split; [lia|].
      exists l. split; [|exact Hi].
      replace (py_line t - lineNum) with (S (py_line t - S lineNum)) by lia.
      exact Hn.
    + destruct (PyLexer.lineLoop _ _ _ _ _) as [[ltoks col]|] eqn:Hl; [|discriminate].
      destruct (PyLexer.linesLoop (S lineNum) rest) as [l|] eqn:Hr; [|discriminate].
      injection H as <-. apply IH in Hr as [Ht Hc].
      apply lineLoop_tokens in Hl.
      split.
      * apply Forall_app. split.
        { eapply Forall_impl; [|exact Hl]. cbn beta.
          intros t (-> & -> & _). split; [lia|].
          exists line. rewrite Nat.sub_diag. split; reflexivity. }
        constructor.
        { cbn [py_line py_indent]. split; [lia|].
          exists line. rewrite Nat.sub_diag. split; reflexivity. }
        eapply Forall_impl; [|exact Ht]. cbn beta.
        intros t (Hle & l' & Hn & Hi). split; [lia|].
        exists l'. split; [|exact Hi].
        replace (py_line t - lineNum) with (S (py_line t - S lineNum)) by lia.
        exact Hn.
      * rewrite filter_app, length_app. cbn [filter negb List.length].
        assert (Hnone : filter isNewline ltoks = []).
        { clear -Hl. induction Hl as [|t l (_ & _ & Hn) _ IHl]; [reflexivity|].
          cbn [filter]. now rewrite Hn. }
        rewrite Hnone. cbn. now rewrite Hc.
Qed.

(** X9.  In the token list of the PY lexer there is one NEWLINE token
    for each line that is not blank, and every token carries the number
    of its line and, as its indent, the count of white space the line
    starts with. *)
Theorem python_tokens_follow_lines code :
  List.length (filter isNewline (PyLexer.tokenize code))
  = List.length (filter nonBlank (split LF code))
  /\ Forall (fun t => exists line,
                 nth_error (split LF code) (py_line t) = Some line
                 /\ py_indent t = String.length (takeWhile isSpace line))
            (PyLexer.tokenize code).
Proof.
  unfold PyLexer.tokenize.
  destruct (linesLoop_total (split LF code) 0) as [toks H]. rewrite H.
  apply linesLoop_tokens in H as [Ht Hc]. split; [exact Hc|].
  eapply Forall_impl; [|exact Ht]. cbn beta.
  intros t (_ & line & Hn & Hi). rewrite Nat.sub_0_r in Hn. eauto.
Qed.

End PyTokenFacts.

Module LoopFacts.

(** A property that every round of a loop keeps holds of what the loop
    returns. *)
Lemma loop_invariant {S A B} (I : A -> Prop) (J : B -> Prop)
      (body : A -> M S (A + B)) :
  (forall a s r s', I a -> body a s = Returned (r, s') ->
                    match r with inl a' => I a' | inr b => J b end) ->
  forall fuel a s b s',
    I a -> loop fuel body a s = Returned (b, s') -> J b.
Proof.
  intros Hstep. induction fuel as [|n IH]; intros a s b s' Ha H; [discriminate|].
  cbn [loop] in H.
  apply MonadFacts.bind_Returned in H as (r & s1 & Hbody & H).
  specialize (Hstep a s r s1 Ha Hbody). destruct r as [a'|b'].
  - exact (IH a' s1 b s' Hstep H).
  - apply MonadFacts.ret_Returned in H. now injection H as -> _.
Qed.

End LoopFacts.

Module ConstructorFacts.
Import Core.

Lemma cpp_parseConstructor_name self s f s' :
  CppParser.parseConstructor self s = Returned (f, s') -> fn_name f = "__init__".
Proof.
  unfold CppParser.parseConstructor. intros H. bind_inv H.
  apply MonadFacts.ret_Returned in H. now injection H as -> _.
Qed.

Lemma java_parseConstructor_name self s f s' :
  JavaParser.parseConstructor self s = Returned (f, s') -> fn_name f = "__init__".
Proof.
  unfold JavaParser.parseConstructor. intros H. bind_inv H.
  apply MonadFacts.ret_Returned in H. now injection H as -> _.
Qed.

Lemma cpp_parseClass_constructor self s cls s' :
  CppParser.parseClass self s = Returned (cls, s') ->
  named_init (cls_constructor cls).
Proof.
  unfold CppParser.parseClass. intros H.
  apply MonadFacts.bind_Returned in H as (u0 & s0 & _ & H).
  apply MonadFacts.bind_Returned in H as (nameToken & s1 & _ & H).
  cbv zeta in H.
  apply MonadFacts.bind_Returned in H as (u1 & s2 & _ & H).
  apply MonadFacts.bind_Returned in H as (acc & s3 & Hloop & H).
  bind_inv H. apply MonadFacts.ret_Returned in H. injection H as -> _.
  cbn [cls_constructor].
  revert Hloop.
  apply (LoopFacts.loop_invariant
           (fun a => named_init (CppParser.constructor a))
           (fun a => named_init (CppParser.constructor a)));
    [|intros f Hf; discriminate].
  clear. intros a s r s' Ha H.
  apply MonadFacts.bind_Returned in H as (go & s1 & _ & H).
  destruct go.
  2:{ apply MonadFacts.ret_Returned in H. now injection H as -> _. }
  apply MonadFacts.bind_Returned in H as (access & s2 & _ & H).
  destruct access.
  { bind_inv H. apply MonadFacts.ret_Returned in H. now injection H as -> _. }
  apply MonadFacts.bind_Returned in H as (ctor & s3 & _ & H).
  destruct ctor.
  { apply MonadFacts.bind_Returned in H as (c & s4 & Hc & H).
    apply MonadFacts.ret_Returned in H. injection H as -> _.
    cbn. intros f Hf. injection Hf as <-.
    now apply cpp_parseConstructor_name in Hc. }
  apply MonadFacts.bind_Returned in H as (tok & s4 & _ & H).
  destruct (CppParser.isType tok).
  - apply MonadFacts.bind_Returned in H as (mm & s5 & _ & H).
    apply MonadFacts.ret_Returned in H. injection H as -> _.
    destruct mm as [[?|?]|]; exact Ha.
  - bind_inv H. apply MonadFacts.ret_Returned in H. now injection H as -> _.
Qed.

Lemma java_classEntry_constructor self name acc s acc' s' :
  JavaParser.classEntry self name acc s = Returned (acc', s') ->
  named_init (JavaParser.constructor acc) ->
  named_init (JavaParser.constructor acc').
Proof.
  unfold JavaParser.classEntry. intros H Ha.
  apply MonadFacts.bind_Returned in H as (isStatic & s1 & _ & H).
  apply MonadFacts.bind_Returned in H as (ctor & s2 & _ & H).
  destruct ctor.
  { apply MonadFacts.bind_Returned in H as (c & s3 & Hc & H).
    apply MonadFacts.ret_Returned in H. injection H as -> _.
    cbn. intros f Hf. injection Hf as <-.
    now apply java_parseConstructor_name in Hc. }
  apply MonadFacts.bind_Returned in H as (tok & s3 & _ & H).
  destruct (JavaParser.isType tok).
  - apply MonadFacts.bind_Returned in H as (mm & s4 & _ & H).
    apply MonadFacts.ret_Returned in H. injection H as -> _.
    unfold JavaParser.addEntry.
    destruct mm as [[func|v]|]; try exact Ha.
    destruct (_ && _); exact Ha.
  - bind_inv H. apply MonadFacts.ret_Returned in H. now injection H as -> _.
Qed.

Lemma java_parseClass_constructor self s cls s' :
  JavaParser.parseClass self s = Returned (cls, s') ->
  named_init (cls_constructor cls).
Proof.
  unfold JavaParser.parseClass. intros H.
  apply MonadFacts.bind_Returned in H as (u0 & s0 & _ & H).
  apply MonadFacts.bind_Returned in H as (nameToken & s1 & _ & H).
  cbv zeta in H.
  apply MonadFacts.bind_Returned in H as (u1 & s2 & _ & H).
  apply MonadFacts.bind_Returned in H as (u2 & s3 & _ & H).
  apply MonadFacts.bind_Returned in H as (acc & s4 & Hloop & H).
  bind_inv H. apply MonadFacts.ret_Returned in H. injection H as -> _.
  cbn [JavaParser.classNode cls_constructor].
  revert Hloop.
  apply (LoopFacts.loop_invariant
           (fun a => named_init (JavaParser.constructor a))
           (fun a => named_init (JavaParser.constructor a)));
    [|intros f Hf; discriminate].
  clear. intros acc0 s5 r s6 Ha H.
  apply MonadFacts.bind_Returned in H as (go & s7 & _ & H).
  destruct go.
  - apply MonadFacts.bind_Returned in H as (acc1 & s8 & He & H).
    apply MonadFacts.ret_Returned in H. injection H as -> _.
    now apply java_classEntry_constructor in He.
  - apply MonadFacts.ret_Returned in H. now injection H as -> _.
Qed.

Lemma classifyBody_invariant nodes : forall acc,
  named_init (PythonParser.constructor acc) ->
  Forall (fun m => fn_name m <> "__init__") (PythonParser.methods acc) ->
  named_init (PythonParser.constructor (PythonParser.classifyBody nodes acc))
  /\ Forall (fun m => fn_name m <> "__init__")
            (PythonParser.methods (PythonParser.classifyBody nodes acc)).
Proof.
  induction nodes as [|node rest IH]; intros acc Hc Hm; [now split|].
  cbn [PythonParser.classifyBody].
  destruct node; try (apply IH; assumption).
  destruct (String.eqb_spec (fn_name f) "__init__") as [Heq|Hne].
  - apply IH; [|exact Hm]. cbn. intros g Hg. now injection Hg as <-.
  - apply IH; [exact Hc|]. cbn. apply Forall_app. split; [exact Hm|].
    constructor; [exact Hne|constructor].
Qed.

Lemma python_parseClassDef_constructor self s cls s' :
  PythonParser.parseClassDef self s = Returned (cls, s') ->
  named_init (cls_constructor cls)
  /\ Forall (fun m => fn_name m <> "__init__") (cls_methods cls).
Proof.
  unfold PythonParser.parseClassDef. intros H.
  apply MonadFacts.bind_Returned in H as (classToken & s0 & _ & H).
  destruct classToken as [tk|]; [|discriminate].
  cbv zeta in H. bind_inv H.
  apply MonadFacts.ret_Returned in H. injection H as -> _.
  cbn [cls_constructor cls_methods].
  apply classifyBody_invariant; [intros f Hf; discriminate|constructor].
Qed.

(** X10.  A class node built by the PY, CPP or JV front-end has either
    no constructor or a constructor named [__init__]; in a class of the
    PY front-end no method is named [__init__]. *)
Theorem class_constructor_is_named_init cls :
  (exists self s s', PythonParser.parseClassDef self s = Returned (cls, s'))
  \/ (exists self s s', CppParser.parseClass self s = Returned (cls, s'))
  \/ (exists self s s', JavaParser.parseClass self s = Returned (cls, s')) ->
  (forall f, cls_constructor cls = Some f -> fn_name f = "__init__")
  /\ ((exists self s s',
          PythonParser.parseClassDef self s = Returned (cls, s')) ->
      Forall (fun m => fn_name m <> "__init__") (cls_methods cls)).
Proof.
  intros H. split.
  - destruct H as [(self & s & s' & H)|[(self & s & s' & H)|(self & s & s' & H)]].
    + now apply python_parseClassDef_constructor in H as [H _].
    + now apply cpp_parseClass_constructor in H.
    + now apply java_parseClass_constructor in H.
  - intros (self & s & s' & Hp).
    now apply python_parseClassDef_constructor in Hp as [_ Hp].
Qed.

End ConstructorFacts.

Module PythonProgramFacts.
Import PythonParser.

Lemma push_length statements stmt :
  List.length (push statements stmt) <= S (List.length statements).
Proof.
  destruct stmt; cbn [push]; [rewrite length_app; simpl|]; lia.
Qed.

(** X11.  The PY front-end parses at most [maxIterations] (10000)
    top-level statements: the body of the Program it returns is never
    longer, whatever the text.  Its imports are those the text's lines
    declare, unless an error was caught inside the front-end, which
    leaves the Program with no statement and no import. *)
Theorem python_program_is_capped fuel code ir :
  parse fuel code = Returned ir ->
  List.length (body ir) <= maxIterations
  /\ (imports ir = detectImports code \/ (body ir = [] /\ imports ir = [])).
Proof.
  unfold parse, parseProgram. intros H.
  destruct (loop _ _ _ _) as [[p s']|e|] eqn:E; try discriminate.
  2:{ injection H as <-. cbn. split; [lia|now right]. }
  injection H as ->. revert E.
  apply (LoopFacts.loop_invariant
           (fun st : list IRNode * nat =>
              List.length (fst st) <= snd st /\ snd st <= maxIterations)
           (fun p => List.length (body p) <= maxIterations
                     /\ (imports p = detectImports code
                         \/ (body p = [] /\ imports p = []))));
    [|cbn; lia].
  clear. intros [stmts iterations] s r s' [Hlen Hit] H. cbn [fst snd] in *.
  apply MonadFacts.bind_Returned in H as (go & s1 & _ & H).
  destruct (go && Nat.ltb iterations maxIterations) eqn:Hgo.
  - apply andb_true_iff in Hgo as [_ Hlt]. apply Nat.ltb_lt in Hlt.
    apply MonadFacts.bind_Returned in H as (node & s2 & _ & H).
    apply MonadFacts.ret_Returned in H. injection H as -> _.
    cbn [fst snd]. pose proof (push_length stmts node). lia.
  - apply MonadFacts.ret_Returned in H. injection H as -> _.
    cbn [body imports]. split; [lia|now left].
Qed.

End PythonProgramFacts.

Module QuoteFacts.
Import LexerFacts.
Local Open Scope string_scope.

Lemma scanQuoted_plain g s :
  isPlain s = true ->
  Lexer.scanQuoted g dquote s = (s, "")
  /\ Lexer.scanQuoted g dquote (s ++ str1 backslash)
     = (s ++ (if g then str1 backslash else String backslash "undefined"), "").
Proof.
  induction s as [|c r IH]; intros H.
  - split; [reflexivity|]. cbn. now destruct g.
  - cbn [isPlain] in H. apply andb_true_iff in H as [H Hr].
    apply andb_true_iff in H as [Hq Hb].
    apply negb_true_iff in Hq, Hb. destruct (IH Hr) as [IH1 IH2].
    cbn [Lexer.scanQuoted append]. rewrite Hq, Hb, IH1, IH2. now split.
Qed.

Lemma step_quote cfg r :
  Lexer.step cfg (String dquote r)
  = let '(t, rest) := Lexer.scanQuoted (Lexer.guardedEscape cfg) dquote r in
    Some (Some (mkToken STRING (String dquote (t ++ str1 dquote))), rest).
Proof.
  unfold Lexer.step.
  change (isSpace dquote) with false. cbv iota.
  change (Ascii.eqb dquote (ch 35)) with false. rewrite andb_false_r.
  change (String.prefix "//" (String dquote r)) with false.
  change (String.prefix "/*" (String dquote r)) with false.
  change (Ascii.eqb dquote dquote) with true. reflexivity.
Qed.

Lemma tokenize_unterminated cfg r t :
  Lexer.wellFormed cfg ->
  Lexer.scanQuoted (Lexer.guardedEscape cfg) dquote r = (t, "") ->
  Lexer.tokenize cfg (String dquote r)
  = [mkToken STRING (String dquote (t ++ str1 dquote))].
Proof.
  intros Hwf Hs.
  assert (Hstep : Lexer.step cfg (String dquote r)
                  = Some (Some (mkToken STRING (String dquote (t ++ str1 dquote))), "")).
  { rewrite step_quote, Hs. reflexivity. }
  rewrite (tokenize_step cfg _ _ _ Hwf Hstep). reflexivity.
Qed.

(** X12.  A string literal that is never closed runs to the end of the
    text and the lexer closes it itself: the text after the opening
    quote becomes one STRING token.  When that text ends in a backslash
    the C lexer reads one character past the end and the token holds
    the word undefined; the CPP and JV lexers guard that read. *)
Theorem unterminated_string_literal s :
  isPlain s = true ->
  CParser.tokenize (String dquote s)
  = [mkToken STRING (String dquote (s ++ str1 dquote))]
  /\ CppParser.tokenize (String dquote s)
     = [mkToken STRING (String dquote (s ++ str1 dquote))]
  /\ JavaParser.tokenize (String dquote s)
     = [mkToken STRING (String dquote (s ++ str1 dquote))]
  /\ CParser.tokenize (String dquote (s ++ str1 backslash))
     = [mkToken STRING
          (String dquote ((s ++ String backslash "undefined") ++ str1 dquote))]
  /\ CppParser.tokenize (String dquote (s ++ str1 backslash))
     = [mkToken STRING (String dquote ((s ++ str1 backslash) ++ str1 dquote))]
  /\ JavaParser.tokenize (String dquote (s ++ str1 backslash))
     = [mkToken STRING (String dquote ((s ++ str1 backslash) ++ str1 dquote))].
Proof.
  intros H.
  pose proof (scanQuoted_plain true s H) as [Hg1 Hg2].
  pose proof (scanQuoted_plain false s H) as [Hu1 Hu2].
  repeat split;
    (apply tokenize_unterminated;
     [first [apply wellFormed_c|apply wellFormed_cpp|apply wellFormed_java]
     |first [exact Hg1|exact Hg2|exact Hu1|exact Hu2]]).
Qed.

End QuoteFacts.

Module CGeneratorFacts.
Import CGenerator.

Lemma filter_filter_sub {A} (p q : A -> bool) l :
  (forall x, p x = true -> q x = true) ->
  filter p (filter q l) = filter p l.
Proof.
  intros H. induction l as [|x l IH]; [reflexivity|]. cbn [filter].
  destruct (q x) eqn:Hq; cbn [filter].
  - now rewrite IH.
  - destruct (p x) eqn:Hp; [|exact IH]. apply H in Hp. congruence.
Qed.

Lemma filter_filter_none {A} (p q : A -> bool) l :
  (forall x, q x = true -> p x = false) ->
  filter p (filter q l) = [].
Proof.
  intros H. induction l as [|x l IH]; [reflexivity|]. cbn [filter].
  destruct (q x) eqn:Hq; [|exact IH]. cbn [filter]. now rewrite (H x Hq).
Qed.

Lemma existsb_main_functions l :
  existsb isMainFunction l = true ->
  existsb isMainFunction (filter isIRFunction l) = true.
Proof.
  induction l as [|x l IH]; [discriminate|]. cbn [existsb filter].
  destruct (isMainFunction x) eqn:Hm.
  - intros _. destruct x; try discriminate.
    cbn [isIRFunction existsb]. now rewrite Hm.
  - cbn [orb]. intros H. specialize (IH H).
    destruct (isIRFunction x); [cbn [existsb]; now rewrite Hm|exact IH].
Qed.

(** X13.  When a Program has a function named main, the C back-end
    emits only its functions and classes: the statements and variables
    that stand beside them at top level leave no line in the C text
    (they still count for the choice of the include lines). *)
Theorem c_generate_drops_statements_beside_main ir :
  existsb isMainFunction (body ir) = true ->
  analyzeProgram (withoutStatements ir) = analyzeProgram ir ->
  generate ir = generate (withoutStatements ir).
Proof.
  intros Hmain Hflags. unfold generate. cbv zeta. rewrite Hflags.
  cbn [withoutStatements body].
  rewrite (filter_filter_sub isIRFunction)
    by (intros x ->; reflexivity).
  rewrite (filter_filter_sub isIRClass)
    by (intros x ->; apply orb_true_r).
  rewrite (filter_filter_none
             (fun n => negb (isIRFunction n) && negb (isIRClass n)))
    by (intros x Hx; apply orb_true_iff in Hx as [-> | ->];
        [reflexivity|apply andb_false_r]).
  rewrite (existsb_main_functions _ Hmain).
  now destruct (filter (fun n => negb (isIRFunction n) && negb (isIRClass n))
                       (body ir)).
Qed.

End CGeneratorFacts.

Module PrintRoundTrip.
Import CParser PrintfSpec CGenerator Emit PrintfFacts CleanFacts FormatFacts.
Local Open Scope string_scope.




























(** ** The lexer on the statement *)





Lemma tokenize_closing :
  CParser.tokenize ");"
  = [mkToken PUNCTUATION ")"; mkToken PUNCTUATION ";"].
Proof. reflexivity. Qed.













(** ** The parser on the tokens *)












End PrintRoundTrip.

Module AppFacts.
Import Transpiler App.
Local Open Scope string_scope.

Lemma Language_eqb_spec a b : reflect (a = b) (Language_eqb a b).
Proof. destruct a, b; constructor; congruence. Qed.

Lemma Language_eqb_refl a : Language_eqb a a = true.
Proof. now destruct a. Qed.

Lemma lookup_assign {T} (m : Rec T) k v lang :
  lookup (assign m k v) lang
  = if Language_eqb k lang then Some v else lookup m lang.
Proof.
  induction m as [|[k' w] rest IH]; cbn [assign lookup].
  - reflexivity.
  - destruct (Language_eqb_spec k' k) as [->|Hk]; cbn [lookup].
    + now destruct (Language_eqb k lang).
    + rewrite IH. destruct (Language_eqb_spec k' lang) as [->|]; [|reflexivity].
      destruct (Language_eqb_spec k lang) as [->|]; [now contradiction Hk|reflexivity].
Qed.

Lemma lookup_None_keys {T} (m : Rec T) lang :
  lookup m lang = None <-> ~ In lang (map fst m).
Proof.
  induction m as [|[k w] rest IH]; cbn [lookup map fst In]; [easy|].
  destruct (Language_eqb_spec k lang) as [->|Hk].
  - split; [discriminate|]. intros H. contradiction H. now left.
  - rewrite IH. split; [intros H [E|E]; easy|]. intros H F. apply H. now right.
Qed.

Lemma assign_keys {T} (m : Rec T) k v :
  NoDup (map fst m) -> NoDup (map fst (assign m k v)).
Proof.
  induction m as [|[k' w] rest IH]; cbn [assign map fst]; intros H.
  - constructor; [easy|constructor].
  - inversion H as [|? ? Hn Hr]; subst.
    destruct (Language_eqb_spec k' k) as [->|Hk]; cbn [map fst]; [assumption|].
    constructor; [|now apply IH].
    apply lookup_None_keys. rewrite lookup_assign.
    destruct (Language_eqb_spec k k') as [->|]; [now contradiction Hk|].
    now apply lookup_None_keys.
Qed.

Lemma enter_keys codes lang code :
  NoDup (map fst codes) -> NoDup (map fst (enter codes lang code)).
Proof.
  intros H. unfold enter. destruct code as [code|]; [|assumption].
  destruct (runnable code); [now apply assign_keys|assumption].
Qed.

Lemma lookup_enter codes k code lang :
  lookup (enter codes k code) lang
  = match code with
    | Some text =>
        if Language_eqb k lang && runnable text then Some text
        else lookup codes lang
    | None => lookup codes lang
    end.
Proof.
  unfold enter. destruct code as [text|]; [|reflexivity].
  destruct (runnable text); [|now rewrite andb_false_r].
  now rewrite lookup_assign, andb_true_r.
Qed.

(** The codes of [handleRunAll], key by key. *)
Lemma lookup_runCodes sourceLanguage sourceCode result verifyResults lang :
  lookup (runCodes sourceLanguage sourceCode result verifyResults) lang
  = if Language_eqb sourceLanguage lang then Some sourceCode
    else match orElse (option_map correctedCode (lookup verifyResults lang))
                      (resultOf result lang) with
         | Some text => if runnable text then Some text else None
         | None => None
         end.
Proof.
  unfold runCodes, allLanguages. cbn [fold_left].
  destruct sourceLanguage, lang; cbn [Language_eqb negb];
    rewrite ?lookup_enter; cbn [Language_eqb andb assign lookup];
    repeat match goal with
           | |- context [match ?x with Some _ => _ | None => _ end] =>
               destruct x; cbn [Language_eqb andb]
           | |- context [if runnable ?x then _ else _] =>
               destruct (runnable x)
           end; reflexivity.
Qed.

Lemma runCodes_keys sourceLanguage sourceCode result verifyResults :
  NoDup (map fst (runCodes sourceLanguage sourceCode result verifyResults)).
Proof.
  unfold runCodes, allLanguages. cbn [fold_left].
  repeat match goal with
         | |- NoDup (map fst (if ?b then _ else _)) => destruct b
         | |- NoDup (map fst (enter _ _ _)) => apply enter_keys
         end;
    cbn; constructor; (easy || constructor).
Qed.

Lemma lookup_filter (codes : Rec string) lang :
  NoDup (map fst codes) ->
  lookup (filter (fun '(_, code) => runnable code) codes) lang
  = match lookup codes lang with
    | Some code => if runnable code then Some code else None
    | None => None
    end.
Proof.
  induction codes as [|[k code] rest IH]; cbn [filter lookup map fst];
    intros H; [reflexivity|].
  inversion H as [|? ? Hn Hr]; subst. specialize (IH Hr).
  destruct (Language_eqb_spec k lang) as [->|Hk].
  - destruct (runnable code); cbn [lookup].
    + now rewrite Language_eqb_refl.
    + rewrite IH. apply lookup_None_keys in Hn. now rewrite Hn.
  - destruct (runnable code); cbn [lookup]; [|assumption].
    now destruct (Language_eqb_spec k lang).
Qed.

Lemma filter_keys (codes : Rec string) :
  NoDup (map fst codes) ->
  NoDup (map fst (filter (fun '(_, code) => runnable code) codes)).
Proof.
  induction codes as [|[k code] rest IH]; cbn [filter map fst]; intros H;
    [constructor|].
  inversion H as [|? ? Hn Hr]; subst.
  destruct (runnable code); cbn [map fst]; [|now apply IH].
  constructor; [|now apply IH].
  intros F. apply Hn. apply in_map_iff in F as ([k' c'] & E & F).
  apply filter_In in F as [F _]. apply in_map_iff. now exists (k', c').
Qed.

Section Service.
Variable executeCode : string -> Language -> Exn + ExecutionResult.

Lemma lookup_requests (entries : Rec string) lang : forall results,
  NoDup (map fst entries) ->
  lookup (fold_left (fun results '(lang, code) =>
                       assign results lang (settle executeCode code lang))
                    entries results) lang
  = match lookup entries lang with
    | Some code => Some (settle executeCode code lang)
    | None => lookup results lang
    end.
Proof.
  induction entries as [|[k code] rest IH]; cbn [fold_left lookup map fst];
    intros results H; [reflexivity|].
  inversion H as [|? ? Hn Hr]; subst. rewrite IH by assumption.
  rewrite lookup_assign.
  destruct (Language_eqb_spec k lang) as [->|Hk]; [|reflexivity].
  apply lookup_None_keys in Hn. now rewrite Hn.
Qed.

Lemma lookup_executeAllCode codes lang :
  NoDup (map fst codes) ->
  lookup (executeAllCode executeCode codes) lang
  = match lookup codes lang with
    | Some code =>
        if runnable code then Some (settle executeCode code lang) else None
    | None => None
    end.
Proof.
  intros H. unfold executeAllCode.
  rewrite lookup_requests by now apply filter_keys.
  rewrite lookup_filter by assumption.
  destruct (lookup codes lang) as [code|]; [|reflexivity].
  now destruct (runnable code).
Qed.

End Service.

(** The codes of [handleVerify], key by key. *)
Lemma lookup_verifyCodes sourceLanguage result lang :
  lookup (verifyCodes sourceLanguage result) lang
  = if Language_eqb sourceLanguage lang then None
    else match resultOf result lang with
         | Some text => if runnable text then Some text else None
         | None => None
         end.
Proof.
  unfold verifyCodes, allLanguages. cbn [fold_left].
  destruct sourceLanguage, lang; cbn [Language_eqb negb];
    rewrite ?lookup_enter; cbn [Language_eqb andb lookup];
    repeat match goal with
           | |- context [match ?x with Some _ => _ | None => _ end] =>
               destruct x; cbn [Language_eqb andb]
           | |- context [if runnable ?x then _ else _] =>
               destruct (runnable x)
           end; reflexivity.
Qed.

Lemma emitAll_sentinel pg cg xg jg ir :
  hasNonMainClasses ir = true ->
  resultOf (emitAll pg cg xg jg ir) LC = Some sentinel.
Proof.
  intros H. unfold emitAll. rewrite H. cbn [attempt].
  destruct (attempt "Python" (pg ir)), (attempt "C++" (xg ir)),
    (attempt "Java" (jg ir)). reflexivity.
Qed.

(** X15. What Run All runs.  The source text is run exactly when it is
    not empty and does not begin with two slashes: a program that opens
    with a line comment is left out, although [handleRunAll] enters it.
    A translation that has not been reviewed is run under the same
    condition.  Every entry of the results comes from a request for a
    text that passes this test: it is the service's answer, or, when the
    request is rejected, the error's message with the exit code -1. *)
Theorem run_all_results executeCode sourceLanguage sourceCode result
        verifyResults :
  let results :=
    executeAllCode executeCode
      (runCodes sourceLanguage sourceCode result verifyResults) in
  lookup results sourceLanguage
  = (if runnable sourceCode
     then Some (settle executeCode sourceCode sourceLanguage) else None)
  /\ (startsWith sourceCode "//" = true ->
      lookup results sourceLanguage = None)
  /\ (forall lang,
        lang <> sourceLanguage -> lookup verifyResults lang = None ->
        lookup results lang
        = match resultOf result lang with
          | Some code =>
              if runnable code
              then Some (settle executeCode code lang) else None
          | None => None
          end)
  /\ (forall lang r,
        lookup results lang = Some r ->
        exists code,
          runnable code = true
          /\ (executeCode code lang = inr r
              \/ exists e, executeCode code lang = inl e
                           /\ r = mkExecutionResult "" (exnMessage e) (-1))).
Proof.
  intros results. unfold results. clear results.
  assert (L : forall lang,
    lookup (executeAllCode executeCode
              (runCodes sourceLanguage sourceCode result verifyResults)) lang
    = match lookup (runCodes sourceLanguage sourceCode result verifyResults)
              lang with
      | Some code =>
          if runnable code then Some (settle executeCode code lang) else None
      | None => None
      end)
    by (intros lang; apply lookup_executeAllCode, runCodes_keys).
  assert (S0 : lookup (executeAllCode executeCode
              (runCodes sourceLanguage sourceCode result verifyResults))
              sourceLanguage
            = if runnable sourceCode
              then Some (settle executeCode sourceCode sourceLanguage)
              else None)
    by (now rewrite L, lookup_runCodes, Language_eqb_refl).
  split; [exact S0|]. split; [|split].
  - intros H. rewrite S0. unfold runnable.
    destruct sourceCode; [reflexivity|]. now rewrite H.
  - intros lang Hl Hv. rewrite L, lookup_runCodes, Hv.
    destruct (Language_eqb_spec sourceLanguage lang) as [->|_];
      [now contradiction Hl|].
    cbn [option_map orElse].
    destruct (resultOf result lang) as [code|]; [|reflexivity].
    destruct (runnable code) eqn:E; [now rewrite E|reflexivity].
  - intros lang r H. rewrite L in H.
    destruct (lookup (runCodes _ _ _ _) lang) as [code|]; [|discriminate].
    destruct (runnable code) eqn:E; [|discriminate].
    injection H as <-. exists code. split; [assumption|]. unfold settle.
    destruct (executeCode code lang) as [e|r]; [right; eauto|now left].
Qed.

(** X16. The text that stands for the C output of a program with
    classes is a line comment, so it is never handed to the reviewing
    service, and never run unless a review has put another text in its
    place. *)
Theorem sentinel_is_never_sent executeCode pg cg xg jg ir sourceLanguage
        sourceCode verifyResults :
  hasNonMainClasses ir = true ->
  sourceLanguage <> LC ->
  let result := emitAll pg cg xg jg ir in
  lookup (verifyCodes sourceLanguage result) LC = None
  /\ (lookup verifyResults LC = None ->
      lookup (executeAllCode executeCode
                (runCodes sourceLanguage sourceCode result verifyResults)) LC
      = None).
Proof.
  intros H Hs result. unfold result. clear result.
  pose proof (emitAll_sentinel pg cg xg jg ir H) as E.
  split.
  - rewrite lookup_verifyCodes, E.
    destruct (Language_eqb sourceLanguage LC); reflexivity.
  - intros Hv.
    rewrite lookup_executeAllCode by apply runCodes_keys.
    rewrite lookup_runCodes, Hv, E.
    destruct (Language_eqb_spec sourceLanguage LC) as [->|_];
      [now contradiction Hs|reflexivity].
Qed.

End AppFacts.

Module Instances.
Import Scenario Samples Emit.
Local Open Scope string_scope.

(** An instance of [result_record_invariant]: the PY back-end throws. *)
Lemma result_record_invariant_witness :
  exists r,
    Transpiler.run 40 (throwing "no emitter") (returning "cpp")
                   pythonPrint LPython = Some r
    /\ (Transpiler.success r = true <-> Transpiler.errors r = [])
    /\ (Transpiler.success r = true <->
        Transpiler.python r <> None /\ Transpiler.c r <> None
        /\ Transpiler.cpp r <> None /\ Transpiler.java r <> None)
    /\ (Transpiler.success r = false -> Transpiler.errors r <> []).
Proof.
  eexists. split; [vm_compute; reflexivity|].
  apply (ResultFacts.result_record_invariant
           (PythonParser.parse 40) (CParser.parse 40)
           (CppParser.parse 40) (JavaParser.parse 40)
           (throwing "no emitter") (fun ir => inr (CGenerator.generate ir))
           (returning "cpp") JavaGenerator.generate
           pythonPrint LPython).
  vm_compute. reflexivity.
Defined.

(** An instance of [c_program_shape]: a variable and a function. *)
Lemma c_program_shape_witness :
  CParser.parse 40 globalBesideMain = Returned globalBesideMainIR
  /\ Forall topForm (body globalBesideMainIR)
  /\ Forall (fun d => includes d "include" = true) (imports globalBesideMainIR)
  /\ Transpiler.hasNonMainClasses globalBesideMainIR = false.
Proof.
  assert (H : CParser.parse 40 globalBesideMain = Returned globalBesideMainIR)
    by (vm_compute; reflexivity).
  split; [exact H|]. exact (CProgramFacts.c_program_shape _ _ _ H).
Defined.

(** An instance of [c_parseFor_countdown]: the loop that counts down. *)
Lemma c_parseFor_countdown_witness :
  exists node st',
    CParser.parseFor (CParser.table 30)
                     (Core.mkPState (CParser.tokenize countdown) 0)
    = Returned (node, st')
    /\ exists init condition update iterator rangeStart rangeEnd rangeStep
              body,
         node = NFor init condition update iterator rangeStart rangeEnd
                     rangeStep body
         /\ (rangeEnd <> None <->
             exists op l r, condition = Some (NBinaryOp op l r)
                            /\ (op = "<" \/ op = "<="))
         /\ (forall op o, update = Some (NUnaryOp op o) ->
                          op = "--" \/ op = "--_post" ->
                          rangeStep = Some (intLit (-1))).
Proof.
  destruct (CParser.parseFor (CParser.table 30)
              (Core.mkPState (CParser.tokenize countdown) 0))
    as [[node st']| |] eqn:H; [|vm_compute in H; discriminate H..].
  exists node, st'. split; [reflexivity|].
  destruct (ForFacts.c_parseFor_countdown _ _ _ _ H)
    as (init & condition & update & iterator & rangeStart & rangeEnd
        & rangeStep & body & Hn & He & _ & Hd & _).
  exists init, condition, update, iterator, rangeStart, rangeEnd, rangeStep,
    body.
  split; [exact Hn|]. split; [exact He|exact Hd].
Defined.

(** An instance of [cpp_java_parseFor_no_countdown]: the same loop read
    by the CPP front-end. *)
Lemma cpp_java_parseFor_no_countdown_witness :
  exists node st',
    CppParser.parseFor (CppParser.table 30)
                       (Core.mkPState (CppParser.tokenize countdown) 0)
    = Returned (node, st')
    /\ exists init condition update iterator rangeStart rangeEnd rangeStep
              body,
         node = NFor init condition update iterator rangeStart rangeEnd
                     rangeStep body
         /\ (forall op o, update = Some (NUnaryOp op o) ->
                          op = "--" \/ op = "--_post" -> rangeStep = None).
Proof.
  destruct (CppParser.parseFor (CppParser.table 30)
              (Core.mkPState (CppParser.tokenize countdown) 0))
    as [[node st']| |] eqn:H; [|vm_compute in H; discriminate H..].
  exists node, st'. split; [reflexivity|].
  destruct (ForFacts.cpp_java_parseFor_no_countdown node)
    as (init & condition & update & iterator & rangeStart & rangeEnd
        & rangeStep & body & Hn & _ & Hd & _).
  - left. eauto.
  - exists init, condition, update, iterator, rangeStart, rangeEnd,
      rangeStep, body.
    split; [exact Hn|exact Hd].
Defined.

(** An instance of [blank_text_parses_to_empty_program]. *)
Lemma blank_text_parses_to_empty_program_witness :
  PythonParser.parse 2 blankText = Returned (mkProgram [] [])
  /\ CParser.parse 2 blankText = Returned (mkProgram [] [])
  /\ CppParser.parse 2 blankText = Returned (mkProgram [] [])
  /\ JavaParser.parse 2 blankText = Returned (mkProgram [] []).
Proof.
  apply (BlankFacts.blank_text_parses_to_empty_program blankText 0).
  reflexivity.
Defined.

(** An instance of [class_constructor_is_named_init]: a JV class with
    the constructor [Counter()]. *)
Lemma class_constructor_is_named_init_witness :
  exists cls s',
    JavaParser.parseClass (JavaParser.table 30)
      (Core.mkPState (JavaParser.tokenize javaWithConstructor) 0)
    = Returned (cls, s')
    /\ (forall f, cls_constructor cls = Some f -> fn_name f = "__init__").
Proof.
  destruct (JavaParser.parseClass (JavaParser.table 30)
              (Core.mkPState (JavaParser.tokenize javaWithConstructor) 0))
    as [[cls s']| |] eqn:H; [|vm_compute in H; discriminate H..].
  exists cls, s'. split; [reflexivity|].
  destruct (ConstructorFacts.class_constructor_is_named_init cls) as [Hc _].
  - right. right. eauto.
  - exact Hc.
Defined.

(** An instance of [python_program_is_capped]. *)
Lemma python_program_is_capped_witness :
  PythonParser.parse 40 pythonPrint = Returned pythonPrintIR
  /\ List.length (body pythonPrintIR) <= PythonParser.maxIterations
  /\ (imports pythonPrintIR = PythonParser.detectImports pythonPrint
      \/ (body pythonPrintIR = [] /\ imports pythonPrintIR = [])).
Proof.
  assert (H : PythonParser.parse 40 pythonPrint = Returned pythonPrintIR)
    by (vm_compute; reflexivity).
  split; [exact H|].
  exact (PythonProgramFacts.python_program_is_capped _ _ _ H).
Defined.

(** An instance of [unterminated_string_literal] on the text [abc]. *)
Lemma unterminated_string_literal_witness :
  CParser.tokenize (String dquote "abc")
  = [mkToken STRING (String dquote ("abc" ++ str1 dquote))]
  /\ CParser.tokenize (String dquote ("abc" ++ str1 backslash))
     = [mkToken STRING
          (String dquote (("abc" ++ String backslash "undefined")
                          ++ str1 dquote))]
  /\ CppParser.tokenize (String dquote ("abc" ++ str1 backslash))
     = [mkToken STRING
          (String dquote (("abc" ++ str1 backslash) ++ str1 dquote))].
Proof.
  destruct (QuoteFacts.unterminated_string_literal "abc" eq_refl)
    as (H1 & _ & _ & H4 & H5 & _).
  split; [exact H1|]. split; [exact H4|exact H5].
Defined.

(** An instance of [c_generate_drops_statements_beside_main]: the
    variable [g] beside [main] leaves no line. *)
Lemma c_generate_drops_statements_beside_main_witness :
  CGenerator.generate globalBesideMainIR
  = CGenerator.generate (withoutStatements globalBesideMainIR).
Proof.
  apply (CGeneratorFacts.c_generate_drops_statements_beside_main
           globalBesideMainIR).
  - vm_compute. reflexivity.
  - vm_compute. reflexivity.
Defined.


(** An instance of [sentinel_is_never_sent]: the JV class Counter, the
    execution service out of reach, nothing reviewed. *)
Lemma sentinel_is_never_sent_witness :
  App.lookup
    (App.verifyCodes LJava
       (Transpiler.emitAll (returning "py")
          (fun ir => inr (CGenerator.generate ir)) (returning "cpp")
          JavaGenerator.generate javaCounterIR)) LC = None
  /\ (App.lookup (@nil (Language * App.VerifyResult)) LC = None ->
      App.lookup
        (App.executeAllCode offline
           (App.runCodes LJava javaCounter
              (Transpiler.emitAll (returning "py")
                 (fun ir => inr (CGenerator.generate ir)) (returning "cpp")
                 JavaGenerator.generate javaCounterIR) [])) LC = None).
Proof.
  apply (AppFacts.sentinel_is_never_sent offline (returning "py")
           (fun ir => inr (CGenerator.generate ir)) (returning "cpp")
           JavaGenerator.generate javaCounterIR LJava javaCounter []).
  - vm_compute. reflexivity.
  - discriminate.
Defined.

End Instances.
